(** * CarouselAI: the slide layout and rendering engine

    A shallow embedding of the three slide templates of the carousel editor
    (components/TwitterSlide.tsx, components/StorytellerSlide.tsx and
    components/LessonSlide.tsx) together with the markdown dialect they
    share, and the properties of the layout specification checked on it.

    Conventions of the embedding:
    - a JavaScript string is the list of its UTF-16 code units ([jstring]);
      strings the components themselves contain (class names, tags, style
      keys) stay Rocq strings;
    - a JavaScript [number] is a rational ([Q]); the code only selects,
      compares with 0 and multiplies such numbers, NaN and the infinities
      are outside the model;
    - an optional property ([x?: T]) is an [option T];
    - a React element is a [node]: tag, class list, inline style, attributes
      and children, with the region of the slide it stands for when the
      source names one; the [key] of an element is left out;
    - the tests of [parseInline] on a part and of [renderMarkdown] on a
      line are the same text in the three components: they are given once
      ([classify_part], [classify_line]) and each component turns their
      result into its own elements. *)

From Stdlib Require Import List NArith ZArith QArith String Ascii Bool Lia.
From Stdlib Require Import DecimalString.
Import ListNotations.

Set Implicit Arguments.
Set Warnings "-register-all".

(* ====================================================================== *)
(** ** JavaScript strings *)
(* ====================================================================== *)

Module JS.

Definition char := N.
Definition jstring := list char.

(** A string literal of the source, as code units. *)
Definition str (s : string) : jstring :=
  map N_of_ascii (list_ascii_of_string s).

Definition char_eqb (a b : char) : bool := N.eqb a b.

Fixpoint jeqb (a b : jstring) : bool :=
  match a, b with
  | [], [] => true
  | x :: a', y :: b' => char_eqb x y && jeqb a' b'
  | _, _ => false
  end.

(** ECMAScript [LineTerminator]: LF, CR, LS, PS. *)
Definition is_line_terminator (c : char) : bool :=
  ((c =? 10) || (c =? 13) || (c =? 8232) || (c =? 8233))%N.

(** ECMAScript [WhiteSpace] (TAB, VT, FF, SP, NBSP, ZWNBSP and the Unicode
    space separators) or [LineTerminator]: what [String.prototype.trim]
    strips. *)
Definition is_ws (c : char) : bool :=
  ((c =? 9) || (c =? 11) || (c =? 12) || (c =? 32) || (c =? 160)
   || (c =? 5760) || ((8192 <=? c) && (c <=? 8202)) || (c =? 8239)
   || (c =? 8287) || (c =? 12288) || (c =? 65279))%N
  || is_line_terminator c.

(** [\d] without the unicode flag: ASCII digits. *)
Definition is_digit (c : char) : bool := ((48 <=? c) && (c <=? 57))%N.

Fixpoint drop_ws (s : jstring) : jstring :=
  match s with
  | c :: s' => if is_ws c then drop_ws s' else s
  | [] => []
  end.

Definition trimStart (s : jstring) : jstring := drop_ws s.
Definition trimEnd (s : jstring) : jstring := rev (drop_ws (rev s)).

(** [s.trim()] *)
Definition trim (s : jstring) : jstring := trimEnd (trimStart s).

(** [s.startsWith(p)] *)
Fixpoint startsWith (p s : jstring) : bool :=
  match p, s with
  | [], _ => true
  | x :: p', y :: s' => char_eqb x y && startsWith p' s'
  | _ :: _, [] => false
  end.

(** [s.endsWith(p)] *)
Definition endsWith (p s : jstring) : bool := startsWith (rev p) (rev s).

(** [s.slice(start, end)]: negative indices count from the end, both are
    clamped to the string, an empty range gives the empty string. *)
Definition clamp_index (len i : Z) : Z :=
  if (i <? 0)%Z then Z.max (len + i) 0 else Z.min i len.

Definition slice (s : jstring) (start stop : Z) : jstring :=
  let len := Z.of_nat (List.length s) in
  let from := clamp_index len start in
  let to := clamp_index len stop in
  firstn (Z.to_nat (to - from)) (skipn (Z.to_nat from) s).

(** [s.slice(start)] *)
Definition slice_from (s : jstring) (start : Z) : jstring :=
  slice s start (Z.of_nat (List.length s)).

(** [s.split('\n')]: the pieces between the separators, never an empty
    array. *)
Fixpoint split_on (sep : char) (s : jstring) : list jstring :=
  match s with
  | [] => [[]]
  | c :: s' =>
      if char_eqb c sep then [] :: split_on sep s'
      else match split_on sep s' with
           | l :: ls => (c :: l) :: ls
           | [] => [[c]]
           end
  end.

(** [a.join('\n')] *)
Fixpoint join (sep : char) (l : list jstring) : jstring :=
  match l with
  | [] => []
  | [x] => x
  | x :: l' => x ++ sep :: join sep l'
  end.

Definition LF : char := 10%N.

(** Truthiness of a string and of an optional string. *)
Definition truthy (s : jstring) : bool :=
  match s with [] => false | _ :: _ => true end.

Definition truthy_opt (o : option jstring) : bool :=
  match o with Some s => truthy s | None => false end.

End JS.
Import JS.

(* ====================================================================== *)
(** ** The regular expressions of the markdown dialect *)
(* ====================================================================== *)

Module Regex.

(** The tail of a lazy token [d .*? d] once the opening delimiter has been
    consumed: the shortest run of [.] (any code unit but a line terminator)
    followed by the closing delimiter. Returns the body and the closing
    delimiter together. *)
Fixpoint lazy_until (d : jstring) (s : jstring) : option jstring :=
  if startsWith d s then Some d
  else match s with
       | [] => None
       | c :: s' =>
           if is_line_terminator c then None
           else match lazy_until d s' with
                | Some b => Some (c :: b)
                | None => None
                end
       end.

(** One alternative [d.*?d] anchored at the head of [s]: the matched
    token. *)
Definition token_alt (d : jstring) (s : jstring) : option jstring :=
  if startsWith d s then
    match lazy_until d (skipn (List.length d) s) with
    | Some b => Some (d ++ b)
    | None => None
    end
  else None.

Definition orelse {A} (a b : option A) : option A :=
  match a with Some _ => a | None => b end.

(** [/(\*\*.*?\*\*|\*.*?\*|~~.*?~~|__.*?__)/] matched at the head of [s];
    the alternatives are tried from left to right. *)
Definition token_at (s : jstring) : option jstring :=
  orelse (token_alt (str "**") s)
    (orelse (token_alt (str "*") s)
       (orelse (token_alt (str "~~") s) (token_alt (str "__") s))).

(** [text.split(re)] for the token expression, whose single capture group
    is the whole match: the search position moves one code unit at a time
    until the expression matches; the literal before the match and the
    captured token are emitted and the search resumes after the token,
    [skip] counting the code units of the token still to pass. The last
    literal is emitted at the end of the string. *)
Fixpoint split_tokens (skip : nat) (lit : jstring) (s : jstring)
  : list jstring :=
  match s with
  | [] => [lit]
  | c :: s' =>
      match skip with
      | S k => split_tokens k lit s'
      | O =>
          match token_at s with
          | Some tok => lit :: tok :: split_tokens (List.length tok - 1) [] s'
          | None => split_tokens 0 (lit ++ [c]) s'
          end
      end
  end.

Definition split_inline (text : jstring) : list jstring :=
  split_tokens 0 [] text.

Fixpoint span_digits (s : jstring) : jstring * jstring :=
  match s with
  | c :: s' =>
      if is_digit c then let (ds, r) := span_digits s' in (c :: ds, r)
      else ([], s)
  | [] => ([], [])
  end.

(** [/^\d+\. /.test(s)] *)
Definition test_numbered (s : jstring) : bool :=
  match span_digits s with
  | (_ :: _, r) => startsWith (str ". ") r
  | ([], _) => false
  end.

(** [s.match(/^\d+/)?.[0]] *)
Definition match_digits (s : jstring) : option jstring :=
  match span_digits s with
  | ((_ :: _) as ds, _) => Some ds
  | ([], _) => None
  end.

(** [s.replace(/^\d+\. /, '')] *)
Definition strip_numbered (s : jstring) : jstring :=
  match span_digits s with
  | (_ :: _, r) => if startsWith (str ". ") r then skipn 2 r else s
  | ([], _) => s
  end.

End Regex.
Import Regex.


(* ====================================================================== *)
(** ** Data model (types.ts) *)
(* ====================================================================== *)

Inductive SlideType := COVER | CONTENT | CTA.
Inductive Theme := LIGHT | DARK.
Inductive FontStyle := MODERN | SERIF | TECH.
Inductive TextAlignment := left | center | right.

Definition SlideType_eqb (a b : SlideType) : bool :=
  match a, b with
  | COVER, COVER | CONTENT, CONTENT | CTA, CTA => true
  | _, _ => false
  end.

(** [interface LayoutSettings]. The components read every field through
    [layoutSettings?.f ?? default], so a field may be missing at run time
    (their own [defaultLayoutSettings] has no [textAlignment]). *)
Module LayoutSettings.
Record t := mk {
  contentPadding : option Q;
  imageCanvasOffset : option Q;
  imageMargin : option Q;
  textLineHeight : option Q;
  paragraphGap : option Q;
  textAlignment : option TextAlignment
}.
End LayoutSettings.

(** The object literal [defaultLayoutSettings] the three components start
    with: the five numeric fields, no text alignment. *)
Module LayoutDefaults.
Record t := mk {
  contentPadding : Q;
  imageCanvasOffset : Q;
  imageMargin : Q;
  textLineHeight : Q;
  paragraphGap : Q
}.
End LayoutDefaults.

(** [interface Profile] *)
Module Profile.
Record t := mk {
  name : jstring;
  handle : jstring;
  avatarUrl : jstring
}.
End Profile.

(** [interface Slide]. [contentLayout] is kept as the string it is at run
    time, so that values outside the [ContentLayout] union can be
    expressed. *)
Module Slide.
Record t := mk {
  id : jstring;
  type : SlideType;
  content : jstring;
  imageUrl : option jstring;
  showImage : bool;
  imagePrompt : option jstring;
  imageScale : option Q;
  overlayImage : option bool;
  imageOffsetY : option Q;
  gradientHeight : option Q;
  fontStyle : option FontStyle;
  fontScale : option Q;
  contentLayout : option jstring;
  showBackgroundImage : option bool;
  backgroundImageUrl : option jstring;
  backgroundOverlayColor : option jstring;
  backgroundOverlayOpacity : option Q;
  contentPadding : option Q;
  imageCanvasOffset : option Q;
  imageMargin : option Q;
  textLineHeight : option Q;
  paragraphGap : option Q;
  backgroundTextColor : option jstring;
  theme : option Theme;
  imageTextSpacing : option Q;
  textAlignment : option TextAlignment
}.
End Slide.

(** The props the three components share ([TwitterSlideProps],
    [StorytellerSlideProps], [LessonSlideProps] have the same fields). *)
Module Props.
Record t := mk {
  slide : Slide.t;
  profile : Profile.t;
  index : Z;
  total : Z;
  showSlideNumbers : bool;
  headerScale : option Q;
  theme : Theme;
  forExport : option bool;
  showVerifiedBadge : option bool;
  accentColor : option jstring;
  fontStyle : option FontStyle;
  fontScale : option Q;
  layoutSettings : option LayoutSettings.t
}.

Definition with_forExport (b : bool) (p : t) : t :=
  mk (slide p) (profile p) (index p) (total p) (showSlideNumbers p)
     (headerScale p) (theme p) (Some b) (showVerifiedBadge p)
     (accentColor p) (fontStyle p) (fontScale p) (layoutSettings p).

Definition with_slide (s : Slide.t) (p : t) : t :=
  mk s (profile p) (index p) (total p) (showSlideNumbers p)
     (headerScale p) (theme p) (forExport p) (showVerifiedBadge p)
     (accentColor p) (fontStyle p) (fontScale p) (layoutSettings p).
End Props.

(* ====================================================================== *)
(** ** JavaScript operators on optional values and numbers *)
(* ====================================================================== *)

(** [a ?? b] *)
Definition nullish {A} (a : option A) (b : A) : A :=
  match a with Some x => x | None => b end.

(** [o?.f] *)
Definition opt_chain {A B} (o : option A) (f : A -> option B) : option B :=
  match o with Some x => f x | None => None end.

(** [a !== undefined ? a : b] *)
Definition if_defined {A} (a : option A) (b : A) : A :=
  match a with Some x => x | None => b end.

(** A default parameter value: [({ x = d }) => ...]. *)
Definition default_param {A} (a : option A) (d : A) : A :=
  match a with Some x => x | None => d end.

(** The number 0 is the falsy one. *)
Definition num_falsy (q : Q) : bool := Qeq_bool q 0.

(** [a || d] on an optional number. *)
Definition or_num (a : option Q) (d : Q) : Q :=
  match a with
  | Some q => if num_falsy q then d else q
  | None => d
  end.

(** [a || d] on an optional string. *)
Definition or_str (a : option jstring) (d : jstring) : jstring :=
  match a with
  | Some s => if truthy s then s else d
  | None => d
  end.

(** [a || d] on an optional value whose every inhabitant is truthy (the
    members of a union of non-empty string literals). *)
Definition or_enum {A} (a : option A) (d : A) : A :=
  match a with Some x => x | None => d end.

Definition Qgt_bool (a b : Q) : bool := negb (Qle_bool a b).

(* ====================================================================== *)
(** ** The visual tree *)
(* ====================================================================== *)

(** The value of an inline style property. *)
Inductive css :=
| Px (q : Q)                       (* `${q}px` *)
| NegPx (q : Q)                    (* `-${q}px` *)
| Pct (q : Q)                      (* `${q}%` *)
| Scalar (q : Q)                   (* a bare number *)
| CalcPctPlusPx (p o : Q)          (* `calc(${p}% + ${o}px)` *)
| CalcFullMinusPx (o : Q)          (* `calc(100% - ${o}px)` *)
| PadH (q : Q)                     (* `0 ${q}px` *)
| CenterPct (q : Q)                (* `center ${q}%` *)
| Color (c : jstring)              (* a colour given by the user *)
| Keyword (k : string)             (* a constant of the component *)
| Align (a : TextAlignment)
| FadeTo (r g b : Z) (alpha : Q).  (* linear-gradient(to bottom,
                                      rgba(r,g,b,0), rgba(r,g,b,alpha)) *)

(** The region of the slide an element stands for, as the components name
    them in their comments and render functions. *)
Inductive region :=
| RBackground      (* "Background Image" *)
| ROverlay         (* "Color Overlay" *)
| RIllustration    (* the illustration image section *)
| RHeader          (* "Header: Profile" *)
| RText            (* text content *)
| RFooter.         (* "Footer" / "Pagination" *)

Inductive node :=
| El (tag : string) (role : option region) (cls : list string)
     (sty : list (string * css)) (attrs : list (string * jstring))
     (kids : list node)
| Txt (s : jstring)
| TxtN (n : Z).

(** [cond && <el/>] and [cond ? <a/> : <b/>] as lists of children. *)
Definition when {A} (c : bool) (l : list A) : list A :=
  if c then l else [].

(** The [crossOrigin] attribute spread on images:
    [url?.startsWith('data:') ? {} : { crossOrigin: 'anonymous' }]. *)
Definition crossOrigin (url : option jstring) : list (string * jstring) :=
  match url with
  | Some u => if startsWith (str "data:") u then []
              else [("crossOrigin"%string, str "anonymous")]
  | None => [("crossOrigin"%string, str "anonymous")]
  end.

(** [getFontFamily], the same in the three components. *)
Definition getFontFamily (style : FontStyle) : string :=
  match style with
  | SERIF => "'Playfair Display', Georgia, serif"
  | TECH => "'JetBrains Mono', 'Fira Code', monospace"
  | MODERN =>
      "system-ui, -apple-system, BlinkMacSystemFont, 'Segoe UI', Roboto, sans-serif"
  end%string.

(* ====================================================================== *)
(** ** Markdown: inline parts, line classification, title/body split *)
(* ====================================================================== *)

(** What [parseInline] does with one part of the split: the four tests on
    [startsWith]/[endsWith], in the order of the source, and the slice kept
    as content. The same text in the three components; each one then gives
    the element its own classes. *)
Inductive run :=
| Strong (s : jstring)
| Em (s : jstring)
| Strike (s : jstring)
| Mark (s : jstring)       (* `__x__`: underline or highlight *)
| Lit (s : jstring).

Definition classify_part (part : jstring) : run :=
  if startsWith (str "**") part && endsWith (str "**") part
  then Strong (slice part 2 (-2))
  else if startsWith (str "*") part && endsWith (str "*") part
  then Em (slice part 1 (-1))
  else if startsWith (str "~~") part && endsWith (str "~~") part
  then Strike (slice part 2 (-2))
  else if startsWith (str "__") part && endsWith (str "__") part
  then Mark (slice part 2 (-2))
  else Lit part.

(** [text.split(re).map(...)] up to the styling of the elements. *)
Definition inline_runs (text : jstring) : list run :=
  map classify_part (split_inline text).

(** What [renderMarkdown] decides for one line, with the text it hands to
    [parseInline]. The tests and their order are the same in the three
    components. *)
Inductive block :=
| BH1 (text : jstring)
| BH2 (text : jstring)
| BBullet (text : jstring)
| BNumbered (number : option jstring) (text : jstring)
| BSpacer
| BParagraph (text : jstring).

Definition classify_line (line : jstring) : block :=
  let trimmed := trim line in
  if startsWith (str "# ") line then BH1 (slice_from line 2)
  else if startsWith (str "## ") line then BH2 (slice_from line 3)
  else if startsWith (str "- ") trimmed then BBullet (slice_from line 2)
  else if test_numbered trimmed
  then BNumbered (match_digits trimmed) (strip_numbered trimmed)
  else if negb (truthy trimmed) then BSpacer
  else BParagraph line.

(** The test of [splitContentByHeaders] on one line. *)
Definition is_title_line (line : jstring) : bool :=
  let trimmed := trim line in
  startsWith (str "# ") trimmed || startsWith (str "## ") trimmed
  || negb (truthy trimmed).

(** The loop of [splitContentByHeaders]: [foundNonHeader] is the state. *)
Fixpoint split_loop (foundNonHeader : bool) (lines : list jstring)
  : list jstring * list jstring :=
  match lines with
  | [] => ([], [])
  | line :: rest =>
      if negb foundNonHeader && is_title_line line
      then let (t, b) := split_loop foundNonHeader rest in (line :: t, b)
      else let (t, b) := split_loop true rest in (t, line :: b)
  end.

Record TitleBody := { titleLines : jstring; bodyLines : jstring }.

(** [splitContentByHeaders] (TwitterSlide.tsx and LessonSlide.tsx hold the
    same function). *)
Definition splitContentByHeaders (content : jstring) : TitleBody :=
  let lines := split_on LF content in
  let (t, b) := split_loop false lines in
  {| titleLines := join LF t; bodyLines := join LF b |}.


Local Open Scope string_scope.
Local Open Scope list_scope.
Local Open Scope Q_scope.

(** An attribute that is left out when its value is [undefined]. *)
Definition opt_attr (k : string) (v : option jstring)
  : list (string * jstring) :=
  match v with Some x => [(k, x)] | None => [] end.

(** [listJustify] of [renderMarkdown]. *)
Definition listJustify (a : TextAlignment) : list string :=
  match a with
  | center => ["justify-center"]
  | right => ["justify-end"]
  | left => []
  end.

(** [`flex items-start ${textAlignment === 'left' ? 'ml-2' : ''} ${listJustify}`] *)
Definition listItemClasses (a : TextAlignment) : list string :=
  ["flex"; "items-start"]
  ++ match a with left => ["ml-2"] | _ => [] end
  ++ listJustify a.

Definition themed {A} (theme : Theme) (dark light : A) : A :=
  match theme with DARK => dark | LIGHT => light end.

(** The placeholder shown while an illustration has no URL yet; the icon
    and the caption are the same in TwitterSlide.tsx and LessonSlide.tsx. *)
Definition generatingIndicator : node :=
  El "div" None
     ["flex"; "flex-col"; "items-center"; "text-gray-500"; "animate-pulse";
      "scale-150"] [] []
     [ El "svg" None ["w-12"; "h-12"; "mb-4"; "opacity-50"] []
          [("fill", str "none"); ("viewBox", str "0 0 24 24");
           ("stroke", str "currentColor")]
          [ El "path" None [] []
               [("strokeLinecap", str "round");
                ("strokeLinejoin", str "round");
                ("strokeWidth", str "2");
                ("d", str "M4 16l4.586-4.586a2 2 0 012.828 0L16 16m-2-2l1.586-1.586a2 2 0 012.828 0L20 14m-6-6h.01M6 20h12a2 2 0 002-2V6a2 2 0 00-2-2H6a2 2 0 00-2 2v12a2 2 0 002 2z")]
               [] ];
       El "span" None ["text-lg"; "font-medium"] [] []
          [Txt (str "Generating...")] ].

Definition verifiedBadgeUrl : jstring :=
  str "https://upload.wikimedia.org/wikipedia/commons/thumb/e/e4/Twitter_Verified_Badge.svg/1200px-Twitter_Verified_Badge.svg.png".

(** [slide.showBackgroundImage && slide.backgroundImageUrl], as the
    condition it is used for. *)
Definition showBackground (s : Slide.t) : bool :=
  nullish (Slide.showBackgroundImage s) false
  && truthy_opt (Slide.backgroundImageUrl s).

(** The two full-bleed layers under the content, the same JSX in the three
    components. *)
Definition backgroundLayers (s : Slide.t) (bgOverlayColor : jstring)
  (bgOverlayOpacity : Q) : list node :=
  [ El "div" (Some RBackground) ["absolute"; "inset-0"; "z-0"] [] []
       [ El "img" None ["w-full"; "h-full"; "object-cover"] []
            (opt_attr "src" (Slide.backgroundImageUrl s)
             ++ [("alt", [])] ++ crossOrigin (Slide.backgroundImageUrl s))
            [] ];
    El "div" (Some ROverlay) ["absolute"; "inset-0"; "z-[1]"]
       [("backgroundColor", Color bgOverlayColor);
        ("opacity", Scalar (bgOverlayOpacity / 100))] [] [] ].

(* ====================================================================== *)
(** ** TwitterSlide.tsx: the feed-text template *)
(* ====================================================================== *)

Module Twitter.

Definition parseInline (text : jstring) (theme : Theme) : list node :=
  let boldColor := themed theme "text-white" "text-gray-900" in
  let italicColor := themed theme "text-gray-300" "text-gray-800" in
  let strikeColor := themed theme "text-gray-600" "text-gray-500" in
  map (fun part =>
         match classify_part part with
         | Strong s => El "strong" None ["font-bold"; boldColor] [] [] [Txt s]
         | Em s => El "em" None ["italic"; italicColor] [] [] [Txt s]
         | Strike s => El "s" None [strikeColor] [] [] [Txt s]
         | Mark s =>
             El "u" None ["decoration-4"; "underline-offset-4"] [] [] [Txt s]
         | Lit s => Txt s
         end)
      (split_inline text).

Section RenderMarkdown.
Variables (theme : Theme) (fontScale lineHeight paragraphGap : Q)
          (textColorOverride : option jstring)
          (textAlignment : TextAlignment).

Let hColor := or_str textColorOverride (str (themed theme "#FFFFFF" "#111827")).
Let textColor := or_str textColorOverride (str (themed theme "#E5E7EB" "#1F2937")).
Let bulletColor := or_str textColorOverride (str (themed theme "#6B7280" "#9CA3AF")).
Let numberColor := or_str textColorOverride (str (themed theme "#FFFFFF" "#111827")).
Let h1Size := 72 * fontScale.
Let h2Size := 60 * fontScale.
Let bodySize := 48 * fontScale.
Let bulletSize := 36 * fontScale.
Let paragraphSpacing := paragraphGap * 16.

Definition render_block (b : block) : node :=
  match b with
  | BH1 text =>
      El "h1" None ["font-extrabold"; "tracking-tight"]
         [("fontSize", Px h1Size); ("lineHeight", Scalar lineHeight);
          ("marginBottom", Px paragraphSpacing); ("color", Color hColor);
          ("textAlign", Align textAlignment)] []
         (parseInline text theme)
  | BH2 text =>
      El "h2" None ["font-bold"; "tracking-tight"]
         [("fontSize", Px h2Size); ("lineHeight", Scalar lineHeight);
          ("marginBottom", Px (paragraphSpacing * (3#4)));
          ("color", Color hColor); ("textAlign", Align textAlignment)] []
         (parseInline text theme)
  | BBullet text =>
      El "div" None (listItemClasses textAlignment)
         [("marginBottom", Px (paragraphSpacing * (1#2)))] []
         [ El "span" None ["mr-4"; "mt-1"]
              [("fontSize", Px bulletSize); ("color", Color bulletColor)] []
              [Txt [8226%N]];
           El "span" None []
              [("fontSize", Px bodySize); ("lineHeight", Scalar lineHeight);
               ("color", Color textColor)] []
              (parseInline text theme) ]
  | BNumbered number text =>
      El "div" None (listItemClasses textAlignment)
         [("marginBottom", Px (paragraphSpacing * (1#2)))] []
         [ El "span" None ["mr-4"; "font-bold"]
              [("fontSize", Px bodySize); ("color", Color numberColor)] []
              (match number with Some n => [Txt n] | None => [] end
               ++ [Txt (str ".")]);
           El "span" None []
              [("fontSize", Px bodySize); ("lineHeight", Scalar lineHeight);
               ("color", Color textColor)] []
              (parseInline text theme) ]
  | BSpacer =>
      El "div" None [] [("height", Px (paragraphSpacing * (1#2)))] [] []
  | BParagraph text =>
      El "p" None []
         [("fontSize", Px bodySize); ("lineHeight", Scalar lineHeight);
          ("marginBottom", Px paragraphSpacing); ("color", Color textColor);
          ("textAlign", Align textAlignment)] []
         (parseInline text theme)
  end.

Definition renderMarkdown (text : jstring) : list node :=
  map (fun line => render_block (classify_line line)) (split_on LF text).
End RenderMarkdown.

(** The component. Its values are given one definition each, in the order of
    the source. *)
Section Component.
Variable p : Props.t.

Let slide := Props.slide p.
Let profile := Props.profile p.
Let theme := Props.theme p.
Let layoutSettings := Props.layoutSettings p.
Let headerScale := default_param (Props.headerScale p) 1.
Let forExport := default_param (Props.forExport p) false.
Let showVerifiedBadge := default_param (Props.showVerifiedBadge p) true.
Let fontStyle := default_param (Props.fontStyle p) MODERN.
Let fontScale := default_param (Props.fontScale p) 1.

(* DEFAULT LAYOUT SETTINGS *)
Definition defaultLayoutSettings : LayoutDefaults.t :=
  {| LayoutDefaults.contentPadding := 64;
     LayoutDefaults.imageCanvasOffset := 0;
     LayoutDefaults.imageMargin := 0;
     LayoutDefaults.textLineHeight := 3#2;
     LayoutDefaults.paragraphGap := 1 |}.

(* EFFECTIVE LAYOUT VALUES (per-slide override > global > default) *)
Definition effectiveContentPadding : Q :=
  nullish (Slide.contentPadding slide)
    (nullish (opt_chain layoutSettings LayoutSettings.contentPadding)
       (LayoutDefaults.contentPadding defaultLayoutSettings)).
Definition effectiveImageCanvasOffset : Q :=
  nullish (Slide.imageCanvasOffset slide)
    (nullish (opt_chain layoutSettings LayoutSettings.imageCanvasOffset)
       (LayoutDefaults.imageCanvasOffset defaultLayoutSettings)).
Definition effectiveImageMargin : Q :=
  nullish (Slide.imageMargin slide)
    (nullish (opt_chain layoutSettings LayoutSettings.imageMargin)
       (LayoutDefaults.imageMargin defaultLayoutSettings)).
Definition effectiveLineHeight : Q :=
  nullish (Slide.textLineHeight slide)
    (nullish (opt_chain layoutSettings LayoutSettings.textLineHeight)
       (LayoutDefaults.textLineHeight defaultLayoutSettings)).
Definition effectiveParagraphGap : Q :=
  nullish (Slide.paragraphGap slide)
    (nullish (opt_chain layoutSettings LayoutSettings.paragraphGap)
       (LayoutDefaults.paragraphGap defaultLayoutSettings)).
Definition effectiveTextAlignment : TextAlignment :=
  nullish (Slide.textAlignment slide)
    (nullish (opt_chain layoutSettings LayoutSettings.textAlignment) left).

(* LAYOUT CALCULATIONS *)
Definition imageScale : Q := or_num (Slide.imageScale slide) 50.
Definition textHeightPercent : Q :=
  if Slide.showImage slide then 100 - imageScale else 100.
Definition imageHeightPercent : Q :=
  if Slide.showImage slide then imageScale else 0.
Definition imageOffsetY : Q := if_defined (Slide.imageOffsetY slide) 50.

(* CONTENT LAYOUT (element ordering) *)
Definition contentLayout : jstring :=
  or_str (Slide.contentLayout slide) (str "default").

(* BACKGROUND IMAGE SETTINGS *)
Definition bgOverlayColor : jstring :=
  or_str (Slide.backgroundOverlayColor slide)
         (str (themed theme "#000000" "#FFFFFF")).
Definition bgOverlayOpacity : Q :=
  if_defined (Slide.backgroundOverlayOpacity slide) 50.
Definition bgTextColor : option jstring := Slide.backgroundTextColor slide.

Definition titleBody : TitleBody :=
  if jeqb contentLayout (str "image-after-title")
  then splitContentByHeaders (Slide.content slide)
  else {| titleLines := []; bodyLines := [] |}.

(* FONT SETTINGS *)
Definition effectiveFontStyle : FontStyle :=
  or_enum (Slide.fontStyle slide) fontStyle.
Definition effectiveFontScale : Q :=
  if_defined (Slide.fontScale slide) fontScale.
Definition fontFamily : string := getFontFamily effectiveFontStyle.

Let avatarSize := 130 * headerScale.
Let nameSize := 48 * headerScale.
Let handleSize := 32 * headerScale.
Let verifiedSize := 40 * headerScale.
Let gapSize := 24 * headerScale.
Let marginBottom := 40 * headerScale.

Let bgColor := str (themed theme "#000000" "#FFFFFF").
Let nameColor := themed theme "text-white" "text-gray-900".
Let handleColor := themed theme "text-gray-500" "text-gray-500".
Let borderColor := themed theme "border-gray-800" "border-gray-100".
Let imagePlaceholderBg := themed theme "bg-gray-900" "bg-gray-50".
Let imagePlaceholderBorder :=
  themed theme "border-gray-800" "border-gray-200".
Let footerBg := themed theme "bg-gray-900" "bg-gray-100".
Let footerText := themed theme "text-gray-400" "text-gray-500".

(** Renders the illustration image section; [null] is the empty list. *)
Definition renderImage : list node :=
  if negb (Slide.showImage slide) then []
  else
    let hasOffset := negb (Qeq_bool effectiveImageCanvasOffset 0) in
    let adjustedHeight :=
      if hasOffset
      then CalcPctPlusPx imageHeightPercent effectiveImageCanvasOffset
      else Pct imageHeightPercent in
    [ El "div" (Some RIllustration)
         ["w-full"; "pt-8"; "transition-all"; "duration-300";
          "ease-in-out"; "flex"; "flex-col"]
         ([("height", adjustedHeight)]
          ++ when (Qgt_bool effectiveImageMargin 0)
               [("padding", PadH effectiveImageMargin)]
          ++ when (Qgt_bool effectiveImageCanvasOffset 0)
               [("marginBottom", NegPx effectiveImageCanvasOffset)])
         []
         [ if truthy_opt (Slide.imageUrl slide)
           then
             El "div" None
                ["flex-1"; "w-full"; "rounded-3xl"; "overflow-hidden";
                 "border"; borderColor; "shadow-sm"]
                (when hasOffset
                   [("height", CalcFullMinusPx effectiveImageCanvasOffset)]
                 ++ [("flexShrink", Scalar 0)])
                []
                [ El "img" None ["w-full"; "h-full"; "object-cover"]
                     [("objectPosition", CenterPct imageOffsetY)]
                     (opt_attr "src" (Slide.imageUrl slide)
                      ++ [("alt", str "Slide visual")]
                      ++ crossOrigin (Slide.imageUrl slide))
                     [] ]
           else
             El "div" None
                ["flex-1"; "w-full"; "rounded-3xl"; imagePlaceholderBg;
                 "flex"; "items-center"; "justify-center"; "border-4";
                 "border-dashed"; imagePlaceholderBorder] [] []
                [generatingIndicator] ] ].

Definition textColorOverride : option jstring :=
  if showBackground slide && truthy_opt bgTextColor then bgTextColor
  else None.

(** [renderMarkdown] with the effective values, as every call of the
    component passes them. *)
Definition markdown (text : jstring) : list node :=
  renderMarkdown theme effectiveFontScale effectiveLineHeight
    effectiveParagraphGap textColorOverride effectiveTextAlignment text.

(** Renders text content *)
Definition renderTextContent (content : jstring) (heightPercent : Q)
  : node :=
  El "div" (Some RText)
     ["w-full"; "overflow-hidden"; "flex"; "flex-col"; "transition-all";
      "duration-300"; "ease-in-out"]
     [("height", Pct heightPercent)] []
     [ El "div" None
          ["flex-1"; "w-full"; "overflow-y-auto"; "pr-4"; "no-scrollbar"]
          [] [] (markdown content) ].

Definition renderMainContent : node :=
  if jeqb contentLayout (str "image-first") then
    (* Image -> All Content *)
    El "div" None ["flex-1"; "flex"; "flex-col"; "min-h-0"] [] []
       (renderImage
        ++ [renderTextContent (Slide.content slide)
              (if Slide.showImage slide then textHeightPercent else 100)])
  else if jeqb contentLayout (str "image-after-title") then
    (* Title(H1/H2) -> Image -> Body *)
    let imageTextSpacing := nullish (Slide.imageTextSpacing slide) 16 in
    El "div" None ["flex-1"; "flex"; "flex-col"; "min-h-0"] [] []
       (when (truthy (trim (titleLines titleBody)))
          [ El "div" (Some RText)
               ["flex-shrink-0"; "w-full"; "overflow-hidden"] [] []
               [ El "div" None
                    ["w-full"; "overflow-y-auto"; "pr-4"; "no-scrollbar"]
                    [] [] (markdown (titleLines titleBody)) ] ]
        ++ renderImage
        ++ when (truthy (trim (bodyLines titleBody)))
             [ El "div" (Some RText)
                  ["flex-1"; "w-full"; "overflow-hidden"; "flex";
                   "flex-col"; "min-h-0"]
                  [("paddingTop", Px imageTextSpacing)] []
                  [ El "div" None
                       ["flex-1"; "w-full"; "overflow-y-auto"; "pr-4";
                        "no-scrollbar"]
                       [] [] (markdown (bodyLines titleBody)) ] ])
  else
    (* case 'default' and default: All Content -> Image *)
    El "div" None ["flex-1"; "flex"; "flex-col"; "min-h-0"] [] []
       (renderTextContent (Slide.content slide) textHeightPercent
        :: renderImage).

Definition header : node :=
  El "div" (Some RHeader) ["flex-none"; "flex"; "items-center"]
     [("marginBottom", Px marginBottom); ("gap", Px gapSize)] []
     [ El "img" None ["rounded-full"; "object-cover"; "border-2"; borderColor]
          [("width", Px avatarSize); ("height", Px avatarSize)]
          ([("src", or_str (Some (Profile.avatarUrl profile))
                      (str "https://picsum.photos/200"));
            ("alt", Profile.name profile)]
           ++ crossOrigin (Some (Profile.avatarUrl profile)))
          [];
       El "div" None ["flex"; "flex-col"; "justify-center"]
          [("flex", Keyword "1 1 0%"); ("minWidth", Scalar 0)] []
          [ El "div" None ["flex"; "items-baseline"]
               [("gap", Px (gapSize * (1#2)))] []
               (El "span" None ["font-bold"; nameColor; "truncate"]
                   [("fontSize", Px nameSize); ("lineHeight", Scalar (3#2));
                    ("paddingBottom", Px 4)] []
                   [Txt (Profile.name profile)]
                :: when showVerifiedBadge
                     [ El "img" None ["object-contain"; "flex-shrink-0"]
                          [("width", Px verifiedSize);
                           ("height", Px verifiedSize);
                           ("alignSelf", Keyword "center");
                           ("marginTop", NegPx (verifiedSize * (1#10)))]
                          [("src", verifiedBadgeUrl);
                           ("alt", str "Verified");
                           ("crossOrigin", str "anonymous")]
                          [] ]);
            El "div" None [handleColor]
               [("fontSize", Px handleSize); ("lineHeight", Scalar (13#10));
                ("marginTop", Px (4 * headerScale))] []
               [Txt (str "@"); Txt (Profile.handle profile)] ] ].

Definition footer : node :=
  El "div" (Some RFooter) ["flex-none"; "pt-8"; "flex"; "justify-end"] [] []
     [ El "div" None
          ["text-2xl"; footerBg; footerText; "px-6"; "py-2"; "rounded-full";
           "font-bold"; "tracking-wide"]
          (match Props.accentColor p with
           | Some c => when (truthy c) [("color", Color c)]
           | None => []
           end) []
          [TxtN (Props.index p + 1); Txt (str " / "); TxtN (Props.total p)] ].

Definition TwitterSlide : node :=
  El "div" None
     (["w-full"; "h-full"; "flex"; "flex-col"; "relative";
       "overflow-hidden"; "shadow-sm"]
      ++ (if forExport then [] else ["transition-colors"; "duration-300"]))
     [("backgroundColor", Color bgColor);
      ("fontFamily", Keyword fontFamily)] []
     (when (showBackground slide)
        (backgroundLayers slide bgOverlayColor bgOverlayOpacity)
      ++ [ El "div" None
              ["relative"; "z-10"; "w-full"; "h-full"; "flex"; "flex-col";
               "overflow-hidden"]
              [("padding", Px effectiveContentPadding)] []
              ([header; renderMainContent]
               ++ when (Props.showSlideNumbers p) [footer]) ]).
End Component.

End Twitter.

(** [Math.max(0, x)] *)
Definition max0 (x : Q) : Q := if Qle_bool 0 x then x else 0.

(** The centred footer: branding pill and pagination. StorytellerSlide.tsx
    and LessonSlide.tsx hold the same JSX up to the way the text colour is
    given (a class in the first, an inline colour in the second), which is
    what [nameCls], [nameSty], [pageCls] and [pageSty] stand for. *)
Section CenteredFooter.
Variables (p : Props.t) (paddingBottom avatarSize nameSize verifiedSize : Q)
          (nameCls pageCls : list string)
          (nameSty pageSty : list (string * css)).

Let profile := Props.profile p.

Definition centeredFooter : node :=
  El "div" (Some RFooter)
     ["absolute"; "bottom-0"; "left-0"; "right-0"; "z-20"; "flex";
      "flex-col"; "items-center"; "justify-end"]
     [("paddingBottom", Px paddingBottom)] []
     (El "div" None
         ["mb-4"; "bg-black/5"; "backdrop-blur-sm"; "px-4"; "py-2";
          "rounded-full"; "border"; "border-white/10"; "flex";
          "items-center"; "gap-3"] [] []
         [ El "img" None
              ["rounded-full"; "object-cover"; "border"; "border-white/20"]
              [("width", Px avatarSize); ("height", Px avatarSize)]
              ([("src", or_str (Some (Profile.avatarUrl profile))
                          (str "https://picsum.photos/200"));
                ("alt", Profile.name profile)]
               ++ crossOrigin (Some (Profile.avatarUrl profile)))
              [];
           El "span" None ["flex"; "items-center"; "gap-1"] [] []
              (El "span" None ("font-bold" :: nameCls)
                  ([("fontSize", Px nameSize)] ++ nameSty) []
                  [Txt (str "@"); Txt (Profile.handle profile)]
               :: when (default_param (Props.showVerifiedBadge p) true)
                    [ El "img" None []
                         [("width", Px verifiedSize);
                          ("height", Px verifiedSize)]
                         [("src", verifiedBadgeUrl);
                          ("alt", str "Verified");
                          ("crossOrigin", str "anonymous")]
                         [] ]) ]
      :: when (Props.showSlideNumbers p)
           [ El "div" None
                (["text-xl"; "font-bold"; "tracking-widest"; "opacity-60"]
                 ++ pageCls)
                pageSty []
                [TxtN (Props.index p + 1); Txt [32%N; 8226%N; 32%N];
                 TxtN (Props.total p)] ]).
End CenteredFooter.

(** The inline parser of StorytellerSlide.tsx and LessonSlide.tsx: the two
    differ in the weight class of [strong] only. *)
Definition parseInlineAccent (strongWeight : string) (text : jstring)
  (theme : Theme) (accentColor : option jstring) : list node :=
  let boldColor := themed theme "text-white" "text-black" in
  let italicColor := themed theme "text-gray-300" "text-gray-600" in
  let highlightStyle :=
    if truthy_opt accentColor
    then [("backgroundColor", Color (nullish accentColor [] ++ str "4D"))]
    else [("backgroundColor",
           Color (str (themed theme "rgba(255,255,255,0.1)"
                                    "rgba(0,0,0,0.1)")))] in
  map (fun part =>
         match classify_part part with
         | Strong s => El "strong" None [strongWeight; boldColor] [] [] [Txt s]
         | Em s => El "em" None ["italic"; italicColor] [] [] [Txt s]
         | Strike s => El "s" None ["opacity-70"] [] [] [Txt s]
         | Mark s =>
             El "span" None ["px-1"; "rounded"; "font-semibold"]
                highlightStyle [] [Txt s]
         | Lit s => Txt s
         end)
      (split_inline text).

(** The element [renderMarkdown] of StorytellerSlide.tsx and of
    LessonSlide.tsx returns for a line: the same sizes and elements; the
    classes of [h1], the inline parser and the colours are the component's
    own. *)
Section RenderMarkdownAccent.
Variables (h1Cls : list string)
          (parseInline : jstring -> Theme -> option jstring -> list node)
          (textColor headingColor bulletFallback : jstring)
          (theme : Theme) (accentColor : option jstring)
          (fontScale lineHeight paragraphGap : Q)
          (textAlignment : TextAlignment).

Let bulletStyle : list (string * css) :=
  if truthy_opt accentColor then [("color", Color (nullish accentColor []))]
  else [("color", Color bulletFallback)].
Let h1Size := 72 * fontScale.
Let h2Size := 48 * fontScale.
Let bodySize := 36 * fontScale.
Let paragraphSpacing := paragraphGap * 16.

Definition render_block_accent (b : block) : node :=
  match b with
  | BH1 text =>
      El "h1" None h1Cls
         [("fontSize", Px h1Size); ("lineHeight", Scalar lineHeight);
          ("marginBottom", Px paragraphSpacing);
          ("color", Color headingColor);
          ("textAlign", Align textAlignment)] []
         (parseInline text theme accentColor)
  | BH2 text =>
      El "h2" None ["font-extrabold"; "tracking-tight"]
         [("fontSize", Px h2Size); ("lineHeight", Scalar lineHeight);
          ("marginBottom", Px (paragraphSpacing * (3#4)));
          ("color", Color headingColor);
          ("textAlign", Align textAlignment)] []
         (parseInline text theme accentColor)
  | BBullet text =>
      El "div" None (listItemClasses textAlignment)
         [("marginBottom", Px (paragraphSpacing * (1#2)))] []
         [ El "span" None ["mr-4"; "mt-1"]
              (bulletStyle ++ [("fontSize", Px bodySize)]) []
              [Txt [9679%N]];
           El "span" None ["font-medium"]
              [("fontSize", Px bodySize); ("lineHeight", Scalar lineHeight);
               ("color", Color textColor)] []
              (parseInline text theme accentColor) ]
  | BNumbered number text =>
      El "div" None (listItemClasses textAlignment)
         [("marginBottom", Px (paragraphSpacing * (1#2)))] []
         [ El "span" None ["mr-4"; "font-black"]
              (bulletStyle ++ [("fontSize", Px bodySize)]) []
              (match number with Some n => [Txt n] | None => [] end
               ++ [Txt (str ".")]);
           El "span" None ["font-medium"]
              [("fontSize", Px bodySize); ("lineHeight", Scalar lineHeight);
               ("color", Color textColor)] []
              (parseInline text theme accentColor) ]
  | BSpacer =>
      El "div" None [] [("height", Px (paragraphSpacing * (1#2)))] [] []
  | BParagraph text =>
      El "p" None ["font-medium"]
         [("fontSize", Px bodySize); ("lineHeight", Scalar lineHeight);
          ("marginBottom", Px paragraphSpacing); ("color", Color textColor);
          ("textAlign", Align textAlignment)] []
         (parseInline text theme accentColor)
  end.

End RenderMarkdownAccent.

(* ====================================================================== *)
(** ** StorytellerSlide.tsx: the cinematic-image template *)
(* ====================================================================== *)

Module Storyteller.

Definition parseInline := parseInlineAccent "font-black".

Definition render_block (theme : Theme) (accentColor : option jstring)
  (fontScale lineHeight paragraphGap : Q)
  (textColorOverride : option jstring) (textAlignment : TextAlignment)
  : block -> node :=
  render_block_accent
    ["font-black"; "tracking-tighter"; "uppercase"; "drop-shadow-sm"]
    parseInline
    (or_str textColorOverride (str (themed theme "#F3F4F6" "#111827")))
    (or_str textColorOverride (str (themed theme "#FFFFFF" "#000000")))
    (or_str textColorOverride (str (themed theme "#cbd5e1" "#475569")))
    theme accentColor fontScale lineHeight paragraphGap textAlignment.

Definition renderMarkdown (theme : Theme) (accentColor : option jstring)
  (fontScale lineHeight paragraphGap : Q)
  (textColorOverride : option jstring) (textAlignment : TextAlignment)
  (text : jstring) : list node :=
  map (fun line =>
         render_block theme accentColor fontScale lineHeight paragraphGap
           textColorOverride textAlignment (classify_line line))
      (split_on LF text).

Section Component.
Variable p : Props.t.

Let slide := Props.slide p.
Let theme := Props.theme p.
Let layoutSettings := Props.layoutSettings p.
Let headerScale := default_param (Props.headerScale p) 1.
Let forExport := default_param (Props.forExport p) false.
Let fontStyle := default_param (Props.fontStyle p) MODERN.
Let fontScale := default_param (Props.fontScale p) 1.

(* DEFAULT LAYOUT SETTINGS *)
Definition defaultLayoutSettings : LayoutDefaults.t :=
  {| LayoutDefaults.contentPadding := 64;
     LayoutDefaults.imageCanvasOffset := 0;
     LayoutDefaults.imageMargin := 0;
     LayoutDefaults.textLineHeight := 3#2;
     LayoutDefaults.paragraphGap := 1 |}.

(* EFFECTIVE LAYOUT VALUES (per-slide override > global > default) *)
Definition effectiveContentPadding : Q :=
  nullish (Slide.contentPadding slide)
    (nullish (opt_chain layoutSettings LayoutSettings.contentPadding)
       (LayoutDefaults.contentPadding defaultLayoutSettings)).
Definition effectiveLineHeight : Q :=
  nullish (Slide.textLineHeight slide)
    (nullish (opt_chain layoutSettings LayoutSettings.textLineHeight)
       (LayoutDefaults.textLineHeight defaultLayoutSettings)).
Definition effectiveParagraphGap : Q :=
  nullish (Slide.paragraphGap slide)
    (nullish (opt_chain layoutSettings LayoutSettings.paragraphGap)
       (LayoutDefaults.paragraphGap defaultLayoutSettings)).
Definition effectiveTextAlignment : TextAlignment :=
  nullish (Slide.textAlignment slide)
    (nullish (opt_chain layoutSettings LayoutSettings.textAlignment) left).

(* LAYOUT MODE DETERMINATION *)
Definition isOverlay : bool :=
  Slide.showImage slide
  && negb (match Slide.overlayImage slide with
           | Some false => true
           | _ => false
           end).
Definition showSplit : bool := Slide.showImage slide && negb isOverlay.

Definition imageScale : Q := or_num (Slide.imageScale slide) 45.
Definition imageOffsetY : Q := if_defined (Slide.imageOffsetY slide) 50.
Definition gradientHeight : Q := if_defined (Slide.gradientHeight slide) 60.

(* BACKGROUND IMAGE SETTINGS *)
Definition bgOverlayColor : jstring :=
  or_str (Slide.backgroundOverlayColor slide)
         (str (themed theme "#000000" "#FFFFFF")).
Definition bgOverlayOpacity : Q :=
  if_defined (Slide.backgroundOverlayOpacity slide) 50.
Definition bgTextColor : option jstring := Slide.backgroundTextColor slide.
Definition textColorOverride : option jstring :=
  if showBackground slide && truthy_opt bgTextColor then bgTextColor
  else None.

(* FONT SETTINGS *)
Definition effectiveFontStyle : FontStyle :=
  or_enum (Slide.fontStyle slide) fontStyle.
Definition effectiveFontScale : Q :=
  if_defined (Slide.fontScale slide) fontScale.
Definition fontFamily : string := getFontFamily effectiveFontStyle.

Definition splitTextHeight : Q := 100 - imageScale.
Definition splitImageHeight : Q := imageScale.
Definition overlayImageHeight : Q := imageScale.
Definition overlayTextPaddingTop : Q := max0 (overlayImageHeight - 12).

Let bgColor := str (themed theme "#0a0a0a" "#ffffff").
Let avatarSize := 64 * headerScale.
Let nameSize := 32 * headerScale.
Let verifiedSize := 28 * headerScale.
Let marginBottom := 60 * headerScale.

Let hasImageUrl := truthy_opt (Slide.imageUrl slide).
Let imgTransition : list string :=
  if forExport then [] else ["transition-all"; "duration-300"].

(* OVERLAY MODE (Cinematic Fade) - Illustration Image *)
Definition overlayIllustration : list node :=
  when (isOverlay && hasImageUrl)
    [ El "div" (Some RIllustration)
         ["absolute"; "top-0"; "left-0"; "right-0"; "z-[2]"]
         [("height", Pct overlayImageHeight);
          ("overflow", Keyword "hidden")] []
         [ El "img" None (["w-full"; "h-full"] ++ imgTransition)
              [("objectFit", Keyword "cover");
               ("objectPosition", CenterPct imageOffsetY)]
              (opt_attr "src" (Slide.imageUrl slide)
               ++ [("alt", str "Background")]
               ++ crossOrigin (Slide.imageUrl slide))
              [];
           El "div" None ["absolute"; "bottom-0"; "left-0"; "right-0"]
              [("height", Pct gradientHeight);
               ("background",
                themed theme (FadeTo 10 10 10 1) (FadeTo 255 255 255 1));
               ("pointerEvents", Keyword "none")]
              [("data-gradient-overlay", str "true")]
              [] ] ].

(* SPLIT MODE (Hard Line) - Illustration Image *)
Definition splitIllustration : list node :=
  when (showSplit && hasImageUrl)
    [ El "div" (Some RIllustration) ["w-full"; "relative"; "z-[2]"]
         [("height", Pct splitImageHeight);
          ("overflow", Keyword "hidden"); ("flexShrink", Scalar 0)] []
         [ El "img" None (["w-full"; "h-full"] ++ imgTransition)
              [("objectFit", Keyword "cover");
               ("objectPosition", CenterPct imageOffsetY);
               ("display", Keyword "block")]
              (opt_attr "src" (Slide.imageUrl slide)
               ++ [("alt", str "Split View")]
               ++ crossOrigin (Slide.imageUrl slide))
              [] ] ].

(* TEXT CONTENT *)
Definition textContent : node :=
  El "div" (Some RText)
     (["flex-1"; "flex"; "flex-col"; "min-h-0"; "z-10"; "pb-32";
       "relative"]
      ++ (if showSplit then [] else ["justify-center"]))
     [("height", if showSplit then Pct splitTextHeight else Pct 100);
      ("paddingTop",
       if isOverlay && hasImageUrl then Pct overlayTextPaddingTop
       else if showSplit then Keyword "3rem" else Keyword "0");
      ("paddingLeft", Px effectiveContentPadding);
      ("paddingRight", Px effectiveContentPadding)] []
     [ El "div" None
          ["w-full"; "h-full"; "overflow-hidden"; "flex"; "flex-col"]
          [] []
          [ El "div" None
               (["flex-1"; "w-full"; "overflow-y-auto"; "pr-4";
                 "no-scrollbar"]
                (* `${!showSplit && '...'}` prints false as a word *)
                ++ (if negb showSplit
                    then ["flex"; "flex-col"; "justify-center"]
                    else ["false"]))
               [] []
               (renderMarkdown theme (Props.accentColor p)
                  effectiveFontScale effectiveLineHeight
                  effectiveParagraphGap textColorOverride
                  effectiveTextAlignment (Slide.content slide)) ] ].

(* FOOTER: Branding + Pagination *)
Definition footer : node :=
  centeredFooter p marginBottom avatarSize nameSize verifiedSize
    [themed theme "text-white" "text-black"]
    [themed theme "text-white" "text-black"] [] [].

Definition StorytellerSlide : node :=
  El "div" None
     (["w-full"; "h-full"; "flex"; "flex-col"; "relative";
       "overflow-hidden"]
      ++ (if forExport then [] else ["transition-colors"; "duration-300"]))
     [("backgroundColor", Color bgColor);
      ("fontFamily", Keyword fontFamily)] []
     (when (showBackground slide)
        (backgroundLayers slide bgOverlayColor bgOverlayOpacity)
      ++ overlayIllustration
      ++ splitIllustration
      ++ [textContent; footer]).
End Component.

End Storyteller.

(* ====================================================================== *)
(** ** LessonSlide.tsx: the lesson template *)
(* ====================================================================== *)

Module Lesson.

Definition parseInline := parseInlineAccent "font-bold".

Definition render_block (theme : Theme) (accentColor : option jstring)
  (fontScale lineHeight paragraphGap : Q) (textAlignment : TextAlignment)
  : block -> node :=
  render_block_accent
    ["font-black"; "tracking-tighter"]
    parseInline
    (str (themed theme "#F3F4F6" "#111827"))
    (str (themed theme "#FFFFFF" "#000000"))
    (str (themed theme "#cbd5e1" "#475569"))
    theme accentColor fontScale lineHeight paragraphGap textAlignment.

Definition renderMarkdown (theme : Theme) (accentColor : option jstring)
  (fontScale lineHeight paragraphGap : Q) (textAlignment : TextAlignment)
  (text : jstring) : list node :=
  map (fun line =>
         render_block theme accentColor fontScale lineHeight paragraphGap
           textAlignment (classify_line line))
      (split_on LF text).

Section Component.
Variable p : Props.t.

Let slide := Props.slide p.
Let theme := Props.theme p.
Let layoutSettings := Props.layoutSettings p.
Let headerScale := default_param (Props.headerScale p) 1.
Let forExport := default_param (Props.forExport p) false.
Let fontStyle := default_param (Props.fontStyle p) MODERN.
Let fontScale := default_param (Props.fontScale p) 1.

(* DEFAULT LAYOUT SETTINGS *)
Definition defaultLayoutSettings : LayoutDefaults.t :=
  {| LayoutDefaults.contentPadding := 64;
     LayoutDefaults.imageCanvasOffset := 0;
     LayoutDefaults.imageMargin := 0;
     LayoutDefaults.textLineHeight := 3#2;
     LayoutDefaults.paragraphGap := 1 |}.

(* EFFECTIVE LAYOUT VALUES (per-slide override > global > default) *)
Definition effectiveContentPadding : Q :=
  nullish (Slide.contentPadding slide)
    (nullish (opt_chain layoutSettings LayoutSettings.contentPadding)
       (LayoutDefaults.contentPadding defaultLayoutSettings)).
Definition effectiveLineHeight : Q :=
  nullish (Slide.textLineHeight slide)
    (nullish (opt_chain layoutSettings LayoutSettings.textLineHeight)
       (LayoutDefaults.textLineHeight defaultLayoutSettings)).
Definition effectiveParagraphGap : Q :=
  nullish (Slide.paragraphGap slide)
    (nullish (opt_chain layoutSettings LayoutSettings.paragraphGap)
       (LayoutDefaults.paragraphGap defaultLayoutSettings)).
Definition effectiveTextAlignment : TextAlignment :=
  nullish (Slide.textAlignment slide)
    (nullish (opt_chain layoutSettings LayoutSettings.textAlignment) left).

(* FONT SETTINGS *)
Definition effectiveFontStyle : FontStyle :=
  or_enum (Slide.fontStyle slide) fontStyle.
Definition effectiveFontScale : Q :=
  if_defined (Slide.fontScale slide) fontScale.
Definition fontFamily : string := getFontFamily effectiveFontStyle.

(* IMAGE SETTINGS *)
Definition imageScale : Q := or_num (Slide.imageScale slide) 50.
Definition imageOffsetY : Q := if_defined (Slide.imageOffsetY slide) 50.
Definition gradientHeight : Q := if_defined (Slide.gradientHeight slide) 60.
Definition imageTextSpacing : Q := nullish (Slide.imageTextSpacing slide) 16.
Definition isOverlayMode : bool :=
  negb (match Slide.overlayImage slide with
        | Some false => true
        | _ => false
        end).
Definition gradientOpacity : Q :=
  match Slide.backgroundOverlayOpacity slide with
  | Some o => o / 100
  | None => 1
  end.

(* BACKGROUND IMAGE SETTINGS *)
Definition bgOverlayColor : jstring :=
  or_str (Slide.backgroundOverlayColor slide)
         (str (themed theme "#000000" "#FFFFFF")).
Definition bgOverlayOpacity : Q :=
  if_defined (Slide.backgroundOverlayOpacity slide) 50.
Definition bgTextColor : option jstring := Slide.backgroundTextColor slide.

(* THEME COLORS (pure black/white) *)
Let bgColor := str (themed theme "#000000" "#FFFFFF").
Definition textColor : jstring :=
  or_str bgTextColor (str (themed theme "#FFFFFF" "#000000")).

(* FOOTER SIZING *)
Let avatarSize := 64 * headerScale.
Let nameSize := 32 * headerScale.
Let verifiedSize := 28 * headerScale.
Let footerPaddingBottom := 60 * headerScale.

Definition isCover : bool := SlideType_eqb (Slide.type slide) COVER.
Definition showCoverImage : bool := isCover && showBackground slide.

Definition titleBody : TitleBody :=
  if negb isCover && Slide.showImage slide
  then splitContentByHeaders (Slide.content slide)
  else {| titleLines := []; bodyLines := [] |}.

Let imgTransition : list string :=
  if forExport then [] else ["transition-all"; "duration-300"].

(** [renderMarkdown] with the effective values, as every call of the
    component passes them. *)
Definition markdown (text : jstring) : list node :=
  renderMarkdown theme (Props.accentColor p) effectiveFontScale
    effectiveLineHeight effectiveParagraphGap effectiveTextAlignment text.

Definition renderFooter : node :=
  centeredFooter p footerPaddingBottom avatarSize nameSize verifiedSize
    [] [] [("color", Color textColor)] [("color", Color textColor)].

Definition coverImg : node :=
  El "img" None (["w-full"; "h-full"] ++ imgTransition)
     [("objectFit", Keyword "cover");
      ("objectPosition", CenterPct imageOffsetY)]
     (opt_attr "src" (Slide.backgroundImageUrl slide)
      ++ [("alt", [])] ++ crossOrigin (Slide.backgroundImageUrl slide))
     [].

Definition renderCoverSlide : list node :=
  if isOverlayMode then
    (* OVERLAY MODE: Full background image with gradient fade *)
    when showCoverImage
      [ El "div" (Some RBackground) ["absolute"; "inset-0"; "z-[2]"] [] []
           [ coverImg;
             El "div" None ["absolute"; "left-0"; "right-0"]
                [("top", Pct imageScale); ("height", Pct gradientHeight);
                 ("background",
                  themed theme (FadeTo 0 0 0 gradientOpacity)
                               (FadeTo 255 255 255 gradientOpacity));
                 ("pointerEvents", Keyword "none")]
                [("data-gradient-overlay", str "true")]
                [] ] ]
    ++ [ El "div" (Some RText)
            ["absolute"; "inset-0"; "flex"; "flex-col"; "items-center";
             "z-10"]
            [("paddingLeft", Px effectiveContentPadding);
             ("paddingRight", Px effectiveContentPadding);
             ("paddingBottom", Px (footerPaddingBottom + 80));
             ("top", Pct imageOffsetY)] []
            [ El "div" None ["flex-1"; "flex"; "items-end"; "w-full"] [] []
                 [ El "div" None ["w-full"] [] []
                      (markdown (Slide.content slide)) ] ];
         renderFooter ]
  else
    (* SPLIT MODE: Image on top half, text below (no overlay) *)
    when showCoverImage
      [ El "div" (Some RBackground)
           ["flex-shrink-0"; "w-full"; "overflow-hidden"]
           [("height", Pct imageScale)] []
           [coverImg] ]
    ++ [ El "div" (Some RText)
            ["flex-1"; "flex"; "flex-col"; "items-center";
             "justify-center"; "min-h-0"; "pb-32"]
            [("paddingLeft", Px effectiveContentPadding);
             ("paddingRight", Px effectiveContentPadding);
             ("paddingTop", Px (effectiveContentPadding / 2))] []
            [ El "div" None ["w-full"] [] []
                 (markdown (Slide.content slide)) ];
         renderFooter ].

Definition renderContentWithImage : list node :=
  [ El "div" None
       ["flex-1"; "flex"; "flex-col"; "min-h-0"; "pb-32"; "relative";
        "z-10"]
       [("paddingLeft", Px effectiveContentPadding);
        ("paddingRight", Px effectiveContentPadding);
        ("paddingTop", Px effectiveContentPadding)] []
       (when (truthy (trim (titleLines titleBody)))
          [ El "div" (Some RText) ["flex-shrink-0"; "w-full"; "mb-4"] [] []
               (markdown (titleLines titleBody)) ]
        ++ [ El "div" (Some RIllustration) ["w-full"; "flex-shrink-0"]
                [("height", Pct imageScale)] []
                [ if truthy_opt (Slide.imageUrl slide)
                  then
                    El "div" None
                       ["w-full"; "h-full"; "rounded-2xl";
                        "overflow-hidden"] [] []
                       [ El "img" None
                            (["w-full"; "h-full"; "object-cover"]
                             ++ imgTransition)
                            [("objectPosition", CenterPct imageOffsetY)]
                            (opt_attr "src" (Slide.imageUrl slide)
                             ++ [("alt", str "Slide visual")]
                             ++ crossOrigin (Slide.imageUrl slide))
                            [] ]
                  else
                    El "div" None
                       (["w-full"; "h-full"; "rounded-2xl"; "flex";
                         "items-center"; "justify-center"; "border-4";
                         "border-dashed"]
                        ++ themed theme ["bg-gray-900"; "border-gray-800"]
                                        ["bg-gray-50"; "border-gray-200"])
                       [] []
                       [generatingIndicator] ] ]
        ++ when (truthy (trim (bodyLines titleBody)))
             [ El "div" (Some RText)
                  ["flex-1"; "w-full"; "overflow-y-auto"; "pr-4";
                   "no-scrollbar"]
                  [("paddingTop", Px imageTextSpacing)] []
                  (markdown (bodyLines titleBody)) ]);
    renderFooter ].

Definition renderContentTextOnly : list node :=
  [ El "div" None
       ["flex-1"; "flex"; "flex-col"; "min-h-0"; "pb-32"; "relative";
        "z-10"]
       [("paddingLeft", Px effectiveContentPadding);
        ("paddingRight", Px effectiveContentPadding);
        ("paddingTop", Px effectiveContentPadding)] []
       [ El "div" (Some RText)
            ["flex-1"; "w-full"; "overflow-y-auto"; "pr-4"; "no-scrollbar"]
            [] [] (markdown (Slide.content slide)) ];
    renderFooter ].

Definition LessonSlide : node :=
  El "div" None
     (["w-full"; "h-full"; "flex"; "flex-col"; "relative";
       "overflow-hidden"]
      ++ (if forExport then [] else ["transition-colors"; "duration-300"]))
     [("backgroundColor", Color bgColor);
      ("fontFamily", Keyword fontFamily)] []
     (when (negb isCover && showBackground slide)
        (backgroundLayers slide bgOverlayColor bgOverlayOpacity)
      ++ (if isCover then renderCoverSlide
          else if Slide.showImage slide then renderContentWithImage
          else renderContentTextOnly)).
End Component.

End Lesson.

(* ====================================================================== *)
(** ** The composer *)
(* ====================================================================== *)

Inductive Template := FeedText | Cinematic | LessonTemplate.

(** Modelled from the spec: the choice of the component by the carousel
    style is made by the editor (components/Workspace.tsx), which is not
    among the sources; [compose] is the spec's
    [compose(template, ...)], one strategy per template. *)
Definition compose (t : Template) (p : Props.t) : node :=
  match t with
  | FeedText => Twitter.TwitterSlide p
  | Cinematic => Storyteller.StorytellerSlide p
  | LessonTemplate => Lesson.LessonSlide p
  end.

(* ====================================================================== *)
(** ** Observations on the visual tree *)
(* ====================================================================== *)

(** The two spans of a list item: the children of the label (bullet or
    number) and the children of the item text. *)
Definition list_item_view (n : node) : option (list node * list node) :=
  match n with
  | El _ _ _ _ _ [El _ _ _ _ _ label; El _ _ _ _ _ item] => Some (label, item)
  | _ => None
  end.

Definition tag_of (n : node) : option string :=
  match n with El t _ _ _ _ _ => Some t | _ => None end.

(** The z-index a Tailwind class sets, for the classes the components
    use. *)
Definition z_of_class (c : string) : option Z :=
  if String.eqb c "z-0" then Some 0%Z
  else if String.eqb c "z-[1]" then Some 1%Z
  else if String.eqb c "z-[2]" then Some 2%Z
  else if String.eqb c "z-10" then Some 10%Z
  else if String.eqb c "z-20" then Some 20%Z
  else None.

Fixpoint z_of_classes (cls : list string) : option Z :=
  match cls with
  | [] => None
  | c :: cls' =>
      match z_of_class c with
      | Some z => Some z
      | None => z_of_classes cls'
      end
  end.

Definition layer := (region * option Z)%type.

(** The regions of a slide in document order, each with the z-index it is
    painted at. An element with a z-index makes a stacking context: what
    it contains is painted at its level, so the outermost z-index on the
    path decides ([ctx]); [None] is [z-index: auto]. The traversal stops
    at an element that stands for a region. *)
Fixpoint layers_in (ctx : option Z) (n : node) : list layer :=
  match n with
  | El _ role cls _ _ kids =>
      let z := match ctx with
               | Some _ => ctx
               | None => z_of_classes cls
               end in
      match role with
      | Some r => [(r, z)]
      | None => flat_map (layers_in z) kids
      end
  | _ => []
  end.

Definition layers (root : node) : list layer := layers_in None root.

(** Painting order of two levels: content in the flow without a z-index
    is painted before the elements with a z-index (none of which is
    negative in the components), and these by increasing z-index. *)
Definition z_leb (a b : option Z) : bool :=
  match a, b with
  | None, _ => true
  | Some _, None => false
  | Some x, Some y => (x <=? y)%Z
  end.

(** Stable insertion: equal levels keep the document order. *)
Fixpoint paint_insert (x : layer) (l : list layer) : list layer :=
  match l with
  | [] => [x]
  | y :: l' =>
      if z_leb (snd x) (snd y) then x :: l
      else y :: paint_insert x l'
  end.

(** The layers from the bottom to the top. *)
Definition paint_order (l : list layer) : list layer :=
  fold_right paint_insert [] l.

(** The place of a region in the chain of the z-order invariant; the
    profile header of the feed-text template is not part of the chain. *)
Definition chain_rank (r : region) : option nat :=
  match r with
  | RBackground => Some 0%nat
  | ROverlay => Some 1%nat
  | RIllustration => Some 2%nat
  | RText => Some 3%nat
  | RFooter => Some 4%nat
  | RHeader => None
  end.

(** The same chain with the illustration, the text and the header taken
    together as the content of the slide. *)
Definition coarse_rank (r : region) : option nat :=
  match r with
  | RBackground => Some 0%nat
  | ROverlay => Some 1%nat
  | RIllustration | RText | RHeader => Some 2%nat
  | RFooter => Some 3%nat
  end.

Fixpoint ranks (rank : region -> option nat) (l : list layer) : list nat :=
  match l with
  | [] => []
  | (r, _) :: l' =>
      match rank r with
      | Some k => k :: ranks rank l'
      | None => ranks rank l'
      end
  end.

Fixpoint ascending (l : list nat) : bool :=
  match l with
  | a :: ((b :: _) as l') => (a <=? b)%nat && ascending l'
  | _ => true
  end.

Definition is_footer (x : layer) : bool :=
  match fst x with RFooter => true | _ => false end.

(** The footer, when there is one, is the last layer painted. *)
Definition footer_topmost (l : list layer) : bool :=
  if existsb is_footer l
  then match rev l with x :: _ => is_footer x | [] => false end
  else true.

(** The z-order invariant on a tree: through the layers from the bottom to
    the top, background, overlay, illustration, text and footer come in
    this order, and the footer is the topmost layer. *)
Definition z_ordered (root : node) : bool :=
  let l := paint_order (layers root) in
  ascending (ranks chain_rank l) && footer_topmost l.

(** The invariant with illustration and text not told apart. *)
Definition z_ordered_coarse (root : node) : bool :=
  let l := paint_order (layers root) in
  ascending (ranks coarse_rank l) && footer_topmost l.

(** Does the text [t] occur in the tree? *)
Fixpoint has_text (t : jstring) (n : node) : bool :=
  match n with
  | El _ _ _ _ _ kids => existsb (has_text t) kids
  | Txt s => jeqb s t
  | TxtN _ => false
  end.

Fixpoint style_lookup (k : string) (sty : list (string * css)) : option css :=
  match sty with
  | [] => None
  | (k', v) :: sty' => if String.eqb k k' then Some v else style_lookup k sty'
  end.

Definition height_of (n : node) : option css :=
  match n with
  | El _ _ _ sty _ _ => style_lookup "height" sty
  | _ => None
  end.

(** The elements that stand for a region [keep] selects, in document
    order; as for [layers], the traversal stops at a region. *)
Fixpoint regions_in (keep : region -> bool) (n : node) : list node :=
  match n with
  | El _ role _ _ _ kids =>
      match role with
      | Some r => if keep r then [n] else []
      | None => flat_map (regions_in keep) kids
      end
  | _ => []
  end.

Definition is_illustration (r : region) : bool :=
  match r with RIllustration => true | _ => false end.


(** The height the style of an element gives it, in pixels, in a
    containing block [parent] pixels high: a percentage is taken of the
    containing block and [calc] adds its two terms. [None] is an element
    whose height is left to its content. The padding the classes add is
    not counted. *)
Definition used_height (parent : Q) (n : node) : option Q :=
  match height_of n with
  | Some (Px q) => Some q
  | Some (Pct q) => Some (q * parent / 100)
  | Some (CalcPctPlusPx q o) => Some (q * parent / 100 + o)
  | Some (CalcFullMinusPx o) => Some (parent - o)
  | _ => None
  end.

(** A region that takes no room: its height comes out as zero, or below
    zero, which a browser takes for zero. *)
Definition collapsed (parent : Q) (n : node) : bool :=
  match used_height parent n with
  | Some h => Qle_bool h 0
  | None => false
  end.

(** Is there an illustration region that shows the generating indicator
    and has not collapsed, in a containing block [parent] pixels high? *)
Definition shows_placeholder (parent : Q) (root : node) : bool :=
  existsb (fun n => has_text (str "Generating...") n
                    && negb (collapsed parent n))
          (regions_in is_illustration root).

Definition has_illustration (root : node) : bool :=
  existsb (fun x => match fst x with RIllustration => true | _ => false end)
          (layers root).

(** The classes that only animate the change from one rendering to the
    next: Tailwind's [transition-*], [duration-*] and [ease-*]. *)
Definition is_transition_class (c : string) : bool :=
  String.prefix "transition-" c || String.prefix "duration-" c
  || String.prefix "ease-" c.

(** The tree without its transition classes: tags, regions, the other
    classes, inline styles, attributes and children are kept. *)
Fixpoint strip_transitions (n : node) : node :=
  match n with
  | El t r cls sty at_ kids =>
      El t r (filter (fun c => negb (is_transition_class c)) cls) sty at_
         (map strip_transitions kids)
  | _ => n
  end.


(** The three-tier cascade in the words of the specification: the
    per-slide override if present, else the global setting if present,
    else the hard default. *)
Definition spec_resolve {A} (perSlide global : option A) (hard : A) : A :=
  match perSlide with
  | Some v => v
  | None => match global with Some g => g | None => hard end
  end.

(** A plain slide and plain props, to state examples on. *)
Definition plainSlide (content : jstring) : Slide.t :=
  Slide.mk (str "slide-1") CONTENT content None false None None None None
    None None None None None None None None None None None None None None
    None None None.

Definition plainProfile : Profile.t :=
  Profile.mk (str "Jane Doe") (str "janedoe") [].

Definition plainProps (s : Slide.t) : Props.t :=
  Props.mk s plainProfile 0 3 true None LIGHT None None None None None None.

(** The claim on indented heading markers as it is stated: every line made
    of leading white space, a heading marker and a remainder is a paragraph
    for the block renderer and a title line for the splitter. *)
Definition indented_marker_claim : Prop :=
  forall ws marker rest : jstring,
    ws <> [] -> forallb is_ws ws = true ->
    marker = str "# " \/ marker = str "## " ->
    classify_line (ws ++ marker ++ rest) = BParagraph (ws ++ marker ++ rest)
    /\ is_title_line (ws ++ marker ++ rest) = true.

(** Has the string a code unit that is not white space? *)
Definition visible (s : jstring) : bool :=
  existsb (fun c => negb (is_ws c)) s.

(** The global layout setting [f], when the settings are given and have
    it. *)
Definition globalSetting {A} (p : Props.t)
  (f : LayoutSettings.t -> option A) : option A :=
  opt_chain (Props.layoutSettings p) f.

(** A per-slide number that counts as given for [a || d]: not 0. *)
Definition nonzero (o : option Q) : option Q :=
  match o with
  | Some q => if Qeq_bool q 0 then None else Some q
  | None => None
  end.

(** The override cascade as the claim states it, on the feed-text template:
    every listed parameter, the image scale among them, resolves to the
    per-slide value when present, else the global one when present, else
    the hard default. No global image scale exists. *)
Definition cascade_claim : Prop :=
  forall p : Props.t,
    let s := Props.slide p in
    Twitter.effectiveContentPadding p
    = spec_resolve (Slide.contentPadding s)
        (globalSetting p LayoutSettings.contentPadding) 64
    /\ Twitter.effectiveLineHeight p
       = spec_resolve (Slide.textLineHeight s)
           (globalSetting p LayoutSettings.textLineHeight) (3#2)
    /\ Twitter.effectiveParagraphGap p
       = spec_resolve (Slide.paragraphGap s)
           (globalSetting p LayoutSettings.paragraphGap) 1
    /\ Twitter.effectiveTextAlignment p
       = spec_resolve (Slide.textAlignment s)
           (globalSetting p LayoutSettings.textAlignment) left
    /\ Twitter.effectiveFontStyle p
       = spec_resolve (Slide.fontStyle s) (Props.fontStyle p) MODERN
    /\ Twitter.effectiveFontScale p
       = spec_resolve (Slide.fontScale s) (Props.fontScale p) 1
    /\ Twitter.imageScale p = spec_resolve (Slide.imageScale s) None 50.

(** Props for the examples of the cascade: a plain slide with the given
    content padding and image scale, under global settings with the given
    content padding. *)
Definition paddedSlide (padding scale : option Q) : Slide.t :=
  Slide.mk (str "slide-1") CONTENT (str "# Title") None false None scale
    None None None None None None None None None None padding None None
    None None None None None None.

Definition paddedProps (slidePadding globalPadding scale : option Q)
  : Props.t :=
  Props.mk (paddedSlide slidePadding scale) plainProfile 0 3 true None LIGHT
    None None None None None
    (match globalPadding with
     | Some g =>
         Some (LayoutSettings.mk (Some g) (Some 0) (Some 0) (Some (3#2))
                 (Some 1) (Some left))
     | None => None
     end).

(** The z-order invariant as the claim states it: in every template and
    for every slide, the layers from the bottom to the top go from the
    background to the overlay, the illustration, the text and the
    footer. *)
Definition z_order_claim : Prop :=
  forall (t : Template) (p : Props.t), z_ordered (compose t p) = true.

(** The level of each region in the cinematic-image template. *)
Definition cinematic_level (r : region) : option Z :=
  match r with
  | RBackground => Some 0%Z
  | ROverlay => Some 1%Z
  | RIllustration => Some 2%Z
  | RText => Some 10%Z
  | RFooter => Some 20%Z
  | RHeader => None
  end.

(** A slide that shows an illustration whose image is not there yet. *)
Definition pendingImageSlide (type : SlideType) : Slide.t :=
  Slide.mk (str "slide-1") type (str "# Title" ++ [LF] ++ str "Body") None
    true None None None None None None None None None None None None None
    None None None None None None None None.

(** The layers of the content region of the feed-text template, in
    document order: they depend on the content layout. *)
Definition feedTextContentLayers (p : Props.t) : list layer :=
  let s := Props.slide p in
  let image := when (Slide.showImage s) [(RIllustration, Some 10%Z)] in
  if jeqb (Twitter.contentLayout p) (str "image-first")
  then image ++ [(RText, Some 10%Z)]
  else if jeqb (Twitter.contentLayout p) (str "image-after-title")
  then when (truthy (trim (titleLines (Twitter.titleBody p))))
         [(RText, Some 10%Z)]
       ++ image
       ++ when (truthy (trim (bodyLines (Twitter.titleBody p))))
            [(RText, Some 10%Z)]
  else (RText, Some 10%Z) :: image.

Definition feedTextLayers (p : Props.t) : list layer :=
  when (showBackground (Props.slide p))
    [(RBackground, Some 0%Z); (ROverlay, Some 1%Z)]
  ++ [(RHeader, Some 10%Z)]
  ++ feedTextContentLayers p
  ++ when (Props.showSlideNumbers p) [(RFooter, Some 10%Z)].

Definition cinematicLayers (p : Props.t) : list layer :=
  let s := Props.slide p in
  when (showBackground s) [(RBackground, Some 0%Z); (ROverlay, Some 1%Z)]
  ++ when (Storyteller.isOverlay p && truthy_opt (Slide.imageUrl s))
       [(RIllustration, Some 2%Z)]
  ++ when (Storyteller.showSplit p && truthy_opt (Slide.imageUrl s))
       [(RIllustration, Some 2%Z)]
  ++ [(RText, Some 10%Z); (RFooter, Some 20%Z)].

Definition lessonLayers (p : Props.t) : list layer :=
  let s := Props.slide p in
  if Lesson.isCover p then
    if Lesson.isOverlayMode p
    then when (Lesson.showCoverImage p) [(RBackground, Some 2%Z)]
         ++ [(RText, Some 10%Z); (RFooter, Some 20%Z)]
    else when (Lesson.showCoverImage p) [(RBackground, None)]
         ++ [(RText, None); (RFooter, Some 20%Z)]
  else
    when (showBackground s) [(RBackground, Some 0%Z); (ROverlay, Some 1%Z)]
    ++ (if Slide.showImage s
        then when (truthy (trim (titleLines (Lesson.titleBody p))))
               [(RText, Some 10%Z)]
             ++ [(RIllustration, Some 10%Z)]
             ++ when (truthy (trim (bodyLines (Lesson.titleBody p))))
                  [(RText, Some 10%Z)]
        else [(RText, Some 10%Z)])
    ++ [(RFooter, Some 20%Z)].

Definition level_eqb (a b : option Z) : bool :=
  match a, b with
  | Some x, Some y => (x =? y)%Z
  | None, None => true
  | _, _ => false
  end.

(** The layer sits at the level its region has in the cinematic-image
    template. *)
Definition own_level (x : layer) : bool :=
  level_eqb (snd x) (cinematic_level (fst x)).

(** The placeholder scenario as the claim states it: in every template, a
    slide that shows an image and has no image URL gets an illustration
    region with the generating indicator, which has not collapsed. *)
Definition placeholder_claim : Prop :=
  forall (t : Template) (p : Props.t) (parent : Q),
    0 < parent ->
    Slide.showImage (Props.slide p) = true ->
    Slide.imageUrl (Props.slide p) = None ->
    shows_placeholder parent (compose t p) = true.


(* ====================================================================== *)
(** ** More observations on the markdown dialect *)
(* ====================================================================== *)

(** The code units the four delimiters are made of: [*], [~] and [_]. *)
Definition is_delimiter (c : char) : bool :=
  ((c =? 42) || (c =? 126) || (c =? 95))%N.

(** A text without any delimiter code unit. *)
Definition plain_text (s : jstring) : bool :=
  forallb (fun c => negb (is_delimiter c)) s.

(** The source text a run stands for: its content between its
    delimiters. *)
Definition restore (r : run) : jstring :=
  match r with
  | Strong s => str "**" ++ s ++ str "**"
  | Em s => str "*" ++ s ++ str "*"
  | Strike s => str "~~" ++ s ++ str "~~"
  | Mark s => str "__" ++ s ++ str "__"
  | Lit s => s
  end.

Definition is_literal (r : run) : bool :=
  match r with Lit _ => true | _ => false end.

Fixpoint count_line_feeds (s : jstring) : nat :=
  match s with
  | [] => 0%nat
  | c :: s' => if char_eqb c LF then S (count_line_feeds s')
               else count_line_feeds s'
  end.

(** The lines [splitContentByHeaders] puts in the title and in the body,
    before it joins them. *)
Definition splitLines (content : jstring) : list jstring * list jstring :=
  split_loop false (split_on LF content).

(** Setting the properties of a slide that describe its illustration. *)
Definition with_illustration (imageUrl : option jstring)
  (imageScale : option Q) (overlayImage : option bool)
  (imageOffsetY gradientHeight imageCanvasOffset imageMargin : option Q)
  (s : Slide.t) : Slide.t :=
  Slide.mk (Slide.id s) (Slide.type s) (Slide.content s) imageUrl
    (Slide.showImage s) (Slide.imagePrompt s) imageScale
    overlayImage imageOffsetY gradientHeight
    (Slide.fontStyle s) (Slide.fontScale s) (Slide.contentLayout s)
    (Slide.showBackgroundImage s) (Slide.backgroundImageUrl s)
    (Slide.backgroundOverlayColor s) (Slide.backgroundOverlayOpacity s)
    (Slide.contentPadding s) imageCanvasOffset
    imageMargin (Slide.textLineHeight s) (Slide.paragraphGap s)
    (Slide.backgroundTextColor s) (Slide.theme s) (Slide.imageTextSpacing s)
    (Slide.textAlignment s).

(** Setting the properties of a slide that style its background image. *)
Definition with_backgroundStyle (overlayColor : option jstring)
  (overlayOpacity : option Q) (textColor : option jstring) (s : Slide.t)
  : Slide.t :=
  Slide.mk (Slide.id s) (Slide.type s) (Slide.content s) (Slide.imageUrl s)
    (Slide.showImage s) (Slide.imagePrompt s) (Slide.imageScale s)
    (Slide.overlayImage s) (Slide.imageOffsetY s) (Slide.gradientHeight s)
    (Slide.fontStyle s) (Slide.fontScale s) (Slide.contentLayout s)
    (Slide.showBackgroundImage s) (Slide.backgroundImageUrl s)
    overlayColor overlayOpacity
    (Slide.contentPadding s) (Slide.imageCanvasOffset s)
    (Slide.imageMargin s) (Slide.textLineHeight s) (Slide.paragraphGap s)
    textColor (Slide.theme s) (Slide.imageTextSpacing s)
    (Slide.textAlignment s).

(* ====================================================================== *)
(** ** services/instagramService.ts *)
(* ====================================================================== *)

Module Instagram.

(** A matcher of a piece of a regular expression: what it matched at the
    head of the text and what is left, or [None]. A piece takes the
    matcher of what follows it, so that a failure further on makes the
    piece try its next alternative, as the backtracking of the engine
    does. *)
Definition matcher := jstring -> option (jstring * jstring).

(** Literal text. *)
Definition lit (p : jstring) (k : matcher) : matcher :=
  fun s =>
    if startsWith p s then
      match k (skipn (List.length p) s) with
      | Some (m, r) => Some (p ++ m, r)
      | None => None
      end
    else None.

(** [(?:g)?]: greedy, the group is tried first. *)
Definition optional (g : matcher -> matcher) (k : matcher) : matcher :=
  fun s => orelse (g k s) (k s).

(** [[a-zA-Z0-9_-]] *)
Definition is_id_char (c : char) : bool :=
  (((97 <=? c) && (c <=? 122)) || ((65 <=? c) && (c <=? 90))
   || ((48 <=? c) && (c <=? 57)) || (c =? 95) || (c =? 45))%N.

Fixpoint span_id (s : jstring) : jstring * jstring :=
  match s with
  | c :: s' =>
      if is_id_char c then let (i, r) := span_id s' in (c :: i, r)
      else ([], s)
  | [] => ([], [])
  end.

(** [[a-zA-Z0-9_-]+] at the end of the expression: the longest run. *)
Definition id_run : matcher :=
  fun s =>
    match span_id s with
    | ([], _) => None
    | (i, r) => Some (i, r)
    end.

(** [(?:p|reel|reels)\/[a-zA-Z0-9_-]+] *)
Definition path : matcher :=
  fun s =>
    orelse (lit (str "p") (lit (str "/") id_run) s)
      (orelse (lit (str "reel") (lit (str "/") id_run) s)
         (lit (str "reels") (lit (str "/") id_run) s)).

(** [https?:\/\/] *)
Definition scheme (k : matcher) : matcher :=
  lit (str "http") (optional (lit (str "s")) (lit (str "://") k)).

(** [INSTAGRAM_URL_REGEX] matched at the head of the text:
    [(?:https?:\/\/)?(?:www\.)?instagram\.com\/(?:p|reel|reels)\/[a-zA-Z0-9_-]+] *)
Definition url_at : matcher :=
  optional scheme (optional (lit (str "www.")) (lit (str "instagram.com/") path)).

(** [text.match(re)] with the global flag: the matches from left to right,
    the search resuming after each match ([skip] counts the code units of
    the match still to pass) and moving one code unit on where nothing
    matches. *)
Fixpoint scan (skip : nat) (s : jstring) : list jstring :=
  match s with
  | [] => []
  | _ :: s' =>
      match skip with
      | S k => scan k s'
      | O =>
          match url_at s with
          | Some (m, _) => m :: scan (List.length m - 1) s'
          | None => scan 0 s'
          end
      end
  end.

(** [extractInstagramUrls]: [matches || []], no match being [null]. *)
Definition extractInstagramUrls (text : jstring) : list jstring :=
  scan 0 text.

(** [normalizeInstagramUrl] *)
Definition normalizeInstagramUrl (url : jstring) : jstring :=
  if negb (startsWith (str "http") url) then str "https://" ++ url
  else url.

(** [localStorage]: the stored strings by key. *)
Definition Storage := list (jstring * jstring).

Fixpoint getItem (k : jstring) (st : Storage) : option jstring :=
  match st with
  | [] => None
  | (k', v) :: st' => if jeqb k' k then Some v else getItem k st'
  end.

Definition setItem (k v : jstring) (st : Storage) : Storage :=
  (k, v) :: filter (fun e => negb (jeqb (fst e) k)) st.

Definition APIFY_KEY_STORAGE : jstring := str "apify_api_key".

Definition setApifyApiKey (key : jstring) (st : Storage) : Storage :=
  setItem APIFY_KEY_STORAGE key st.

Definition getApifyApiKey (st : Storage) : jstring :=
  or_str (getItem APIFY_KEY_STORAGE st) [].

Definition hasApifyApiKey (st : Storage) : bool :=
  truthy (getApifyApiKey st).

Definition getApifyApiKeyMasked (st : Storage) : jstring :=
  let key := getApifyApiKey st in
  if negb (truthy key) then []
  else if (List.length key <=? 12)%nat then str "****"
  else slice key 0 8 ++ str "..." ++ slice_from key (-4).

(** [InstagramPostData]; [type] is kept as the string it is at run
    time. *)
Record ChildPost := { alt : jstring; displayUrl : jstring }.

Record InstagramPostData := {
  type : jstring;
  caption : jstring;
  images : list jstring;
  videoUrl : option jstring;
  ownerUsername : jstring;
  ownerFullName : jstring;
  childPosts : option (list ChildPost)
}.

(** A non-negative integer in a template literal. *)
Definition decimal (n : nat) : jstring :=
  str (NilEmpty.string_of_uint (Nat.to_uint n)).

(** The [forEach] over the slides with alt text: [i] is the index. *)
Fixpoint slideLines (i : nat) (posts : list ChildPost) : jstring :=
  match posts with
  | [] => []
  | post :: rest =>
      str "Slide " ++ decimal (i + 1) ++ str ": " ++ alt post ++ [LF]
      ++ slideLines (S i) rest
  end.

(** [formatInstagramContentForAI] *)
Definition formatInstagramContentForAI (data : InstagramPostData) : jstring :=
  let content :=
    str "Instagram " ++ type data ++ str " by @" ++ ownerUsername data in
  let content :=
    if truthy (ownerFullName data)
    then content ++ str " (" ++ ownerFullName data ++ str ")"
    else content in
  let content := content ++ str ":" ++ [LF; LF] in
  let content :=
    if truthy (caption data)
    then content ++ str "Caption:" ++ [LF] ++ caption data ++ [LF; LF]
    else content in
  match childPosts data with
  | Some ((_ :: _) as posts) =>
      let slidesWithAlt := filter (fun post => truthy (alt post)) posts in
      if (0 <? List.length slidesWithAlt)%nat
      then content ++ str "Slide contents (text from images):" ++ [LF]
           ++ slideLines 0 slidesWithAlt
      else content
  | _ => content
  end.

Definition with_childPosts (posts : option (list ChildPost))
  (data : InstagramPostData) : InstagramPostData :=
  {| type := type data; caption := caption data; images := images data;
     videoUrl := videoUrl data; ownerUsername := ownerUsername data;
     ownerFullName := ownerFullName data; childPosts := posts |}.

(** *** [scrapeInstagramPost]

    The function is a sequence of requests; what the network answers is
    given by a [Network], so that the function is its result for these
    answers. A rejected promise or a [throw] is a [Thrown] value with the
    [message] of the error, which may be missing. The delay between two
    polls is not part of the model. *)
Inductive thrown := Thrown (message : option jstring).

Definition io (A : Type) : Type := (thrown + A)%type.

(** [throw new Error(msg)] *)
Definition throwError {A} (msg : jstring) : io A := inl (Thrown (Some msg)).

(** [runData.data]: the fields the function reads. *)
Record RunData := {
  run_id : option jstring;
  run_status : option jstring;
  defaultDatasetId : option jstring
}.

(** The response to the request that starts the run; [run_json] is
    [await runResponse.json()], the [data] field of which may be
    missing. *)
Record RunResponse := {
  ok : bool;
  status : nat;
  run_json : io (option RunData)
}.

(** An item of the dataset, every field of which may be missing. *)
Record RawPost := {
  raw_type : option jstring;
  raw_caption : option jstring;
  raw_images : option (list jstring);
  raw_videoUrl : option jstring;
  raw_ownerUsername : option jstring;
  raw_ownerFullName : option jstring;
  raw_childPosts : option (list ChildPost)
}.

(** The answers of the network: to the start of the run (token, URL), to
    the poll number [k] of the run (token, run id, [k]; the status of
    [statusData.data?.status]) and to the request of the items (token,
    dataset id; [None] for a falsy body). *)
Record Network := {
  start_run : jstring -> jstring -> io RunResponse;
  run_state : jstring -> jstring -> nat -> io (option jstring);
  dataset_items : jstring -> option jstring -> io (option (list RawPost))
}.

(** [s.includes(needle)] *)
Fixpoint includes (needle s : jstring) : bool :=
  startsWith needle s
  || match s with
     | [] => false
     | _ :: s' => includes needle s'
     end.

Definition status_is (name : jstring) (s : option jstring) : bool :=
  match s with Some x => jeqb x name | None => false end.

Definition maxAttempts : nat := 60.

(** The polling loop: [fuel] is [maxAttempts - attempts]. *)
Fixpoint poll (net : Network) (token runId : jstring) (fuel attempts : nat)
  (st : option jstring) : io (option jstring) :=
  match fuel with
  | O => inr st
  | S fuel' =>
      if status_is (str "SUCCEEDED") st || status_is (str "FAILED") st
      then inr st
      else match run_state net token runId attempts with
           | inl e => inl e
           | inr st' => poll net token runId fuel' (S attempts) st'
           end
  end.

(** The object returned for the first item. *)
Definition postData (post : RawPost) : InstagramPostData :=
  {| type := or_str (raw_type post) (str "Image");
     caption := or_str (raw_caption post) [];
     images := nullish (raw_images post) [];
     videoUrl := raw_videoUrl post;
     ownerUsername := or_str (raw_ownerUsername post) (str "unknown");
     ownerFullName := or_str (raw_ownerFullName post) [];
     childPosts := raw_childPosts post |}.

(** The body of the [try]. *)
Definition attempt (net : Network) (token url : jstring)
  : io InstagramPostData :=
  let normalizedUrl := normalizeInstagramUrl url in
  (* Step 1: Start the actor run *)
  match start_run net token normalizedUrl with
  | inl e => inl e
  | inr runResponse =>
      if negb (ok runResponse) then
        if (status runResponse =? 401)%nat
        then throwError
               (str "Invalid Apify API key. Please check your token.")
        else if (status runResponse =? 429)%nat
        then throwError
               (str "Apify rate limit reached. Please try again later.")
        else throwError
               (str "Apify API error: " ++ decimal (status runResponse))
      else
        match run_json runResponse with
        | inl e => inl e
        | inr runData =>
            let runId := or_str (opt_chain runData run_id) [] in
            if negb (truthy runId)
            then throwError (str "Failed to start Apify actor run")
            else
              (* Step 2: Wait for the run to complete (poll status) *)
              match poll net token runId maxAttempts 0
                      (opt_chain runData run_status) with
              | inl e => inl e
              | inr st =>
                  if status_is (str "FAILED") st
                  then throwError
                         (str "Instagram scraping failed. The post may be private or unavailable.")
                  else if negb (status_is (str "SUCCEEDED") st)
                  then throwError
                         (str "Instagram scraping timed out. Please try again.")
                  else
                    (* Step 3: Fetch results from the dataset *)
                    match dataset_items net token
                            (opt_chain runData defaultDatasetId) with
                    | inl e => inl e
                    | inr (Some (post :: _)) => inr (postData post)
                    | inr _ =>
                        throwError
                          (str "No Instagram data found. The post may be private or unavailable.")
                    end
              end
        end
  end.

(** The [catch]: the two errors about the key and the rate limit are
    thrown again as they are, every other one is wrapped. *)
Definition rethrow (e : thrown) : thrown :=
  match e with
  | Thrown message =>
      let has needle :=
        match message with
        | Some m => includes needle m
        | None => false
        end in
      if has (str "Invalid Apify") || has (str "rate limit") then e
      else Thrown (Some (str "Failed to scrape Instagram: "
                         ++ nullish message (str "undefined")))
  end.

Definition scrapeInstagramPost (net : Network) (st : Storage)
  (url : jstring) (apiToken : option jstring) : io InstagramPostData :=
  let token := or_str apiToken (getApifyApiKey st) in
  if negb (truthy token)
  then throwError (str "Apify API key is required for Instagram scraping")
  else match attempt net token url with
       | inl e => inl (rethrow e)
       | inr data => inr data
       end.

(** Two networks that answer alike up to the last poll the function can
    make. *)
Definition same_answers (a b : Network) : Prop :=
  (forall token url, start_run a token url = start_run b token url)
  /\ (forall token runId k,
         (k < maxAttempts)%nat ->
         run_state a token runId k = run_state b token runId k)
  /\ (forall token ds, dataset_items a token ds = dataset_items b token ds).

(** A network whose run never ends and one whose run succeeds at
    once. *)
Definition runningForever : Network :=
  {| start_run := fun _ _ =>
       inr {| ok := true; status := 200;
              run_json := inr (Some {| run_id := Some (str "run1");
                                       run_status := Some (str "RUNNING");
                                       defaultDatasetId := Some (str "ds1") |}) |};
     run_state := fun _ _ _ => inr (Some (str "RUNNING"));
     dataset_items := fun _ _ => inr None |}.

Definition emptyPost : RawPost :=
  {| raw_type := None; raw_caption := None; raw_images := None;
     raw_videoUrl := None; raw_ownerUsername := None;
     raw_ownerFullName := None; raw_childPosts := None |}.

Definition succeedingAtOnce : Network :=
  {| start_run := fun _ _ =>
       inr {| ok := true; status := 200;
              run_json := inr (Some {| run_id := Some (str "run1");
                                       run_status := Some (str "SUCCEEDED");
                                       defaultDatasetId := Some (str "ds1") |}) |};
     run_state := fun _ _ _ => inr (Some (str "SUCCEEDED"));
     dataset_items := fun _ _ => inr (Some [emptyPost]) |}.

(** A network whose run only succeeds after the last poll the function
    makes. *)
Definition succeedingLate : Network :=
  {| start_run := start_run runningForever;
     run_state := fun _ _ k =>
       if (k <? maxAttempts)%nat then inr (Some (str "RUNNING"))
       else inr (Some (str "SUCCEEDED"));
     dataset_items := dataset_items runningForever |}.

(** A status that ends the polling. *)
Definition terminal (s : option jstring) : bool :=
  status_is (str "SUCCEEDED") s || status_is (str "FAILED") s.

(** The shape of an Instagram post or reel URL: an optional scheme, an
    optional [www.], the host, the kind of the post and its code. *)
Definition url_shape (u : jstring) : Prop :=
  exists sch www kind code,
    u = sch ++ www ++ str "instagram.com/" ++ kind ++ str "/" ++ code
    /\ (sch = [] \/ sch = str "http://" \/ sch = str "https://")
    /\ (www = [] \/ www = str "www.")
    /\ (kind = str "p" \/ kind = str "reel" \/ kind = str "reels")
    /\ code <> [] /\ forallb is_id_char code = true.

End Instagram.

(* ====================================================================== *)
(** ** App.tsx: the onboarding wizard *)
(* ====================================================================== *)

Module App.

Inductive AppStep :=
| FORMAT_SELECT | ASPECT_RATIO_SELECT | PROFILE_INPUT | METHOD_SELECT
| AI_INPUT | WORKSPACE.

Inductive CarouselStyle := TWITTER | APPLE_NOTES | STORYTELLER | LESSON.

Inductive AspectRatio := R1_1 | R4_5 | R9_16 | R16_9.

(** The state of the component the wizard reads and writes, with the
    local storage the key functions use; [uploadedDocument] only tells
    whether a document is there. *)
Record State := {
  step : AppStep;
  style : CarouselStyle;
  aspectRatio : AspectRatio;
  aiTopic : jstring;
  uploadedDocument : bool;
  isGenerating : bool;
  apifyKeyInput : jstring;
  apifyKeyConfigured : bool;
  showApifyKeyInput : bool;
  apifyKeyDisplay : jstring;
  storage : Instagram.Storage
}.

(** The state after the first rendering and its mount effect, which reads
    the stored key: the [useState] values, [apifyKeyConfigured] and
    [apifyKeyDisplay] apart. *)
Definition mounted (st : Instagram.Storage) : State :=
  {| step := FORMAT_SELECT; style := TWITTER; aspectRatio := R1_1;
     aiTopic := []; uploadedDocument := false; isGenerating := false;
     apifyKeyInput := [];
     apifyKeyConfigured := Instagram.hasApifyApiKey st;
     showApifyKeyInput := false;
     apifyKeyDisplay := Instagram.getApifyApiKeyMasked st;
     storage := st |}.

Definition setStep (x : AppStep) (s : State) : State :=
  {| step := x; style := style s; aspectRatio := aspectRatio s;
     aiTopic := aiTopic s; uploadedDocument := uploadedDocument s;
     isGenerating := isGenerating s; apifyKeyInput := apifyKeyInput s;
     apifyKeyConfigured := apifyKeyConfigured s;
     showApifyKeyInput := showApifyKeyInput s;
     apifyKeyDisplay := apifyKeyDisplay s; storage := storage s |}.

Definition setStyle (x : CarouselStyle) (s : State) : State :=
  {| step := step s; style := x; aspectRatio := aspectRatio s;
     aiTopic := aiTopic s; uploadedDocument := uploadedDocument s;
     isGenerating := isGenerating s; apifyKeyInput := apifyKeyInput s;
     apifyKeyConfigured := apifyKeyConfigured s;
     showApifyKeyInput := showApifyKeyInput s;
     apifyKeyDisplay := apifyKeyDisplay s; storage := storage s |}.

Definition setAspectRatio (x : AspectRatio) (s : State) : State :=
  {| step := step s; style := style s; aspectRatio := x;
     aiTopic := aiTopic s; uploadedDocument := uploadedDocument s;
     isGenerating := isGenerating s; apifyKeyInput := apifyKeyInput s;
     apifyKeyConfigured := apifyKeyConfigured s;
     showApifyKeyInput := showApifyKeyInput s;
     apifyKeyDisplay := apifyKeyDisplay s; storage := storage s |}.

Definition setAiTopic (x : jstring) (s : State) : State :=
  {| step := step s; style := style s; aspectRatio := aspectRatio s;
     aiTopic := x; uploadedDocument := uploadedDocument s;
     isGenerating := isGenerating s; apifyKeyInput := apifyKeyInput s;
     apifyKeyConfigured := apifyKeyConfigured s;
     showApifyKeyInput := showApifyKeyInput s;
     apifyKeyDisplay := apifyKeyDisplay s; storage := storage s |}.

Definition setUploadedDocument (x : bool) (s : State) : State :=
  {| step := step s; style := style s; aspectRatio := aspectRatio s;
     aiTopic := aiTopic s; uploadedDocument := x;
     isGenerating := isGenerating s; apifyKeyInput := apifyKeyInput s;
     apifyKeyConfigured := apifyKeyConfigured s;
     showApifyKeyInput := showApifyKeyInput s;
     apifyKeyDisplay := apifyKeyDisplay s; storage := storage s |}.

Definition setIsGenerating (x : bool) (s : State) : State :=
  {| step := step s; style := style s; aspectRatio := aspectRatio s;
     aiTopic := aiTopic s; uploadedDocument := uploadedDocument s;
     isGenerating := x; apifyKeyInput := apifyKeyInput s;
     apifyKeyConfigured := apifyKeyConfigured s;
     showApifyKeyInput := showApifyKeyInput s;
     apifyKeyDisplay := apifyKeyDisplay s; storage := storage s |}.

Definition setApifyKeyInput (x : jstring) (s : State) : State :=
  {| step := step s; style := style s; aspectRatio := aspectRatio s;
     aiTopic := aiTopic s; uploadedDocument := uploadedDocument s;
     isGenerating := isGenerating s; apifyKeyInput := x;
     apifyKeyConfigured := apifyKeyConfigured s;
     showApifyKeyInput := showApifyKeyInput s;
     apifyKeyDisplay := apifyKeyDisplay s; storage := storage s |}.

Definition setShowApifyKeyInput (x : bool) (s : State) : State :=
  {| step := step s; style := style s; aspectRatio := aspectRatio s;
     aiTopic := aiTopic s; uploadedDocument := uploadedDocument s;
     isGenerating := isGenerating s; apifyKeyInput := apifyKeyInput s;
     apifyKeyConfigured := apifyKeyConfigured s;
     showApifyKeyInput := x;
     apifyKeyDisplay := apifyKeyDisplay s; storage := storage s |}.

(** [handleSaveApifyKey] *)
Definition handleSaveApifyKey (s : State) : State :=
  if truthy (trim (apifyKeyInput s)) then
    let st' := Instagram.setApifyApiKey (trim (apifyKeyInput s)) (storage s) in
    {| step := step s; style := style s; aspectRatio := aspectRatio s;
       aiTopic := aiTopic s; uploadedDocument := uploadedDocument s;
       isGenerating := isGenerating s;
       apifyKeyInput := [];
       apifyKeyConfigured := true;
       showApifyKeyInput := false;
       apifyKeyDisplay := Instagram.getApifyApiKeyMasked st';
       storage := st' |}
  else s.

(** [handleFormatSelect] *)
Definition handleFormatSelect (selectedStyle : CarouselStyle) (s : State)
  : State :=
  match selectedStyle with
  | TWITTER | STORYTELLER | LESSON =>
      setStep ASPECT_RATIO_SELECT (setStyle selectedStyle s)
  | APPLE_NOTES => s            (* alert("Coming soon!") *)
  end.

(** [handleAspectRatioSelect] *)
Definition handleAspectRatioSelect (ratio : AspectRatio) (s : State)
  : State :=
  setStep PROFILE_INPUT (setAspectRatio ratio s).

(** [handleProfileSubmit] *)
Definition handleProfileSubmit (s : State) : State :=
  setStep METHOD_SELECT s.

(** [handleManualCreate]; the slides are not part of the state kept
    here. *)
Definition handleManualCreate (s : State) : State := setStep WORKSPACE s.

(** [handleAiGenerate] up to its [await]: the guard and
    [setIsGenerating(true)]. *)
Definition handleAiGenerate (s : State) : State :=
  if negb (truthy (trim (aiTopic s))) && negb (uploadedDocument s) then s
  else setIsGenerating true s.

(** [handleAiGenerate] after its [await]: on success the slides are set,
    the document is cleared and the workspace is shown; [finally] the
    flag is reset. *)
Definition generationSettled (succeeded : bool) (s : State) : State :=
  setIsGenerating false
    (if succeeded then setStep WORKSPACE (setUploadedDocument false s)
     else s).

(** What the user, or the pending generation, can do. *)
Inductive Event :=
| ToggleApifyKeyForm
| TypeApifyKey (text : jstring)
| SaveApifyKey                       (* the Save button or the Enter key *)
| ClickFormat (selectedStyle : CarouselStyle)
| ClickRatio (ratio : AspectRatio)
| SubmitProfile
| ClickAiMagic
| ClickManualCreation
| TypeTopic (text : jstring)
| DocumentLoaded
| ClickRemoveDocument
| ClickGenerate
| GenerationSettled (succeeded : bool)
| ClickBack
| WorkspaceStyleChange (selectedStyle : CarouselStyle). (* [onStyleChange] *)

(** The reaction to an event. A control only exists on the screen that
    renders it: the style buttons and the key form on the first screen
    (the input and Save once the form is open), [Back] on every screen
    but the first (and not on the AI screen while a generation is
    pending), the generate button unless it is disabled. An event whose
    control is not on the screen changes nothing. The component is taken
    to be rendered again between two events. The workspace is given
    [onBack] and [onStyleChange], which it may call with any style; the
    slides and the editor theme it can also change are not part of the
    state kept here. *)
Definition react (e : Event) (s : State) : State :=
  match step s, e with
  | FORMAT_SELECT, ToggleApifyKeyForm =>
      setShowApifyKeyInput (negb (showApifyKeyInput s)) s
  | FORMAT_SELECT, TypeApifyKey text =>
      if showApifyKeyInput s then setApifyKeyInput text s else s
  | FORMAT_SELECT, SaveApifyKey =>
      if showApifyKeyInput s then handleSaveApifyKey s else s
  | FORMAT_SELECT, ClickFormat selectedStyle =>
      handleFormatSelect selectedStyle s
  | ASPECT_RATIO_SELECT, ClickRatio ratio => handleAspectRatioSelect ratio s
  | ASPECT_RATIO_SELECT, ClickBack => setStep FORMAT_SELECT s
  | PROFILE_INPUT, SubmitProfile => handleProfileSubmit s
  | PROFILE_INPUT, ClickBack => setStep ASPECT_RATIO_SELECT s
  | METHOD_SELECT, ClickAiMagic => setStep AI_INPUT s
  | METHOD_SELECT, ClickManualCreation => handleManualCreate s
  | METHOD_SELECT, ClickBack => setStep PROFILE_INPUT s
  | AI_INPUT, TypeTopic text => setAiTopic text s
  | AI_INPUT, DocumentLoaded => setUploadedDocument true s
  | AI_INPUT, ClickRemoveDocument => setUploadedDocument false s
  | AI_INPUT, ClickGenerate =>
      if isGenerating s
         || (negb (truthy (trim (aiTopic s))) && negb (uploadedDocument s))
      then s
      else handleAiGenerate s
  | AI_INPUT, ClickBack =>
      if isGenerating s then s else setStep METHOD_SELECT s
  | WORKSPACE, ClickBack => setStep METHOD_SELECT s
  | WORKSPACE, WorkspaceStyleChange selectedStyle => setStyle selectedStyle s
  | _, GenerationSettled succeeded =>
      if isGenerating s then generationSettled succeeded s else s
  | _, _ => s
  end.

Definition run (events : list Event) (s : State) : State :=
  fold_left (fun s e => react e s) events s.

(** The place of a screen in the wizard. *)
Definition rank (x : AppStep) : nat :=
  match x with
  | FORMAT_SELECT => 0
  | ASPECT_RATIO_SELECT => 1
  | PROFILE_INPUT => 2
  | METHOD_SELECT => 3
  | AI_INPUT => 4
  | WORKSPACE => 4
  end.

Definition step_eqb (a b : AppStep) : bool :=
  match a, b with
  | FORMAT_SELECT, FORMAT_SELECT | ASPECT_RATIO_SELECT, ASPECT_RATIO_SELECT
  | PROFILE_INPUT, PROFILE_INPUT | METHOD_SELECT, METHOD_SELECT
  | AI_INPUT, AI_INPUT | WORKSPACE, WORKSPACE => true
  | _, _ => false
  end.

(** Proof steps over the reactions: unfold the handlers, then follow
    every branch. *)
Ltac handlers :=
  unfold react, handleSaveApifyKey, handleFormatSelect,
    handleAspectRatioSelect, handleProfileSubmit, handleManualCreate,
    handleAiGenerate, generationSettled, setStep, setStyle, setAspectRatio,
    setAiTopic, setUploadedDocument, setIsGenerating, setApifyKeyInput,
    setShowApifyKeyInput;
  cbn [step style aspectRatio aiTopic uploadedDocument isGenerating
       apifyKeyInput apifyKeyConfigured showApifyKeyInput apifyKeyDisplay
       storage].

Ltac branches :=
  repeat match goal with
    | |- context [match ?x with _ => _ end] =>
        destruct x;
        cbn [step style aspectRatio aiTopic uploadedDocument isGenerating
             apifyKeyInput apifyKeyConfigured showApifyKeyInput
             apifyKeyDisplay storage negb andb orb]
    end.

Ltac react_cases s e :=
  destruct s as [stp sty ar topic doc gen kin kcf shw kds sto];
  destruct stp, e; handlers; branches.

End App.

(* ====================================================================== *)
(** * Properties *)
(* ====================================================================== *)

Example split_inline_demo :
  split_inline (str "a **b** c") = [str "a "; str "**b**"; str " c"].
Proof. reflexivity. Qed.

Example split_on_demo :
  split_on LF (str "x") = [str "x"] /\ split_on LF [] = [[]].
Proof. split; reflexivity. Qed.

Example splitContentByHeaders_demo :
  splitContentByHeaders (str "# T" ++ [LF] ++ str "x")
  = {| titleLines := str "# T"; bodyLines := str "x" |}.
Proof. reflexivity. Qed.

(* ====================================================================== *)
(** ** Facts about strings *)
(* ====================================================================== *)

Section StringFacts.

Lemma char_eqb_eq a b : char_eqb a b = true <-> a = b.
Proof. apply N.eqb_eq. Qed.

Lemma jeqb_eq a : forall b, jeqb a b = true <-> a = b.
Proof.
  induction a as [|x a IH]; intros [|y b]; simpl; split; intro H;
    try reflexivity; try discriminate.
  - apply andb_true_iff in H as [H1 H2].
    apply char_eqb_eq in H1. apply IH in H2. congruence.
  - injection H as -> ->. apply andb_true_iff. split.
    + now apply char_eqb_eq.
    + now apply IH.
Qed.

Lemma jeqb_neq a b : a <> b -> jeqb a b = false.
Proof.
  intro H. destruct (jeqb a b) eqn:E; [|reflexivity].
  apply jeqb_eq in E. contradiction.
Qed.

Lemma startsWith_app p : forall s, startsWith p (p ++ s) = true.
Proof.
  induction p as [|x p IH]; intro s; simpl; [reflexivity|].
  unfold char_eqb. rewrite N.eqb_refl. apply IH.
Qed.

Lemma startsWith_inv p : forall s,
  startsWith p s = true -> exists r, s = p ++ r.
Proof.
  induction p as [|x p IH]; intros s H; simpl in *.
  - now exists s.
  - destruct s as [|y s]; [discriminate|].
    apply andb_true_iff in H as [H1 H2]. apply char_eqb_eq in H1. subst y.
    destruct (IH _ H2) as [r ->]. now exists r.
Qed.

(** Trimming the end keeps a head that is not white space. *)
Lemma drop_ws_snoc l : forall c,
  is_ws c = false -> drop_ws (l ++ [c]) = drop_ws l ++ [c].
Proof.
  induction l as [|x l IH]; intros c Hc; simpl.
  - now rewrite Hc.
  - destruct (is_ws x); [now apply IH | reflexivity].
Qed.

Lemma trimEnd_cons c s :
  is_ws c = false -> trimEnd (c :: s) = c :: trimEnd s.
Proof.
  intro Hc. unfold trimEnd. simpl rev.
  rewrite drop_ws_snoc by assumption.
  now rewrite rev_app_distr.
Qed.

Lemma trim_cons c s :
  is_ws c = false -> trim (c :: s) = c :: trimEnd s.
Proof.
  intro Hc. unfold trim, trimStart. simpl. rewrite Hc.
  now apply trimEnd_cons.
Qed.

Lemma drop_ws_all ws : forall s,
  forallb is_ws ws = true -> drop_ws (ws ++ s) = drop_ws s.
Proof.
  induction ws as [|c ws IH]; intros s H; simpl in *; [reflexivity|].
  apply andb_true_iff in H as [H1 H2]. rewrite H1. now apply IH.
Qed.

Lemma trim_leading ws s :
  forallb is_ws ws = true -> trim (ws ++ s) = trim s.
Proof.
  intro H. unfold trim, trimStart. now rewrite drop_ws_all.
Qed.

(** The head of a trimmed string is never white space. *)
Lemma drop_ws_head s c r : drop_ws s = c :: r -> is_ws c = false.
Proof.
  induction s as [|x s IH]; simpl; [discriminate|].
  destruct (is_ws x) eqn:E; [exact IH|].
  intro H. injection H as <- _. exact E.
Qed.

Lemma trim_head s c r : trim s = c :: r -> is_ws c = false.
Proof.
  unfold trim, trimStart. intro H.
  destruct (drop_ws s) as [|x t] eqn:E.
  - discriminate.
  - pose proof (drop_ws_head _ E) as Hx.
    rewrite trimEnd_cons in H by assumption.
    injection H as <- _. exact Hx.
Qed.

(** A trimmed string that starts with white space does not exist; a line
    that starts with white space starts with none of the markers. *)
Lemma startsWith_head c p s :
  startsWith (c :: p) s = true -> exists r, s = c :: r.
Proof.
  intro H. destruct (startsWith_inv _ _ H) as [r ->]. now exists (p ++ r).
Qed.

End StringFacts.

(* ====================================================================== *)
(** ** The title/body splitter *)
(* ====================================================================== *)

Section Splitter.

Lemma split_on_not_nil sep s : split_on sep s <> [].
Proof.
  destruct s as [|c s]; simpl; [discriminate|].
  destruct (char_eqb c sep); [discriminate|].
  destruct (split_on sep s); discriminate.
Qed.

Lemma split_on_no_sep sep s :
  Forall (fun l => ~ In sep l) (split_on sep s).
Proof.
  induction s as [|c s IH]; simpl.
  - constructor; [intros []|constructor].
  - destruct (char_eqb c sep) eqn:E.
    + constructor; [intros []|exact IH].
    + destruct (split_on sep s) as [|l ls].
      * constructor; [|constructor].
        intros [->|[]]. unfold char_eqb in E. now rewrite N.eqb_refl in E.
      * inversion IH as [|? ? Hl Hls]; subst.
        constructor; [|exact Hls].
        intros [->|H]; [|now apply Hl].
        unfold char_eqb in E. now rewrite N.eqb_refl in E.
Qed.

Lemma split_on_single sep l : ~ In sep l -> split_on sep l = [l].
Proof.
  induction l as [|c l IH]; intro H; simpl; [reflexivity|].
  destruct (char_eqb c sep) eqn:E.
  - apply char_eqb_eq in E. subst. exfalso. apply H. now left.
  - rewrite IH; [reflexivity|]. intro Hin. apply H. now right.
Qed.

Lemma split_on_app sep l : forall r,
  ~ In sep l -> split_on sep (l ++ sep :: r) = l :: split_on sep r.
Proof.
  induction l as [|c l IH]; intros r H; simpl.
  - unfold char_eqb. now rewrite N.eqb_refl.
  - destruct (char_eqb c sep) eqn:E.
    + apply char_eqb_eq in E. subst. exfalso. apply H. now left.
    + rewrite IH; [reflexivity|]. intro Hin. apply H. now right.
Qed.

(** Splitting what was joined gives the lines back. *)
Lemma split_on_join sep ls :
  ls <> [] -> Forall (fun l => ~ In sep l) ls ->
  split_on sep (join sep ls) = ls.
Proof.
  induction ls as [|l ls IH]; intros Hne HF; [contradiction|].
  inversion HF as [|? ? Hl Hls]; subst.
  destruct ls as [|l' ls'].
  - simpl. now apply split_on_single.
  - change (join sep (l :: l' :: ls')) with (l ++ sep :: join sep (l' :: ls')).
    rewrite split_on_app by assumption.
    rewrite IH; [reflexivity|discriminate|assumption].
Qed.

Lemma split_loop_found lines : split_loop true lines = ([], lines).
Proof.
  induction lines as [|l ls IH]; simpl; [reflexivity|].
  now rewrite IH.
Qed.

(** The title lines are a prefix of the lines, the body lines are the rest,
    and every title line passes the test. *)
Lemma split_loop_prefix lines : forall t b,
  split_loop false lines = (t, b) ->
  lines = t ++ b /\ forallb is_title_line t = true.
Proof.
  induction lines as [|l ls IH]; intros t b H; simpl in H.
  - injection H as <- <-. now split.
  - destruct (is_title_line l) eqn:E; simpl in H.
    + destruct (split_loop false ls) as [t' b'] eqn:E'.
      injection H as <- <-.
      destruct (IH _ _ eq_refl) as [-> Ht]. split; [reflexivity|].
      simpl. now rewrite E, Ht.
    + rewrite split_loop_found in H. injection H as <- <-. now split.
Qed.

Lemma split_loop_all_title t :
  forallb is_title_line t = true -> split_loop false t = (t, []).
Proof.
  induction t as [|l t IH]; intro H; simpl in *; [reflexivity|].
  apply andb_true_iff in H as [H1 H2].
  rewrite H1. simpl. now rewrite IH.
Qed.

Lemma splitContentByHeaders_title_only t :
  t = [] \/ (Forall (fun l => ~ In LF l) t /\
             forallb is_title_line t = true) ->
  splitContentByHeaders (join LF t)
  = {| titleLines := join LF t; bodyLines := [] |}.
Proof.
  intros [->|[HF Ht]]; [reflexivity|].
  destruct t as [|l t']; [reflexivity|].
  unfold splitContentByHeaders.
  rewrite split_on_join by (assumption || discriminate).
  now rewrite split_loop_all_title.
Qed.

End Splitter.

(** C5. The title/body splitter is idempotent: splitting the title part of
    a split again returns that title unchanged, with an empty body; in
    particular [splitTitleBody(splitTitleBody(x).title).body] is the empty
    string, for every content [x]. *)
Theorem splitter_idempotent (x : jstring) :
  let title := titleLines (splitContentByHeaders x) in
  bodyLines (splitContentByHeaders title) = []
  /\ titleLines (splitContentByHeaders title) = title.
Proof.
  cbv zeta. unfold splitContentByHeaders at 2 4 5.
  destruct (split_loop false (split_on LF x)) as [t b] eqn:E.
  cbn [titleLines].
  apply split_loop_prefix in E as [Hlines Ht].
  rewrite splitContentByHeaders_title_only; [now split|].
  destruct t as [|l t']; [now left|right]. split; [|exact Ht].
  pose proof (split_on_no_sep LF x) as HF. rewrite Hlines in HF.
  apply Forall_app in HF. apply HF.
Qed.

(* ====================================================================== *)
(** ** Line classification *)
(* ====================================================================== *)

Section Classification.

Lemma span_digits_spec s : forall ds r,
  span_digits s = (ds, r) -> s = ds ++ r /\ forallb is_digit ds = true.
Proof.
  induction s as [|c s IH]; intros ds r H; simpl in H.
  - injection H as <- <-. now split.
  - destruct (is_digit c) eqn:E.
    + destruct (span_digits s) as [ds' r'].
      injection H as <- <-. destruct (IH _ _ eq_refl) as [-> Hd].
      split; [reflexivity|]. simpl. now rewrite E, Hd.
    + injection H as <- <-. now split.
Qed.

(** The three expressions on a numbered line agree: [test] succeeds exactly
    when the line is digits, a period, a space and a remainder; [match]
    then captures the digits and [replace] leaves the remainder. *)
Lemma test_numbered_inv s :
  test_numbered s = true ->
  exists ds rest,
    s = ds ++ str ". " ++ rest /\ ds <> [] /\ forallb is_digit ds = true
    /\ match_digits s = Some ds /\ strip_numbered s = rest.
Proof.
  unfold test_numbered, match_digits, strip_numbered.
  destruct (span_digits s) as [ds r] eqn:E.
  destruct ds as [|d ds]; [discriminate|]. intro H.
  apply span_digits_spec in E as [-> Hd].
  destruct (startsWith_inv _ _ H) as [rest ->].
  exists (d :: ds), rest. rewrite H.
  repeat split; try assumption; try reflexivity. discriminate.
Qed.

Lemma test_numbered_head s :
  test_numbered s = true -> exists c r, s = c :: r /\ is_digit c = true.
Proof.
  intro H. destruct (test_numbered_inv _ H) as (ds & rest & -> & Hne & Hd & _).
  destruct ds as [|c ds]; [contradiction|].
  exists c, (ds ++ str ". " ++ rest). split; [reflexivity|].
  simpl in Hd. now apply andb_true_iff in Hd as [Hc _].
Qed.

(** A line that starts with a marker keeps it as the head of its trimmed
    form, when the first code unit of the marker is not white space. *)
Lemma startsWith_trim_head c p line :
  is_ws c = false -> startsWith (c :: p) line = true ->
  exists t, trim line = c :: t.
Proof.
  intros Hc H. destruct (startsWith_head _ _ _ H) as [r ->].
  rewrite trim_cons by assumption. now eexists.
Qed.

Lemma numbered_not_marked c p line :
  is_ws c = false -> is_digit c = false ->
  test_numbered (trim line) = true -> startsWith (c :: p) line = false.
Proof.
  intros Hw Hd Ht. destruct (startsWith (c :: p) line) eqn:E; [|reflexivity].
  destruct (startsWith_trim_head _ _ _ Hw E) as [t Htrim].
  destruct (test_numbered_head _ Ht) as (c' & r & Heq & Hc').
  rewrite Htrim in Heq. injection Heq as <- _. congruence.
Qed.

Lemma numbered_not_bullet s :
  test_numbered s = true -> startsWith (str "- ") s = false.
Proof.
  intro Ht. destruct (test_numbered_head _ Ht) as (c & r & -> & Hc).
  change (startsWith (str "- ") (c :: r))
    with (char_eqb 45%N c && startsWith (str " ") r).
  destruct (char_eqb 45%N c) eqn:E; [|reflexivity].
  apply char_eqb_eq in E. subst c. discriminate.
Qed.

Lemma classify_numbered line :
  test_numbered (trim line) = true ->
  classify_line line
  = BNumbered (match_digits (trim line)) (strip_numbered (trim line)).
Proof.
  intro H. unfold classify_line.
  assert (H1 : startsWith (str "# ") line = false)
    by (apply (numbered_not_marked 35%N (str " ") line); auto).
  assert (H2 : startsWith (str "## ") line = false)
    by (apply (numbered_not_marked 35%N (str "# ") line); auto).
  rewrite H1, H2, numbered_not_bullet by assumption.
  now rewrite H.
Qed.

(** A line whose trimmed form starts with a hash, and which does not itself
    start with a heading marker, is a paragraph. *)
Lemma classify_trimmed_hash line t :
  startsWith (str "# ") line = false ->
  startsWith (str "## ") line = false ->
  trim line = 35%N :: t ->
  classify_line line = BParagraph line.
Proof.
  intros H1 H2 Ht. unfold classify_line. rewrite H1, H2, Ht. reflexivity.
Qed.

Lemma startsWith_ws_head c p w s :
  is_ws c = false -> is_ws w = true -> startsWith (c :: p) (w :: s) = false.
Proof.
  intros Hc Hw. simpl. destruct (char_eqb c w) eqn:E; [|reflexivity].
  apply char_eqb_eq in E. congruence.
Qed.

Lemma drop_ws_snoc_nonempty l c :
  drop_ws l <> [] -> drop_ws (l ++ [c]) = drop_ws l ++ [c].
Proof.
  induction l as [|x l IH]; simpl; intro H; [contradiction|].
  destruct (is_ws x); [now apply IH | reflexivity].
Qed.

Lemma drop_ws_nonempty l :
  existsb (fun c => negb (is_ws c)) l = true -> drop_ws l <> [].
Proof.
  induction l as [|x l IH]; simpl; intro H; [discriminate|].
  destruct (is_ws x); [now apply IH | discriminate].
Qed.

Lemma existsb_reverse {A} (f : A -> bool) l :
  existsb f (rev l) = existsb f l.
Proof.
  induction l as [|x l IH]; simpl; [reflexivity|].
  rewrite existsb_app, IH. simpl. rewrite orb_false_r. apply orb_comm.
Qed.

(** Trimming the end keeps any head, as long as something that is not
    white space follows it. *)
Lemma trimEnd_cons_visible c s :
  existsb (fun c => negb (is_ws c)) s = true ->
  trimEnd (c :: s) = c :: trimEnd s.
Proof.
  intro H. unfold trimEnd. simpl rev.
  rewrite drop_ws_snoc_nonempty.
  - now rewrite rev_app_distr.
  - apply drop_ws_nonempty. now rewrite existsb_reverse.
Qed.

End Classification.

(** The element [renderMarkdown] returns for a line of the content is the
    rendering of that line. *)
Lemma nth_error_map_some {A B} (f : A -> B) l i x :
  nth_error l i = Some x -> nth_error (map f l) i = Some (f x).
Proof. intro H. rewrite nth_error_map, H. reflexivity. Qed.

(** C7. A line of the content whose trimmed form matches [^\d+\. ] becomes
    a numbered item in what [renderMarkdown] returns, in every template and
    wherever the line stands in the content: the number shown is the run of
    digits the user typed, followed by a period, never renumbered, and what
    follows the number, the period and the space is handed to the inline
    parser as the text of the item. *)
Theorem numbered_item_verbatim (text : jstring) (i : nat) (line : jstring) :
  nth_error (split_on LF text) i = Some line ->
  test_numbered (trim line) = true ->
  exists number rest,
    trim line = number ++ str ". " ++ rest
    /\ number <> [] /\ forallb is_digit number = true
    /\ classify_line line = BNumbered (Some number) rest
    /\ (forall theme fs lh pg tco ta,
          option_map list_item_view
            (nth_error (Twitter.renderMarkdown theme fs lh pg tco ta text) i)
          = Some (Some ([Txt number; Txt (str ".")],
                        Twitter.parseInline rest theme)))
    /\ (forall theme ac fs lh pg tco ta,
          option_map list_item_view
            (nth_error
               (Storyteller.renderMarkdown theme ac fs lh pg tco ta text) i)
          = Some (Some ([Txt number; Txt (str ".")],
                        Storyteller.parseInline rest theme ac)))
    /\ (forall theme ac fs lh pg ta,
          option_map list_item_view
            (nth_error (Lesson.renderMarkdown theme ac fs lh pg ta text) i)
          = Some (Some ([Txt number; Txt (str ".")],
                        Lesson.parseInline rest theme ac))).
Proof.
  intros Hline H.
  destruct (test_numbered_inv _ H) as (ds & rest & Heq & Hne & Hd & Hm & Hs).
  exists ds, rest.
  assert (Hc : classify_line line = BNumbered (Some ds) rest)
    by (rewrite classify_numbered by assumption; now rewrite Hm, Hs).
  split; [exact Heq|]. split; [exact Hne|]. split; [exact Hd|].
  split; [exact Hc|].
  split; [|split]; intros;
    unfold Twitter.renderMarkdown, Storyteller.renderMarkdown,
      Lesson.renderMarkdown;
    rewrite (nth_error_map_some _ _ _ Hline); cbn [option_map];
    rewrite Hc; reflexivity.
Qed.

Lemma numbered_item_verbatim_witness :
  let text := str "Steps" ++ [LF] ++ str "5. Fifth item" ++ [LF]
              ++ str " 12. Twelfth" in
  nth_error (split_on LF text) 1 = Some (str "5. Fifth item")
  /\ test_numbered (trim (str "5. Fifth item")) = true
  /\ option_map list_item_view
       (nth_error (Twitter.renderMarkdown DARK 1 (3#2) 1 None left text) 1)
     = Some (Some ([Txt (str "5"); Txt (str ".")],
                   [Txt (str "Fifth item")])).
Proof.
  intro text.
  assert (Hl : nth_error (split_on LF text) 1 = Some (str "5. Fifth item"))
    by reflexivity.
  destruct (@numbered_item_verbatim text 1 (str "5. Fifth item") Hl
              eq_refl)
    as (number & rest & Ht & _ & _ & Hc & Htw & _).
  split; [exact Hl|]. split; [reflexivity|].
  rewrite (Htw DARK 1 (3#2) 1 None left).
  assert (E : BNumbered (Some number) rest
              = BNumbered (Some (str "5")) (str "Fifth item"))
    by (rewrite <- Hc; reflexivity).
  injection E as -> ->. reflexivity.
Defined.

Example fifth_item_shows_5 :
  classify_line (str "5. Fifth item")
  = BNumbered (Some (str "5")) (str "Fifth item")
  /\ list_item_view
       (Twitter.render_block DARK 1 (3#2) 1 None left
          (classify_line (str "5. Fifth item")))
     = Some ([Txt (str "5"); Txt (str ".")], [Txt (str "Fifth item")]).
Proof. split; reflexivity. Qed.

(* ====================================================================== *)
(** ** The inline parser *)
(* ====================================================================== *)

Section InlineSplit.

Lemma lazy_until_prefix d : forall s b,
  lazy_until d s = Some b -> exists r, s = b ++ r.
Proof.
  induction s as [|c s IH]; intros b H; simpl in H.
  - destruct (startsWith d []) eqn:E; [|discriminate].
    injection H as <-. now apply startsWith_inv.
  - destruct (startsWith d (c :: s)) eqn:E.
    + injection H as <-. now apply startsWith_inv.
    + destruct (is_line_terminator c); [discriminate|].
      destruct (lazy_until d s) as [b'|]; [|discriminate].
      injection H as <-. destruct (IH _ eq_refl) as [r ->]. now exists r.
Qed.

Lemma token_alt_prefix d s tok :
  d <> [] -> token_alt d s = Some tok ->
  tok <> [] /\ exists r, s = tok ++ r.
Proof.
  intros Hd H. unfold token_alt in H.
  destruct (startsWith d s) eqn:E; [|discriminate].
  destruct (startsWith_inv _ _ E) as [s' ->].
  rewrite skipn_app, skipn_all, Nat.sub_diag in H. simpl in H.
  destruct (lazy_until d s') as [b|] eqn:Eb; [|discriminate].
  injection H as <-. destruct (lazy_until_prefix _ _ Eb) as [r ->].
  split.
  - destruct d; [contradiction | discriminate].
  - exists r. now rewrite app_assoc.
Qed.

(** A token is a prefix of the text it is matched in, and is not empty. *)
Lemma token_at_prefix s tok :
  token_at s = Some tok -> tok <> [] /\ exists r, s = tok ++ r.
Proof.
  unfold token_at, orelse. intro H.
  destruct (token_alt (str "**") s) eqn:E1.
  { injection H as <-. eapply token_alt_prefix; [|exact E1]. discriminate. }
  destruct (token_alt (str "*") s) eqn:E2.
  { injection H as <-. eapply token_alt_prefix; [|exact E2]. discriminate. }
  destruct (token_alt (str "~~") s) eqn:E3.
  { injection H as <-. eapply token_alt_prefix; [|exact E3]. discriminate. }
  eapply token_alt_prefix; [|exact H]. discriminate.
Qed.

Lemma split_tokens_concat s : forall skip lit,
  (skip <= List.length s)%nat ->
  List.concat (split_tokens skip lit s) = lit ++ skipn skip s.
Proof.
  induction s as [|c s IH]; intros skip lit Hle; simpl in Hle.
  - assert (skip = 0%nat) as -> by lia. simpl. now rewrite app_nil_r.
  - destruct skip as [|k]; simpl split_tokens.
    + destruct (token_at (c :: s)) as [tok|] eqn:E.
      * destruct (token_at_prefix _ E) as [Hne [r Hr]].
        destruct tok as [|c' tok']; [contradiction|].
        simpl in Hr. injection Hr as <- ->.
        simpl List.concat. rewrite IH.
        -- simpl. rewrite Nat.sub_0_r, skipn_app, skipn_all, Nat.sub_diag.
           reflexivity.
        -- simpl. rewrite length_app. lia.
      * rewrite IH by lia. simpl. now rewrite <- app_assoc.
    + rewrite IH by lia. reflexivity.
Qed.

(** The parts of the split, put back together, are the text: the inline
    parser keeps the order and every code unit, white space included, up to
    the delimiters it slices off the parts it styles. *)
Lemma split_inline_concat text : List.concat (split_inline text) = text.
Proof.
  unfold split_inline. rewrite split_tokens_concat by lia. reflexivity.
Qed.

End InlineSplit.

Section InlineExamples.

Lemma inline_example_runs :
  inline_runs (str "**bold** and *italic*")
  = [Lit []; Strong (str "bold"); Lit (str " and "); Em (str "italic");
     Lit []].
Proof. reflexivity. Qed.

Lemma inline_plain_asterisk :
  inline_runs (str "2 * 3") = [Lit (str "2 * 3")].
Proof. reflexivity. Qed.

End InlineExamples.

(** C9. The input [****] is split into the single token [****], the bold
    alternative being the first that matches; the token starts and ends
    with two asterisks and is sliced to the empty string, so the inline
    parser of every template gives one [strong] element with empty content
    (between the two empty literals [split] leaves around a token) and no
    asterisk is shown. *)
Theorem empty_bold_token :
  token_alt (str "**") (str "****") = Some (str "****")
  /\ split_inline (str "****") = [[]; str "****"; []]
  /\ inline_runs (str "****") = [Lit []; Strong []; Lit []]
  /\ (forall theme,
        Twitter.parseInline (str "****") theme
        = [Txt [];
           El "strong" None
              ["font-bold"; themed theme "text-white" "text-gray-900"]
              [] [] [Txt []];
           Txt []])
  /\ (forall theme ac,
        Storyteller.parseInline (str "****") theme ac
        = [Txt [];
           El "strong" None
              ["font-black"; themed theme "text-white" "text-black"]
              [] [] [Txt []];
           Txt []])
  /\ (forall theme ac,
        Lesson.parseInline (str "****") theme ac
        = [Txt [];
           El "strong" None
              ["font-bold"; themed theme "text-white" "text-black"]
              [] [] [Txt []];
           Txt []]).
Proof. repeat split. Qed.

(** C8. The example of the claim holds: two styled runs and the literal
    between them, in order. A delimiter without a partner is not always
    passed through: a part of the split that is not a token but starts and
    ends with a delimiter is styled all the same. The line that is a single
    asterisk is shown as an empty [em] element in every template, and the
    last asterisk of three asterisks around a word is lost in the same
    way. *)
Theorem lone_delimiter_swallowed :
  inline_runs (str "**bold** and *italic*")
  = [Lit []; Strong (str "bold"); Lit (str " and "); Em (str "italic");
     Lit []]
  /\ token_at (str "*") = None
  /\ inline_runs (str "*") = [Em []]
  /\ (forall theme,
        Twitter.parseInline (str "*") theme
        = [El "em" None ["italic"; themed theme "text-gray-300" "text-gray-800"]
              [] [] [Txt []]])
  /\ (forall theme ac,
        Storyteller.parseInline (str "*") theme ac
        = [El "em" None ["italic"; themed theme "text-gray-300" "text-gray-600"]
              [] [] [Txt []]])
  /\ (forall theme ac,
        Lesson.parseInline (str "*") theme ac
        = [El "em" None ["italic"; themed theme "text-gray-300" "text-gray-600"]
              [] [] [Txt []]])
  /\ inline_runs (str "***bold***")
     = [Lit []; Strong (str "*bold"); Em []].
Proof. repeat split. Qed.

(* ====================================================================== *)
(** ** Indented heading markers *)
(* ====================================================================== *)

Section IndentedMarkers.

Variables (ws rest : jstring).
Hypothesis ws_not_empty : ws <> [].
Hypothesis ws_white : forallb is_ws ws = true.

Lemma indented_not_heading c p s :
  is_ws c = false -> startsWith (c :: p) (ws ++ s) = false.
Proof.
  intro Hc. destruct ws as [|w ws']; [contradiction|].
  simpl in ws_white. apply andb_true_iff in ws_white as [Hw _].
  now apply startsWith_ws_head.
Qed.

Lemma indented_h1_paragraph :
  classify_line (ws ++ str "# " ++ rest) = BParagraph (ws ++ str "# " ++ rest).
Proof.
  apply classify_trimmed_hash with (t := trimEnd (32%N :: rest)).
  - now apply (indented_not_heading 35%N (str " ")).
  - now apply (indented_not_heading 35%N (str "# ")).
  - rewrite trim_leading by assumption. now apply trim_cons.
Qed.

Lemma indented_h2_paragraph :
  classify_line (ws ++ str "## " ++ rest)
  = BParagraph (ws ++ str "## " ++ rest).
Proof.
  apply classify_trimmed_hash with (t := trimEnd (35%N :: 32%N :: rest)).
  - now apply (indented_not_heading 35%N (str " ")).
  - now apply (indented_not_heading 35%N (str "# ")).
  - rewrite trim_leading by assumption. now apply trim_cons.
Qed.

Lemma indented_h1_title :
  visible rest = true -> is_title_line (ws ++ str "# " ++ rest) = true.
Proof.
  intro Hv. unfold is_title_line. rewrite trim_leading by assumption.
  change (str "# " ++ rest) with (35%N :: 32%N :: rest).
  rewrite trim_cons by reflexivity.
  rewrite trimEnd_cons_visible by exact Hv.
  reflexivity.
Qed.

Lemma indented_h2_title :
  visible rest = true -> is_title_line (ws ++ str "## " ++ rest) = true.
Proof.
  intro Hv. unfold is_title_line. rewrite trim_leading by assumption.
  change (str "## " ++ rest) with (35%N :: 35%N :: 32%N :: rest).
  rewrite trim_cons by reflexivity.
  rewrite trimEnd_cons by reflexivity.
  rewrite trimEnd_cons_visible by exact Hv.
  reflexivity.
Qed.

End IndentedMarkers.

Lemma single_title_line line :
  ~ In LF line -> is_title_line line = true ->
  splitContentByHeaders line = {| titleLines := line; bodyLines := [] |}.
Proof.
  intros Hlf Ht.
  apply (@splitContentByHeaders_title_only [line]). right. split.
  - constructor; [exact Hlf | constructor].
  - simpl. now rewrite Ht.
Qed.

(** C10, as the code has it. A line made of leading white space, a heading
    marker ([# ] or [## ]) and a remainder is a paragraph for the block
    renderer of every template, since the renderer tests the raw line. The
    splitter, which tests the trimmed line, takes it for a title line when
    the remainder has a code unit that is not white space (otherwise the
    trim removes the space of the marker); a content made of this one line
    is then all title. *)
Theorem indented_heading_marker (ws marker rest : jstring) :
  ws <> [] -> forallb is_ws ws = true ->
  marker = str "# " \/ marker = str "## " ->
  let line := ws ++ marker ++ rest in
  classify_line line = BParagraph line
  /\ (forall theme fs lh pg tco ta,
        tag_of (Twitter.render_block theme fs lh pg tco ta
                  (classify_line line)) = Some "p"%string)
  /\ (forall theme ac fs lh pg tco ta,
        tag_of (Storyteller.render_block theme ac fs lh pg tco ta
                  (classify_line line)) = Some "p"%string)
  /\ (forall theme ac fs lh pg ta,
        tag_of (Lesson.render_block theme ac fs lh pg ta
                  (classify_line line)) = Some "p"%string)
  /\ (visible rest = true ->
      is_title_line line = true
      /\ (~ In LF line ->
          splitContentByHeaders line
          = {| titleLines := line; bodyLines := [] |})).
Proof.
  intros Hne Hws Hm line.
  assert (Hp : classify_line line = BParagraph line).
  { subst line. destruct Hm as [->| ->].
    - now apply indented_h1_paragraph.
    - now apply indented_h2_paragraph. }
  split; [exact Hp|].
  repeat split; intros; try (rewrite Hp; reflexivity).
  - subst line. destruct Hm as [->| ->].
    + now apply indented_h1_title.
    + now apply indented_h2_title.
  - apply single_title_line; [assumption|].
    subst line. destruct Hm as [->| ->].
    + now apply indented_h1_title.
    + now apply indented_h2_title.
Qed.

Lemma indented_heading_marker_witness :
  str "  " <> []
  /\ forallb is_ws (str "  ") = true
  /\ visible (str "X") = true
  /\ classify_line (str "  # X") = BParagraph (str "  # X")
  /\ is_title_line (str "  # X") = true
  /\ splitContentByHeaders (str "  # X")
     = {| titleLines := str "  # X"; bodyLines := [] |}.
Proof.
  assert (Hne : str "  " <> []) by discriminate.
  destruct (@indented_heading_marker (str "  ") (str "# ") (str "X")
              Hne eq_refl (or_introl eq_refl))
    as (Hp & _ & _ & _ & Ht).
  destruct (Ht eq_refl) as [Htitle Hsplit].
  split; [exact Hne|]. split; [reflexivity|]. split; [reflexivity|].
  split; [exact Hp|]. split; [exact Htitle|].
  apply Hsplit. vm_compute. intuition discriminate.
Defined.

(** The claim as stated fails on the line made of two spaces, a hash and a
    space: its trimmed form is the hash alone, which the splitter takes for
    body text. *)
Lemma indented_marker_claim_fails : ~ indented_marker_claim.
Proof.
  intro H.
  assert (Hne : str "  " <> []) by discriminate.
  destruct (H (str "  ") (str "# ") [] Hne eq_refl (or_introl eq_refl))
    as [_ Ht].
  discriminate Ht.
Qed.

(* ====================================================================== *)
(** ** The override cascade *)
(* ====================================================================== *)

(** C1, as the code has it. In every template the content padding, the
    line height, the paragraph gap, the text alignment, the font style and
    the font scale resolve to the per-slide override when present, else to
    the global setting when present, else to the hard default (64, 1.5, 1,
    left, modern, 1.0). The image scale has no global tier, and a per-slide
    image scale of 0 counts as absent: it resolves to the per-slide value
    when present and not 0, else to the default of the template (50 in
    feed-text and lesson, 45 in cinematic-image). *)
Theorem layout_cascade (p : Props.t) :
  let s := Props.slide p in
  let padding :=
    spec_resolve (Slide.contentPadding s)
      (globalSetting p LayoutSettings.contentPadding) 64 in
  let lineHeight :=
    spec_resolve (Slide.textLineHeight s)
      (globalSetting p LayoutSettings.textLineHeight) (3#2) in
  let gap :=
    spec_resolve (Slide.paragraphGap s)
      (globalSetting p LayoutSettings.paragraphGap) 1 in
  let alignment :=
    spec_resolve (Slide.textAlignment s)
      (globalSetting p LayoutSettings.textAlignment) left in
  let style := spec_resolve (Slide.fontStyle s) (Props.fontStyle p) MODERN in
  let scale := spec_resolve (Slide.fontScale s) (Props.fontScale p) 1 in
  let imageScale d := spec_resolve (nonzero (Slide.imageScale s)) None d in
  (Twitter.effectiveContentPadding p = padding
   /\ Twitter.effectiveLineHeight p = lineHeight
   /\ Twitter.effectiveParagraphGap p = gap
   /\ Twitter.effectiveTextAlignment p = alignment
   /\ Twitter.effectiveFontStyle p = style
   /\ Twitter.effectiveFontScale p = scale
   /\ Twitter.imageScale p = imageScale 50)
  /\ (Storyteller.effectiveContentPadding p = padding
      /\ Storyteller.effectiveLineHeight p = lineHeight
      /\ Storyteller.effectiveParagraphGap p = gap
      /\ Storyteller.effectiveTextAlignment p = alignment
      /\ Storyteller.effectiveFontStyle p = style
      /\ Storyteller.effectiveFontScale p = scale
      /\ Storyteller.imageScale p = imageScale 45)
  /\ (Lesson.effectiveContentPadding p = padding
      /\ Lesson.effectiveLineHeight p = lineHeight
      /\ Lesson.effectiveParagraphGap p = gap
      /\ Lesson.effectiveTextAlignment p = alignment
      /\ Lesson.effectiveFontStyle p = style
      /\ Lesson.effectiveFontScale p = scale
      /\ Lesson.imageScale p = imageScale 50).
Proof.
  destruct p as [s pr i t sn hs th fe vb ac fst fsc ls].
  cbv zeta.
  unfold Twitter.effectiveContentPadding, Twitter.effectiveLineHeight,
    Twitter.effectiveParagraphGap, Twitter.effectiveTextAlignment,
    Twitter.effectiveFontStyle, Twitter.effectiveFontScale,
    Twitter.imageScale,
    Storyteller.effectiveContentPadding, Storyteller.effectiveLineHeight,
    Storyteller.effectiveParagraphGap, Storyteller.effectiveTextAlignment,
    Storyteller.effectiveFontStyle, Storyteller.effectiveFontScale,
    Storyteller.imageScale,
    Lesson.effectiveContentPadding, Lesson.effectiveLineHeight,
    Lesson.effectiveParagraphGap, Lesson.effectiveTextAlignment,
    Lesson.effectiveFontStyle, Lesson.effectiveFontScale, Lesson.imageScale,
    globalSetting, spec_resolve, nullish, opt_chain, or_enum, if_defined,
    default_param, or_num, nonzero, num_falsy.
  cbn [Props.slide Props.layoutSettings Props.fontStyle Props.fontScale].
  destruct (Slide.imageScale s) as [q|];
    [destruct (Qeq_bool q 0)|];
    destruct (Slide.contentPadding s), (Slide.textLineHeight s),
      (Slide.paragraphGap s), (Slide.textAlignment s), (Slide.fontStyle s),
      (Slide.fontScale s), fst, fsc;
    repeat split; destruct ls as [l|]; reflexivity.
Qed.

(** The content padding examples of the claim. *)
Example contentPadding_examples :
  Twitter.effectiveContentPadding (paddedProps (Some 40) (Some 80) None) = 40
  /\ Twitter.effectiveContentPadding (paddedProps None (Some 80) None) = 80
  /\ Twitter.effectiveContentPadding (paddedProps None None None) = 64
  /\ Storyteller.effectiveContentPadding
       (paddedProps (Some 40) (Some 80) None) = 40
  /\ Storyteller.effectiveContentPadding (paddedProps None (Some 80) None) = 80
  /\ Storyteller.effectiveContentPadding (paddedProps None None None) = 64
  /\ Lesson.effectiveContentPadding (paddedProps (Some 40) (Some 80) None) = 40
  /\ Lesson.effectiveContentPadding (paddedProps None (Some 80) None) = 80
  /\ Lesson.effectiveContentPadding (paddedProps None None None) = 64.
Proof. repeat split. Qed.

(** The claim as stated fails on the image scale: a slide whose image scale
    is 0 resolves to 50, not to its own value. *)
Lemma cascade_claim_fails : ~ cascade_claim.
Proof.
  intro H.
  destruct (H (paddedProps None None (Some 0))) as (_ & _ & _ & _ & _ & _ & Hs).
  discriminate Hs.
Qed.

(* ====================================================================== *)
(** ** Layers and z-order *)
(* ====================================================================== *)

Section Layers.

Variable p : Props.t.

(** The layers of the feed-text template: the two background layers, then
    one content layer at level 10 that holds the header, the text, the
    illustration and the pagination in document order. *)
Lemma feedText_layers : layers (Twitter.TwitterSlide p) = feedTextLayers p.
Proof.
  unfold layers, Twitter.TwitterSlide, feedTextLayers, feedTextContentLayers,
    Twitter.renderMainContent, Twitter.renderImage.
  destruct (default_param (Props.forExport p) false),
    (showBackground (Props.slide p)),
    (jeqb (Twitter.contentLayout p) (str "image-first")),
    (jeqb (Twitter.contentLayout p) (str "image-after-title")),
    (Slide.showImage (Props.slide p)),
    (Props.showSlideNumbers p),
    (truthy (trim (titleLines (Twitter.titleBody p)))),
    (truthy (trim (bodyLines (Twitter.titleBody p))));
    reflexivity.
Qed.

(** The layers of the cinematic-image template: every region has a level
    of its own. *)
Lemma cinematic_layers :
  layers (Storyteller.StorytellerSlide p) = cinematicLayers p.
Proof.
  unfold layers, Storyteller.StorytellerSlide, cinematicLayers,
    Storyteller.overlayIllustration, Storyteller.splitIllustration.
  destruct (default_param (Props.forExport p) false),
    (showBackground (Props.slide p)),
    (Storyteller.isOverlay p && truthy_opt (Slide.imageUrl (Props.slide p))),
    (Storyteller.showSplit p && truthy_opt (Slide.imageUrl (Props.slide p)));
    reflexivity.
Qed.

(** The layers of the lesson template. *)
Lemma lesson_layers : layers (Lesson.LessonSlide p) = lessonLayers p.
Proof.
  unfold layers, Lesson.LessonSlide, lessonLayers, Lesson.renderCoverSlide,
    Lesson.renderContentWithImage, Lesson.renderContentTextOnly.
  destruct (default_param (Props.forExport p) false),
    (Lesson.isCover p), (Lesson.isOverlayMode p), (Lesson.showCoverImage p),
    (showBackground (Props.slide p)), (Slide.showImage (Props.slide p)),
    (truthy (trim (titleLines (Lesson.titleBody p)))),
    (truthy (trim (bodyLines (Lesson.titleBody p))));
    reflexivity.
Qed.

End Layers.

(** C2, as the code has it. In every template and for every slide, the
    layers from the bottom to the top go from the background to the
    overlay, then the content (header, text and illustration), then the
    footer, and the footer, when there is one, is the topmost layer. The
    cinematic-image template moreover gives every region a level of its
    own (background 0, overlay 1, illustration 2, text 10, footer 20), so
    that the illustration is below the text. The feed-text and the lesson
    template keep illustration and text in one layer at level 10, in the
    order of the document: text before the illustration in the default
    layout of feed-text, title, illustration, body in the lesson
    template. *)
Theorem z_order_by_template (t : Template) (p : Props.t) :
  z_ordered_coarse (compose t p) = true
  /\ z_ordered (compose Cinematic p) = true
  /\ forallb own_level (layers (compose Cinematic p)) = true
  /\ layers (compose FeedText p) = feedTextLayers p
  /\ layers (compose LessonTemplate p) = lessonLayers p.
Proof.
  split; [|split; [|split; [|split]]].
  - unfold z_ordered_coarse. destruct t; cbn [compose].
    + rewrite feedText_layers.
      unfold feedTextLayers, feedTextContentLayers.
      destruct (showBackground (Props.slide p)),
        (jeqb (Twitter.contentLayout p) (str "image-first")),
        (jeqb (Twitter.contentLayout p) (str "image-after-title")),
        (Slide.showImage (Props.slide p)),
        (Props.showSlideNumbers p),
        (truthy (trim (titleLines (Twitter.titleBody p)))),
        (truthy (trim (bodyLines (Twitter.titleBody p))));
        reflexivity.
    + rewrite cinematic_layers. unfold cinematicLayers.
      destruct (showBackground (Props.slide p)),
        (Storyteller.isOverlay p
         && truthy_opt (Slide.imageUrl (Props.slide p))),
        (Storyteller.showSplit p
         && truthy_opt (Slide.imageUrl (Props.slide p)));
        reflexivity.
    + rewrite lesson_layers. unfold lessonLayers.
      destruct (Lesson.isCover p), (Lesson.isOverlayMode p),
        (Lesson.showCoverImage p), (showBackground (Props.slide p)),
        (Slide.showImage (Props.slide p)),
        (truthy (trim (titleLines (Lesson.titleBody p)))),
        (truthy (trim (bodyLines (Lesson.titleBody p))));
        reflexivity.
  - unfold z_ordered. cbn [compose]. rewrite cinematic_layers.
    unfold cinematicLayers.
    destruct (showBackground (Props.slide p)),
      (Storyteller.isOverlay p
       && truthy_opt (Slide.imageUrl (Props.slide p))),
      (Storyteller.showSplit p
       && truthy_opt (Slide.imageUrl (Props.slide p)));
      reflexivity.
  - cbn [compose]. rewrite cinematic_layers. unfold cinematicLayers.
    destruct (showBackground (Props.slide p)),
      (Storyteller.isOverlay p
       && truthy_opt (Slide.imageUrl (Props.slide p))),
      (Storyteller.showSplit p
       && truthy_opt (Slide.imageUrl (Props.slide p)));
      reflexivity.
  - apply feedText_layers.
  - apply lesson_layers.
Qed.

(** The claim as stated fails in the feed-text template with its default
    layout: the text comes first and the illustration after it, in the same
    layer, so the illustration is not below the text. *)
Lemma z_order_claim_fails : ~ z_order_claim.
Proof.
  intro H.
  specialize (H FeedText (plainProps (pendingImageSlide CONTENT))).
  vm_compute in H. discriminate H.
Qed.

Example feedText_default_paint_order :
  paint_order
    (layers (compose FeedText (plainProps (pendingImageSlide CONTENT))))
  = [(RHeader, Some 10%Z); (RText, Some 10%Z); (RIllustration, Some 10%Z);
     (RFooter, Some 10%Z)].
Proof. vm_compute. reflexivity. Qed.

(* ====================================================================== *)
(** ** The placeholder of a pending illustration *)
(* ====================================================================== *)

Lemma or_num_nonzero o d :
  Qeq_bool d 0 = false -> Qeq_bool (or_num o d) 0 = false.
Proof.
  intro Hd. unfold or_num, num_falsy. destruct o as [q|]; [|exact Hd].
  destruct (Qeq_bool q 0) eqn:E; assumption.
Qed.

Section Placeholder.

Variable p : Props.t.

(** The illustration regions of the feed-text tree are what [renderImage]
    returns, whatever the content layout. *)
Lemma feedText_illustration_regions :
  regions_in is_illustration (Twitter.TwitterSlide p) = Twitter.renderImage p.
Proof.
  unfold Twitter.TwitterSlide, Twitter.renderMainContent, Twitter.renderImage.
  destruct (default_param (Props.forExport p) false),
    (showBackground (Props.slide p)),
    (jeqb (Twitter.contentLayout p) (str "image-first")),
    (jeqb (Twitter.contentLayout p) (str "image-after-title")),
    (Slide.showImage (Props.slide p)),
    (Props.showSlideNumbers p),
    (truthy (trim (titleLines (Twitter.titleBody p)))),
    (truthy (trim (bodyLines (Twitter.titleBody p))));
    reflexivity.
Qed.

Hypothesis shown : Slide.showImage (Props.slide p) = true.
Hypothesis pending : Slide.imageUrl (Props.slide p) = None.

(** The height [renderImage] gives the region: [adjustedHeight]. *)
Lemma feedText_renderImage_pending :
  exists n,
    Twitter.renderImage p = [n]
    /\ has_text (str "Generating...") n = true
    /\ height_of n
       = Some (if Qeq_bool (Twitter.effectiveImageCanvasOffset p) 0
               then Pct (Twitter.imageScale p)
               else CalcPctPlusPx (Twitter.imageScale p)
                      (Twitter.effectiveImageCanvasOffset p)).
Proof.
  unfold Twitter.renderImage, Twitter.imageHeightPercent.
  rewrite shown, pending. cbn [negb truthy_opt].
  eexists. split; [reflexivity|]. split; [reflexivity|].
  unfold height_of. cbn [app style_lookup String.eqb Ascii.eqb Bool.eqb].
  destruct (Qeq_bool (Twitter.effectiveImageCanvasOffset p) 0); reflexivity.
Qed.

Lemma lesson_illustration_pending :
  Lesson.isCover p = false ->
  exists n,
    regions_in is_illustration (Lesson.LessonSlide p) = [n]
    /\ has_text (str "Generating...") n = true
    /\ height_of n = Some (Pct (Lesson.imageScale p)).
Proof.
  intro Hcover.
  unfold Lesson.LessonSlide, Lesson.renderContentWithImage.
  rewrite Hcover, shown, pending. cbn [negb andb truthy_opt].
  destruct (showBackground (Props.slide p)),
    (truthy (trim (titleLines (Lesson.titleBody p)))),
    (truthy (trim (bodyLines (Lesson.titleBody p))));
    (eexists; split; [reflexivity|]; split; reflexivity).
Qed.

(** The cinematic-image template renders the illustration under the guard
    [slide.imageUrl &&]: without a URL there is no illustration region. *)
Lemma cinematic_no_illustration :
  has_illustration (Storyteller.StorytellerSlide p) = false
  /\ regions_in is_illustration (Storyteller.StorytellerSlide p) = [].
Proof.
  split.
  - unfold has_illustration. rewrite cinematic_layers. unfold cinematicLayers.
    rewrite pending. cbn [truthy_opt]. rewrite !andb_false_r.
    destruct (showBackground (Props.slide p)); reflexivity.
  - unfold Storyteller.StorytellerSlide, Storyteller.overlayIllustration,
      Storyteller.splitIllustration.
    rewrite pending. cbn [truthy_opt]. rewrite !andb_false_r.
    destruct (showBackground (Props.slide p)); reflexivity.
Qed.

(** A cover of the lesson template shows the background image, not the
    illustration. *)
Lemma lesson_cover_no_illustration :
  Lesson.isCover p = true ->
  has_illustration (Lesson.LessonSlide p) = false.
Proof.
  intro Hcover.
  unfold has_illustration. rewrite lesson_layers. unfold lessonLayers.
  rewrite Hcover.
  destruct (Lesson.isOverlayMode p), (Lesson.showCoverImage p); reflexivity.
Qed.

End Placeholder.

Lemma Qle_bool_comp x y : x == y -> Qle_bool x 0 = Qle_bool y 0.
Proof.
  intro H. destruct (Qle_bool x 0) eqn:Ex, (Qle_bool y 0) eqn:Ey;
    try reflexivity.
  - apply Qle_bool_iff in Ex. rewrite H in Ex. apply Qle_bool_iff in Ex.
    congruence.
  - apply Qle_bool_iff in Ey. rewrite <- H in Ey. apply Qle_bool_iff in Ey.
    congruence.
Qed.

Lemma scaled_height_positive scale parent :
  0 < scale -> 0 < parent -> Qle_bool (scale * parent / 100) 0 = false.
Proof.
  intros Hs Hp. destruct (Qle_bool (scale * parent / 100) 0) eqn:E;
    [|reflexivity].
  apply Qle_bool_iff in E. exfalso.
  assert (H : 0 < scale * parent / 100).
  { unfold Qdiv. apply Qmult_lt_0_compat; [|reflexivity].
    now apply Qmult_lt_0_compat. }
  apply (Qlt_not_le _ _ H E).
Qed.

(** One region with the indicator shows the placeholder when it has not
    collapsed. *)
Lemma shows_placeholder_one parent root n :
  regions_in is_illustration root = [n] ->
  has_text (str "Generating...") n = true ->
  shows_placeholder parent root = negb (collapsed parent n).
Proof.
  intros Hr Ht. unfold shows_placeholder. rewrite Hr. cbn [existsb].
  rewrite Ht. cbn [andb]. apply orb_false_r.
Qed.

(** C3, as the code has it. A slide that shows an image and has no image
    URL gets one illustration region with the generating indicator in the
    feed-text template (whatever the content layout) and on the slides of
    the lesson template that are not covers. Its height is the image scale
    in percent, which is never 0, in the lesson template and, without an
    image canvas offset, in the feed-text template; with a canvas offset
    the feed-text height is the [calc] of the scale and the offset, so for
    a positive scale the region has not collapsed exactly when the scale
    percent of the containing block plus the offset is positive. The
    cinematic-image template and the covers of the lesson template render
    no illustration region for it. *)
Theorem placeholder_by_template (p : Props.t) :
  Slide.showImage (Props.slide p) = true ->
  Slide.imageUrl (Props.slide p) = None ->
  (exists n,
      regions_in is_illustration (compose FeedText p) = [n]
      /\ has_text (str "Generating...") n = true
      /\ height_of n
         = Some (if Qeq_bool (Twitter.effectiveImageCanvasOffset p) 0
                 then Pct (Twitter.imageScale p)
                 else CalcPctPlusPx (Twitter.imageScale p)
                        (Twitter.effectiveImageCanvasOffset p)))
  /\ ~ Twitter.imageScale p == 0
  /\ (forall parent,
        0 < parent -> 0 < Twitter.imageScale p ->
        shows_placeholder parent (compose FeedText p)
        = negb (Qle_bool (Twitter.imageScale p * parent / 100
                          + Twitter.effectiveImageCanvasOffset p) 0))
  /\ (forall parent,
        0 < parent -> 0 < Twitter.imageScale p ->
        0 <= Twitter.effectiveImageCanvasOffset p ->
        shows_placeholder parent (compose FeedText p) = true)
  /\ (Lesson.isCover p = false ->
      (exists n,
          regions_in is_illustration (compose LessonTemplate p) = [n]
          /\ has_text (str "Generating...") n = true
          /\ height_of n = Some (Pct (Lesson.imageScale p)))
      /\ ~ Lesson.imageScale p == 0
      /\ (forall parent,
            0 < parent -> 0 < Lesson.imageScale p ->
            shows_placeholder parent (compose LessonTemplate p) = true))
  /\ has_illustration (compose Cinematic p) = false
  /\ (forall parent, shows_placeholder parent (compose Cinematic p) = false)
  /\ (Lesson.isCover p = true ->
      has_illustration (compose LessonTemplate p) = false).
Proof.
  intros Hs Hu. cbn [compose].
  destruct (feedText_renderImage_pending p Hs Hu) as (n & Hn & Ht & Hh).
  rewrite <- feedText_illustration_regions in Hn.
  assert (Heq : forall parent,
             shows_placeholder parent (Twitter.TwitterSlide p)
             = negb (Qle_bool (Twitter.imageScale p * parent / 100
                               + Twitter.effectiveImageCanvasOffset p) 0)).
  { intro parent. rewrite (shows_placeholder_one parent _ Hn Ht).
    f_equal. unfold collapsed, used_height. rewrite Hh.
    destruct (Qeq_bool (Twitter.effectiveImageCanvasOffset p) 0) eqn:E;
      [|reflexivity].
    apply Qeq_bool_iff in E. apply Qle_bool_comp. rewrite E. ring. }
  split; [now exists n|].
  split; [unfold Twitter.imageScale; apply Qeq_bool_neq;
          now rewrite or_num_nonzero|].
  split; [intros parent _ _; apply Heq|].
  split.
  { intros parent Hp Hsc Ho. rewrite Heq.
    destruct (Qle_bool _ 0) eqn:E; [|reflexivity].
    apply Qle_bool_iff in E. exfalso.
    pose proof (scaled_height_positive Hsc Hp) as Hpos.
    assert (Hle : Twitter.imageScale p * parent / 100 <= 0).
    { apply Qle_trans with
        (Twitter.imageScale p * parent / 100
         + Twitter.effectiveImageCanvasOffset p); [|exact E].
      rewrite <- (Qplus_0_r (Twitter.imageScale p * parent / 100)) at 1.
      now apply Qplus_le_r. }
    apply Qle_bool_iff in Hle. congruence. }
  split.
  { intro Hcover.
    destruct (lesson_illustration_pending p Hs Hu Hcover)
      as (m & Hm & Htm & Hhm).
    split; [now exists m|].
    split; [unfold Lesson.imageScale; apply Qeq_bool_neq;
            now rewrite or_num_nonzero|].
    intros parent Hp Hsc. rewrite (shows_placeholder_one parent _ Hm Htm).
    unfold collapsed, used_height. rewrite Hhm.
    now rewrite scaled_height_positive. }
  destruct (cinematic_no_illustration p Hu) as [Hc1 Hc2].
  split; [exact Hc1|].
  split; [intro parent; unfold shows_placeholder; now rewrite Hc2|].
  now apply lesson_cover_no_illustration.
Qed.

Lemma placeholder_by_template_witness :
  let p := plainProps (pendingImageSlide CONTENT) in
  let q :=
    plainProps
      (with_illustration None (Some 10) None None None (Some (-200)) None
         (pendingImageSlide CONTENT)) in
  Slide.showImage (Props.slide p) = true
  /\ Slide.imageUrl (Props.slide p) = None
  /\ shows_placeholder 1000 (compose FeedText p) = true
  /\ shows_placeholder 1000 (compose LessonTemplate p) = true
  /\ has_illustration (compose Cinematic p) = false
  /\ shows_placeholder 1000 (compose FeedText q) = false.
Proof.
  intros p q.
  destruct (@placeholder_by_template p eq_refl eq_refl)
    as (_ & _ & _ & H1 & H2 & H3 & _).
  destruct (@placeholder_by_template q eq_refl eq_refl)
    as (_ & _ & H4 & _).
  split; [reflexivity|]. split; [reflexivity|].
  split; [apply H1; [reflexivity | reflexivity | discriminate]|].
  split; [apply H2; reflexivity|].
  split; [exact H3|].
  rewrite H4 by reflexivity. reflexivity.
Defined.

(** The claim as stated fails in the cinematic-image template. *)
Lemma placeholder_claim_fails : ~ placeholder_claim.
Proof.
  intro H.
  specialize (H Cinematic (plainProps (pendingImageSlide CONTENT)) 1
                eq_refl eq_refl eq_refl).
  vm_compute in H. discriminate H.
Qed.

(* ====================================================================== *)
(** ** Preview and export *)
(* ====================================================================== *)

Section ExportParity.

Variable p : Props.t.

Lemma feedText_export_parity :
  strip_transitions (Twitter.TwitterSlide (Props.with_forExport true p))
  = strip_transitions (Twitter.TwitterSlide (Props.with_forExport false p)).
Proof. reflexivity. Qed.

Lemma cinematic_export_parity :
  strip_transitions
    (Storyteller.StorytellerSlide (Props.with_forExport true p))
  = strip_transitions
      (Storyteller.StorytellerSlide (Props.with_forExport false p)).
Proof.
  destruct p as [s pr i t sn hs th fe vb ac fst fsc ls].
  unfold Storyteller.StorytellerSlide, Storyteller.overlayIllustration,
    Storyteller.splitIllustration, Storyteller.isOverlay,
    Storyteller.showSplit, Storyteller.isOverlay.
  cbn [Props.slide Props.with_forExport Props.forExport default_param].
  destruct (showBackground s), (Slide.showImage s),
    (Slide.overlayImage s) as [[|]|], (truthy_opt (Slide.imageUrl s));
    reflexivity.
Qed.

Lemma lesson_export_parity :
  strip_transitions (Lesson.LessonSlide (Props.with_forExport true p))
  = strip_transitions (Lesson.LessonSlide (Props.with_forExport false p)).
Proof.
  destruct p as [s pr i t sn hs th fe vb ac fst fsc ls].
  unfold Lesson.LessonSlide, Lesson.renderCoverSlide,
    Lesson.renderContentWithImage, Lesson.renderContentTextOnly,
    Lesson.isCover, Lesson.isOverlayMode, Lesson.showCoverImage,
    Lesson.isCover, Lesson.titleBody, Lesson.isCover.
  cbn [Props.slide Props.with_forExport Props.forExport default_param].
  destruct (showBackground s), (Slide.showImage s),
    (Slide.overlayImage s) as [[|]|], (truthy_opt (Slide.imageUrl s)),
    (Slide.type s);
    cbn [SlideType_eqb negb andb when];
    try reflexivity;
    destruct
      (truthy (trim (titleLines (splitContentByHeaders (Slide.content s))))),
      (truthy (trim (bodyLines (splitContentByHeaders (Slide.content s)))));
    reflexivity.
Qed.

End ExportParity.

(** C4. For every slide and every template, the tree rendered for export
    and the tree rendered for the preview are the same once the transition
    classes are taken away: same elements, same regions and levels, same
    inline styles (sizes, positions, heights, paddings, colours), same other
    classes. The flag only removes [transition-*] and [duration-*] classes
    from the root and from the images. *)
Theorem export_matches_preview (t : Template) (p : Props.t) :
  strip_transitions (compose t (Props.with_forExport true p))
  = strip_transitions (compose t (Props.with_forExport false p)).
Proof.
  destruct t; cbn [compose].
  - apply feedText_export_parity.
  - apply cinematic_export_parity.
  - apply lesson_export_parity.
Qed.

(* ====================================================================== *)
(** ** Unknown content layouts *)
(* ====================================================================== *)

Section UnknownLayout.

Variables (p : Props.t) (cl : jstring).
Hypothesis not_image_first : cl <> str "image-first".
Hypothesis not_image_after_title : cl <> str "image-after-title".






End UnknownLayout.



(* ====================================================================== *)
(** ** More on the title/body splitter *)
(* ====================================================================== *)

Section SplitterMore.

Lemma join_split_on sep s : join sep (split_on sep s) = s.
Proof.
  induction s as [|c s IH]; simpl; [reflexivity|].
  destruct (char_eqb c sep) eqn:E.
  - apply char_eqb_eq in E. subst c.
    destruct (split_on sep s) as [|l ls] eqn:El.
    + now destruct (split_on_not_nil sep s).
    + change (join sep ([] :: l :: ls)) with (sep :: join sep (l :: ls)).
      now rewrite IH.
  - destruct (split_on sep s) as [|l ls] eqn:El.
    + now destruct (split_on_not_nil sep s).
    + rewrite <- IH. destruct ls; reflexivity.
Qed.

Lemma join_app sep t b :
  t <> [] -> b <> [] -> join sep (t ++ b) = join sep t ++ sep :: join sep b.
Proof.
  induction t as [|l t IH]; intros Ht Hb; [contradiction|].
  destruct t as [|l' t'].
  - simpl. destruct b; [contradiction | reflexivity].
  - change (join sep ((l :: l' :: t') ++ b))
      with (l ++ sep :: join sep ((l' :: t') ++ b)).
    rewrite IH by (discriminate || assumption).
    change (join sep (l :: l' :: t')) with (l ++ sep :: join sep (l' :: t')).
    now rewrite <- app_assoc.
Qed.

(** The first body line is the first line that fails the title test. *)
Lemma split_loop_body_head lines : forall t b,
  split_loop false lines = (t, b) ->
  match b with [] => True | l :: _ => is_title_line l = false end.
Proof.
  induction lines as [|l ls IH]; intros t b H; simpl in H.
  - now injection H as <- <-.
  - destruct (is_title_line l) eqn:E; simpl in H.
    + destruct (split_loop false ls) as [t' b'] eqn:E'.
      injection H as <- <-. now apply (IH t').
    + rewrite split_loop_found in H. now injection H as <- <-.
Qed.

Lemma split_loop_body_only l b :
  is_title_line l = false -> split_loop false (l :: b) = ([], l :: b).
Proof.
  intro H. simpl. rewrite H. simpl. now rewrite split_loop_found.
Qed.

End SplitterMore.

(** X1. The splitter loses nothing: the content is its title part, or its
    body part when no line is a title line, or the title part, a line feed
    and the body part. *)
Theorem splitter_keeps_content (x : jstring) :
  let r := splitContentByHeaders x in
  match splitLines x with
  | ([], _) => titleLines r = [] /\ bodyLines r = x
  | (_ :: _, []) => titleLines r = x /\ bodyLines r = []
  | (_ :: _, _ :: _) => x = titleLines r ++ LF :: bodyLines r
  end.
Proof.
  cbv zeta. unfold splitContentByHeaders, splitLines.
  destruct (split_loop false (split_on LF x)) as [t b] eqn:E.
  cbn [titleLines bodyLines].
  apply split_loop_prefix in E as [Hlines _].
  pose proof (join_split_on LF x) as Hj. rewrite Hlines in Hj.
  destruct t as [|l t]; [|destruct b as [|l' b]].
  - split; [reflexivity | exact Hj].
  - rewrite app_nil_r in Hj. split; [exact Hj | reflexivity].
  - rewrite join_app in Hj by discriminate. now symmetry.
Qed.

(** X2. The body part starts at the first line that is neither a heading
    nor blank: splitting the body part again gives an empty title and the
    same body. *)
Theorem splitter_body_is_body (x : jstring) :
  let body := bodyLines (splitContentByHeaders x) in
  splitContentByHeaders body = {| titleLines := []; bodyLines := body |}.
Proof.
  cbv zeta.
  destruct (split_loop false (split_on LF x)) as [t b] eqn:E.
  assert (Hb : bodyLines (splitContentByHeaders x) = join LF b)
    by (unfold splitContentByHeaders; now rewrite E).
  rewrite Hb. clear Hb.
  pose proof (split_loop_body_head _ E) as Hhead.
  apply split_loop_prefix in E as [Hlines _].
  destruct b as [|l b]; [reflexivity|].
  unfold splitContentByHeaders.
  rewrite split_on_join.
  - now rewrite split_loop_body_only.
  - discriminate.
  - pose proof (split_on_no_sep LF x) as HF. rewrite Hlines in HF.
    apply Forall_app in HF. apply HF.
Qed.

(* ====================================================================== *)
(** ** More on the block renderer *)
(* ====================================================================== *)

Section BlocksMore.

Lemma split_on_length sep s :
  List.length (split_on sep s) = S (count_line_feeds s) \/ sep <> LF.
Proof.
  destruct (N.eq_dec sep LF) as [->|Hne]; [left|now right].
  induction s as [|c s IH]; simpl; [reflexivity|].
  destruct (char_eqb c LF).
  - simpl. now rewrite IH.
  - destruct (split_on LF s); simpl in *; [discriminate | exact IH].
Qed.

Lemma lines_count s :
  List.length (split_on LF s) = S (count_line_feeds s).
Proof. destruct (split_on_length LF s) as [H|H]; [exact H | contradiction]. Qed.

Lemma drop_ws_nil_all l : drop_ws l = [] -> forallb is_ws l = true.
Proof.
  induction l as [|c l IH]; simpl; intro H; [reflexivity|].
  destruct (is_ws c); [now apply IH | discriminate].
Qed.

Lemma drop_ws_all_nil l : forallb is_ws l = true -> drop_ws l = [].
Proof.
  intro H. rewrite <- (app_nil_r l). now rewrite drop_ws_all.
Qed.

Lemma forallb_reverse {A} (f : A -> bool) l :
  forallb f (rev l) = forallb f l.
Proof.
  induction l as [|x l IH]; simpl; [reflexivity|].
  rewrite forallb_app, IH. simpl. rewrite andb_true_r. apply andb_comm.
Qed.

Lemma trimEnd_all_nil s : forallb is_ws s = true -> trimEnd s = [].
Proof.
  intro H. unfold trimEnd. rewrite drop_ws_all_nil; [reflexivity|].
  now rewrite forallb_reverse.
Qed.

(** A string trims to nothing exactly when it is white space only. *)
Lemma trim_nil_iff s : trim s = [] <-> forallb is_ws s = true.
Proof.
  split; intro H.
  - unfold trim, trimStart in H.
    destruct (drop_ws s) as [|c r] eqn:E.
    + now apply drop_ws_nil_all.
    + pose proof (drop_ws_head _ E) as Hc.
      rewrite trimEnd_cons in H by assumption. discriminate.
  - unfold trim, trimStart. now rewrite drop_ws_all_nil.
Qed.

Lemma visible_false_iff s : visible s = false <-> forallb is_ws s = true.
Proof.
  unfold visible. induction s as [|c s IH]; simpl; [tauto|].
  destruct (is_ws c); simpl; [exact IH|].
  split; discriminate.
Qed.

Lemma slice_from_skipn s (k : nat) :
  (k <= List.length s)%nat -> slice_from s (Z.of_nat k) = skipn k s.
Proof.
  intro H. unfold slice_from, slice, clamp_index.
  destruct (Z.of_nat k <? 0)%Z eqn:E1; [lia|].
  destruct (Z.of_nat (List.length s) <? 0)%Z eqn:E2; [lia|].
  rewrite Z.min_id, (Z.min_l (Z.of_nat k)) by lia.
  rewrite Nat2Z.id.
  apply firstn_all2. rewrite length_skipn. lia.
Qed.

End BlocksMore.

(** X3. The block renderer of every template returns one element per line
    of the content: one more than the content has line feeds, so never
    none. *)
Theorem one_block_per_line (text : jstring) :
  (forall theme fs lh pg tco ta,
      List.length (Twitter.renderMarkdown theme fs lh pg tco ta text)
      = S (count_line_feeds text))
  /\ (forall theme ac fs lh pg tco ta,
        List.length (Storyteller.renderMarkdown theme ac fs lh pg tco ta text)
        = S (count_line_feeds text))
  /\ (forall theme ac fs lh pg ta,
        List.length (Lesson.renderMarkdown theme ac fs lh pg ta text)
        = S (count_line_feeds text)).
Proof.
  repeat split; intros;
    unfold Twitter.renderMarkdown, Storyteller.renderMarkdown,
      Lesson.renderMarkdown;
    rewrite length_map; apply lines_count.
Qed.

(** X4. A line is a spacer exactly when it is made of white space only
    (the empty line included). *)
Theorem spacer_iff_blank (line : jstring) :
  classify_line line = BSpacer <-> forallb is_ws line = true.
Proof.
  split.
  - unfold classify_line.
    destruct (startsWith (str "# ") line); [discriminate|].
    destruct (startsWith (str "## ") line); [discriminate|].
    destruct (startsWith (str "- ") (trim line)); [discriminate|].
    destruct (test_numbered (trim line)); [discriminate|].
    destruct (trim line) as [|c r] eqn:E; [|discriminate].
    intros _. now apply trim_nil_iff.
  - intro H. pose proof (proj2 (trim_nil_iff line) H) as Ht.
    unfold classify_line. rewrite Ht.
    destruct line as [|w line']; [reflexivity|].
    simpl in H. apply andb_true_iff in H as [Hw _].
    change (str "# ") with (35%N :: str " ").
    change (str "## ") with (35%N :: str "# ").
    rewrite !startsWith_ws_head by (reflexivity || assumption).
    reflexivity.
Qed.

Section HeadingsAndBullets.

Variable rest : jstring.

Lemma trim_marker_blank c :
  is_ws c = false -> visible rest = false ->
  trim (c :: 32%N :: rest) = [c].
Proof.
  intros Hc Hv. rewrite trim_cons by assumption. f_equal.
  apply trimEnd_all_nil. simpl. now apply visible_false_iff.
Qed.

Lemma h1_title_line : is_title_line (str "# " ++ rest) = visible rest.
Proof.
  unfold is_title_line. change (str "# " ++ rest) with (35%N :: 32%N :: rest).
  destruct (visible rest) eqn:Hv.
  - rewrite trim_cons by reflexivity.
    rewrite trimEnd_cons_visible by exact Hv. reflexivity.
  - rewrite trim_marker_blank by (reflexivity || assumption). reflexivity.
Qed.

Lemma h2_title_line : is_title_line (str "## " ++ rest) = visible rest.
Proof.
  unfold is_title_line.
  change (str "## " ++ rest) with (35%N :: 35%N :: 32%N :: rest).
  rewrite trim_cons by reflexivity.
  destruct (visible rest) eqn:Hv.
  - rewrite trimEnd_cons by reflexivity.
    rewrite trimEnd_cons_visible by exact Hv. reflexivity.
  - rewrite trimEnd_cons by reflexivity.
    rewrite trimEnd_all_nil; [reflexivity|].
    simpl. now apply visible_false_iff.
Qed.

End HeadingsAndBullets.

(** X5. A line that starts with a heading marker is a heading for the
    block renderer, with the rest of the line as its text, whatever the
    rest is. The splitter takes it for a title line only when the rest has
    a code unit that is not white space: a heading without text is a
    heading for the renderer and body text for the splitter. *)
Theorem heading_renderer_and_splitter (rest : jstring) :
  classify_line (str "# " ++ rest) = BH1 rest
  /\ classify_line (str "## " ++ rest) = BH2 rest
  /\ is_title_line (str "# " ++ rest) = visible rest
  /\ is_title_line (str "## " ++ rest) = visible rest.
Proof.
  split; [|split; [|split]].
  - unfold classify_line. rewrite startsWith_app.
    change 2%Z with (Z.of_nat 2). rewrite slice_from_skipn; [reflexivity|].
    simpl. lia.
  - unfold classify_line.
    change (startsWith (str "# ") (str "## " ++ rest)) with false.
    rewrite startsWith_app.
    change 3%Z with (Z.of_nat 3). rewrite slice_from_skipn; [reflexivity|].
    simpl. lia.
  - apply h1_title_line.
  - apply h2_title_line.
Qed.

(** X6. A line made of white space, a bullet marker and a text that is not
    blank is a bullet item; the text handed to the inline parser is the raw
    line without its first two code units. For a bullet that is not
    indented this is the text after the marker; for an indented one it
    still holds the marker or part of the indentation. *)
Theorem bullet_item_text (ws rest : jstring) :
  forallb is_ws ws = true -> visible rest = true ->
  classify_line (ws ++ str "- " ++ rest)
  = BBullet (skipn 2 (ws ++ str "- " ++ rest)).
Proof.
  intros Hws Hv. unfold classify_line.
  assert (H1 : startsWith (str "# ") (ws ++ str "- " ++ rest) = false).
  { destruct ws as [|w ws']; [reflexivity|].
    simpl in Hws. apply andb_true_iff in Hws as [Hw _].
    now apply startsWith_ws_head. }
  assert (H2 : startsWith (str "## ") (ws ++ str "- " ++ rest) = false).
  { destruct ws as [|w ws']; [reflexivity|].
    simpl in Hws. apply andb_true_iff in Hws as [Hw _].
    now apply startsWith_ws_head. }
  rewrite H1, H2, trim_leading by assumption.
  change (str "- " ++ rest) with (45%N :: 32%N :: rest).
  rewrite trim_cons by reflexivity.
  rewrite trimEnd_cons_visible by exact Hv.
  change (startsWith (str "- ") (45%N :: 32%N :: trimEnd rest)) with true.
  cbv iota. change 2%Z with (Z.of_nat 2).
  rewrite slice_from_skipn; [reflexivity|].
  rewrite length_app. simpl. lia.
Qed.

Lemma bullet_item_text_witness :
  forallb is_ws (str "  ") = true
  /\ visible (str "item") = true
  /\ classify_line (str "  - item") = BBullet (str "- item")
  /\ classify_line (str "- item") = BBullet (str "item").
Proof.
  split; [reflexivity|]. split; [reflexivity|]. split.
  - exact (@bullet_item_text (str "  ") (str "item") eq_refl eq_refl).
  - exact (@bullet_item_text [] (str "item") eq_refl eq_refl).
Defined.

(* ====================================================================== *)
(** ** More on the inline parser *)
(* ====================================================================== *)

Section InlineMore.

Lemma token_alt_head d0 d s tok :
  token_alt (d0 :: d) s = Some tok -> exists r, s = d0 :: r.
Proof.
  unfold token_alt. destruct (startsWith (d0 :: d) s) eqn:E; [|discriminate].
  intros _. now apply startsWith_head in E.
Qed.

(** A token starts with a delimiter code unit. *)
Lemma token_at_head s tok :
  token_at s = Some tok -> exists c r, s = c :: r /\ is_delimiter c = true.
Proof.
  unfold token_at, orelse. intro H.
  destruct (token_alt (str "**") s) eqn:E1.
  { destruct (token_alt_head _ _ _ E1) as [r ->]. now exists 42%N, r. }
  destruct (token_alt (str "*") s) eqn:E2.
  { destruct (token_alt_head _ _ _ E2) as [r ->]. now exists 42%N, r. }
  destruct (token_alt (str "~~") s) eqn:E3.
  { destruct (token_alt_head _ _ _ E3) as [r ->]. now exists 126%N, r. }
  destruct (token_alt_head _ _ _ H) as [r ->]. now exists 95%N, r.
Qed.

Lemma split_tokens_plain s : forall lit,
  plain_text s = true -> split_tokens 0 lit s = [lit ++ s].
Proof.
  induction s as [|c s IH]; intros lit H; simpl.
  - now rewrite app_nil_r.
  - simpl in H. apply andb_true_iff in H as [Hc Hs].
    destruct (token_at (c :: s)) as [tok|] eqn:E.
    + destruct (token_at_head _ E) as (c' & r & Heq & Hd).
      injection Heq as <- _. rewrite Hd in Hc. discriminate.
    + rewrite IH by assumption. now rewrite <- app_assoc.
Qed.

Lemma startsWith_not_head d0 d c s :
  char_eqb d0 c = false -> startsWith (d0 :: d) (c :: s) = false.
Proof. intro H. simpl. now rewrite H. Qed.

(** A part that does not start with a delimiter code unit is literal. *)
Lemma classify_part_plain_head part :
  match part with [] => True | c :: _ => is_delimiter c = false end ->
  classify_part part = Lit part.
Proof.
  destruct part as [|c part]; intro H; [reflexivity|].
  unfold is_delimiter in H.
  apply orb_false_iff in H as [H H3]. apply orb_false_iff in H as [H1 H2].
  unfold classify_part.
  change (str "**") with (42%N :: str "*").
  change (str "*") with (42%N :: []).
  change (str "~~") with (126%N :: str "~").
  change (str "__") with (95%N :: str "_").
  rewrite !startsWith_not_head;
    try reflexivity; unfold char_eqb; rewrite N.eqb_sym; assumption.
Qed.

Lemma endsWith_app d x : endsWith d (x ++ d) = true.
Proof.
  unfold endsWith. rewrite rev_app_distr. apply startsWith_app.
Qed.

(** Slicing the delimiters off both ends. *)
Lemma slice_strip (a b c : jstring) :
  c <> [] ->
  slice (a ++ b ++ c) (Z.of_nat (List.length a)) (- Z.of_nat (List.length c))
  = b.
Proof.
  intro Hc. unfold slice, clamp_index.
  assert (Hlen : (0 < List.length c)%nat)
    by (destruct c; [contradiction | simpl; lia]).
  rewrite !length_app.
  destruct (Z.of_nat (List.length a) <? 0)%Z eqn:E1;
    [apply Z.ltb_lt in E1; lia|].
  destruct (- Z.of_nat (List.length c) <? 0)%Z eqn:E2;
    [|apply Z.ltb_ge in E2; lia].
  rewrite Z.min_l by lia. rewrite Z.max_l by lia.
  rewrite Nat2Z.id.
  rewrite skipn_app, skipn_all, Nat.sub_diag. simpl.
  replace (Z.to_nat _) with (List.length b) by lia.
  rewrite firstn_app, firstn_all, Nat.sub_diag. simpl.
  apply app_nil_r.
Qed.

(** What the lazy scan returns ends with the closing delimiter; for a
    delimiter of one code unit the body does not hold it. *)
Lemma lazy_until_closing d : forall s b,
  lazy_until d s = Some b -> exists body, b = body ++ d.
Proof.
  induction s as [|c s IH]; intros b H; simpl in H.
  - destruct (startsWith d []); [|discriminate].
    injection H as <-. now exists [].
  - destruct (startsWith d (c :: s)).
    + injection H as <-. now exists [].
    + destruct (is_line_terminator c); [discriminate|].
      destruct (lazy_until d s) as [b'|]; [|discriminate].
      injection H as <-. destruct (IH _ eq_refl) as [body ->].
      now exists (c :: body).
Qed.

Lemma lazy_until_cons d c s :
  lazy_until d (c :: s)
  = if startsWith d (c :: s) then Some d
    else if is_line_terminator c then None
         else match lazy_until d s with
              | Some b => Some (c :: b)
              | None => None
              end.
Proof. reflexivity. Qed.

Lemma lazy_until_star : forall s b,
  lazy_until (str "*") s = Some b ->
  exists body, b = body ++ str "*"
               /\ match body with [] => True | c :: _ => c <> 42%N end.
Proof.
  induction s as [|c s IH]; intros b H; [discriminate|].
  rewrite lazy_until_cons in H.
  destruct (startsWith (str "*") (c :: s)) eqn:E.
  - injection H as <-. now exists [].
  - destruct (is_line_terminator c); [discriminate|].
    destruct (lazy_until (str "*") s) as [b'|]; [|discriminate].
    injection H as <-. destruct (IH _ eq_refl) as (body & -> & _).
    exists (c :: body). split; [reflexivity|].
    intros ->. discriminate.
Qed.

Lemma token_alt_shape d s tok :
  token_alt d s = Some tok -> exists body, tok = d ++ body ++ d.
Proof.
  unfold token_alt. destruct (startsWith d s); [|discriminate].
  destruct (lazy_until d (skipn (List.length d) s)) as [b|] eqn:E;
    [|discriminate].
  intro H. injection H as <-.
  destruct (lazy_until_closing _ _ E) as [body ->]. now exists body.
Qed.

Lemma classify_bold body :
  classify_part (str "**" ++ body ++ str "**") = Strong body.
Proof.
  unfold classify_part. rewrite startsWith_app.
  rewrite (app_assoc (str "**")), endsWith_app, <- app_assoc. cbn [andb].
  f_equal. apply (@slice_strip (str "**") body (str "**")). discriminate.
Qed.

Lemma classify_strike body :
  classify_part (str "~~" ++ body ++ str "~~") = Strike body.
Proof.
  unfold classify_part.
  change (startsWith (str "**") (str "~~" ++ body ++ str "~~")) with false.
  change (startsWith (str "*") (str "~~" ++ body ++ str "~~")) with false.
  rewrite startsWith_app.
  rewrite (app_assoc (str "~~")), endsWith_app, <- app_assoc. cbn [andb].
  f_equal. apply (@slice_strip (str "~~") body (str "~~")). discriminate.
Qed.

Lemma classify_mark body :
  classify_part (str "__" ++ body ++ str "__") = Mark body.
Proof.
  unfold classify_part.
  change (startsWith (str "**") (str "__" ++ body ++ str "__")) with false.
  change (startsWith (str "*") (str "__" ++ body ++ str "__")) with false.
  change (startsWith (str "~~") (str "__" ++ body ++ str "__")) with false.
  rewrite startsWith_app.
  rewrite (app_assoc (str "__")), endsWith_app, <- app_assoc. cbn [andb].
  f_equal. apply (@slice_strip (str "__") body (str "__")). discriminate.
Qed.

Lemma classify_italic c body :
  c <> 42%N ->
  classify_part (str "*" ++ (c :: body) ++ str "*") = Em (c :: body).
Proof.
  intro Hc. unfold classify_part.
  assert (H : startsWith (str "**") (str "*" ++ (c :: body) ++ str "*")
              = false).
  { change (str "*" ++ (c :: body) ++ str "*")
      with (42%N :: c :: body ++ str "*").
    change (str "**") with [42%N; 42%N]. cbn [startsWith].
    destruct (char_eqb 42%N c) eqn:E.
    - apply char_eqb_eq in E. congruence.
    - apply andb_false_r. }
  rewrite H. cbn [andb].
  rewrite startsWith_app.
  rewrite (app_assoc (str "*")), endsWith_app, <- app_assoc. cbn [andb].
  f_equal. apply (@slice_strip (str "*") (c :: body) (str "*")). discriminate.
Qed.

End InlineMore.

(** X7. A text without asterisk, tilde and underscore is passed through
    whole: the inline parser of every template returns it as one literal
    run, the empty text included. *)
Theorem plain_text_unchanged (text : jstring) :
  plain_text text = true ->
  inline_runs text = [Lit text]
  /\ (forall theme, Twitter.parseInline text theme = [Txt text])
  /\ (forall theme ac, Storyteller.parseInline text theme ac = [Txt text])
  /\ (forall theme ac, Lesson.parseInline text theme ac = [Txt text]).
Proof.
  intro H.
  assert (Hs : split_inline text = [text])
    by (unfold split_inline; now rewrite split_tokens_plain).
  assert (Hc : classify_part text = Lit text).
  { apply classify_part_plain_head. destruct text as [|c r]; [exact I|].
    simpl in H. apply andb_true_iff in H as [Hc _].
    now apply negb_true_iff in Hc. }
  repeat split; intros;
    unfold inline_runs, Twitter.parseInline, Storyteller.parseInline,
      Lesson.parseInline, parseInlineAccent;
    rewrite Hs; cbn [map]; now rewrite Hc.
Qed.

Lemma plain_text_unchanged_witness :
  plain_text (str "Hello, world - 2 + 2") = true
  /\ inline_runs (str "Hello, world - 2 + 2")
     = [Lit (str "Hello, world - 2 + 2")].
Proof.
  split; [reflexivity|].
  exact (proj1 (@plain_text_unchanged (str "Hello, world - 2 + 2") eq_refl)).
Defined.

(** X8. Every token the expression captures is shown as a styled run,
    never as literal text, and the run holds the token without its
    delimiters. The one exception is the token of two asterisks, which the
    italic alternative captures with an empty body: it is shown as an empty
    bold run. *)
Theorem token_is_styled (s tok : jstring) :
  token_at s = Some tok ->
  is_literal (classify_part tok) = false
  /\ (restore (classify_part tok) = tok
      \/ (tok = str "**" /\ classify_part tok = Strong [])).
Proof.
  unfold token_at, orelse. intro H.
  destruct (token_alt (str "**") s) as [t1|] eqn:E1.
  { injection H as <-. destruct (token_alt_shape _ _ E1) as [body ->].
    rewrite classify_bold. split; [reflexivity | now left]. }
  destruct (token_alt (str "*") s) as [t2|] eqn:E2.
  { injection H as <-. clear E1. unfold token_alt in E2.
    destruct (startsWith (str "*") s); [|discriminate].
    destruct (lazy_until (str "*") (skipn (List.length (str "*")) s))
      as [b|] eqn:E; [|discriminate].
    injection E2 as <-.
    destruct (lazy_until_star _ E) as (body & -> & Hbody).
    destruct body as [|c body].
    - split; [reflexivity | right; split; reflexivity].
    - change (42%N :: (c :: body) ++ str "*")
        with (str "*" ++ (c :: body) ++ str "*").
      rewrite classify_italic by assumption.
      split; [reflexivity | now left]. }
  destruct (token_alt (str "~~") s) as [t3|] eqn:E3.
  { injection H as <-. destruct (token_alt_shape _ _ E3) as [body ->].
    rewrite classify_strike. split; [reflexivity | now left]. }
  destruct (token_alt_shape _ _ H) as [body ->].
  rewrite classify_mark. split; [reflexivity | now left].
Qed.

Lemma token_is_styled_witness :
  token_at (str "~~old~~ new") = Some (str "~~old~~")
  /\ classify_part (str "~~old~~") = Strike (str "old")
  /\ restore (classify_part (str "~~old~~")) = str "~~old~~".
Proof.
  split; [reflexivity|]. split; [reflexivity|].
  destruct (@token_is_styled (str "~~old~~ new") (str "~~old~~") eq_refl)
    as [_ [H|[H _]]]; [exact H | discriminate H].
Defined.

(* ====================================================================== *)
(** ** Layout arithmetic and what a hidden part cannot change *)
(* ====================================================================== *)



(** X10. A hidden illustration leaves no trace in the feed-text and
    cinematic-image templates: when the slide does not show its image, the
    tree does not depend on the image URL, the image scale, the overlay
    mode, the crop offset, the gradient height, the canvas offset or the
    image margin of the slide. *)
Theorem hidden_illustration_has_no_effect (p : Props.t)
  (imageUrl : option jstring) (imageScale : option Q)
  (overlayImage : option bool)
  (imageOffsetY gradientHeight imageCanvasOffset imageMargin : option Q) :
  Slide.showImage (Props.slide p) = false ->
  let p' :=
    Props.with_slide
      (with_illustration imageUrl imageScale overlayImage imageOffsetY
         gradientHeight imageCanvasOffset imageMargin (Props.slide p)) p in
  compose FeedText p' = compose FeedText p
  /\ compose Cinematic p' = compose Cinematic p.
Proof.
  destruct p as [s pr i t sn hs th fe vb ac fst fsc ls].
  destruct s. cbn [Props.slide Slide.showImage]. intros ->.
  split; reflexivity.
Qed.

Lemma hidden_illustration_has_no_effect_witness :
  let p := plainProps (plainSlide (str "# Title")) in
  Slide.showImage (Props.slide p) = false
  /\ compose FeedText
       (Props.with_slide
          (with_illustration (Some (str "https://example.com/a.png"))
             (Some 70) (Some false) (Some 10) (Some 30) (Some 40) (Some 8)
             (Props.slide p)) p)
     = compose FeedText p.
Proof.
  intro p. split; [reflexivity|].
  exact (proj1 (@hidden_illustration_has_no_effect p
                  (Some (str "https://example.com/a.png")) (Some 70)
                  (Some false) (Some 10) (Some 30) (Some 40) (Some 8)
                  eq_refl)).
Defined.

(** X11. Without a background image the background styling is dead: when
    the slide does not show a background image, or has no URL for it, the
    feed-text and cinematic-image trees do not depend on the overlay
    colour, the overlay opacity or the background text colour of the
    slide; in particular the text keeps the colours of the theme. *)
Theorem background_style_needs_background (p : Props.t)
  (overlayColor : option jstring) (overlayOpacity : option Q)
  (textColor : option jstring) :
  showBackground (Props.slide p) = false ->
  let p' :=
    Props.with_slide
      (with_backgroundStyle overlayColor overlayOpacity textColor
         (Props.slide p)) p in
  compose FeedText p' = compose FeedText p
  /\ compose Cinematic p' = compose Cinematic p
  /\ Twitter.textColorOverride p' = None
  /\ Storyteller.textColorOverride p' = None.
Proof.
  destruct p as [s pr i t sn hs th fe vb ac fst fsc ls].
  destruct s as [id ty co iu si ip isc oi ioy gh fs fsl cl sbi burl boc boo
                 cp ico im tlh pg btc sth its ta].
  unfold showBackground. cbn [Props.slide Slide.showBackgroundImage
                              Slide.backgroundImageUrl].
  intro H.
  destruct sbi as [[|]|]; destruct burl as [[|c u]|];
    try discriminate H; repeat split; reflexivity.
Qed.

Lemma background_style_needs_background_witness :
  let p := plainProps (plainSlide (str "# Title")) in
  showBackground (Props.slide p) = false
  /\ compose Cinematic
       (Props.with_slide
          (with_backgroundStyle (Some (str "#ff0000")) (Some 80)
             (Some (str "#00ff00")) (Props.slide p)) p)
     = compose Cinematic p.
Proof.
  intro p. split; [reflexivity|].
  destruct (@background_style_needs_background p (Some (str "#ff0000"))
              (Some 80) (Some (str "#00ff00")) eq_refl) as (_ & H & _).
  exact H.
Defined.

(* ====================================================================== *)
(** ** Instagram URLs and the stored key *)
(* ====================================================================== *)

Section InstagramFacts.
Import Instagram.

(** X12. Normalizing a URL is idempotent and its result always starts
    with [http]. *)
Theorem normalize_idempotent (url : jstring) :
  normalizeInstagramUrl (normalizeInstagramUrl url)
  = normalizeInstagramUrl url
  /\ startsWith (str "http") (normalizeInstagramUrl url) = true.
Proof.
  unfold normalizeInstagramUrl.
  destruct (startsWith (str "http") url) eqn:E; cbn [negb].
  - now rewrite E.
  - split; reflexivity.
Qed.

Lemma getItem_setItem k v st : getItem k (setItem k v st) = Some v.
Proof.
  unfold setItem. simpl.
  now rewrite (proj2 (jeqb_eq k k) eq_refl).
Qed.

Lemma getItem_filter_other k k' st :
  k <> k' ->
  getItem k' (filter (fun e => negb (jeqb (fst e) k)) st) = getItem k' st.
Proof.
  intro Hne. induction st as [|[a v] st IH]; simpl; [reflexivity|].
  destruct (jeqb a k) eqn:E; simpl.
  - apply jeqb_eq in E. subst a.
    rewrite (jeqb_neq Hne). exact IH.
  - destruct (jeqb a k'); [reflexivity | exact IH].
Qed.

Lemma getItem_setItem_other k k' v st :
  k <> k' -> getItem k' (setItem k v st) = getItem k' st.
Proof.
  intro Hne. unfold setItem. simpl.
  rewrite (jeqb_neq Hne). now apply getItem_filter_other.
Qed.

Lemma getApifyApiKey_set key st :
  getApifyApiKey (setApifyApiKey key st) = key.
Proof.
  unfold getApifyApiKey, setApifyApiKey. rewrite getItem_setItem.
  unfold or_str. now destruct key.
Qed.

(** X13. The key read back after saving is the key saved, and a key is
    reported present exactly when the saved one is not empty; saving the
    key leaves every other entry of the storage as it was. *)
Theorem apify_key_round_trip (key : jstring) (st : Storage) :
  getApifyApiKey (setApifyApiKey key st) = key
  /\ hasApifyApiKey (setApifyApiKey key st) = truthy key
  /\ (forall k,
        getItem k (setApifyApiKey key st)
        = if jeqb APIFY_KEY_STORAGE k then Some key else getItem k st)
  /\ getApifyApiKey [] = [].
Proof.
  pose proof (getApifyApiKey_set key st) as H.
  split; [exact H|]. split; [|split].
  - unfold hasApifyApiKey. now rewrite H.
  - intro k. unfold setApifyApiKey.
    destruct (jeqb APIFY_KEY_STORAGE k) eqn:E.
    + apply jeqb_eq in E. rewrite <- E. apply getItem_setItem.
    + apply getItem_setItem_other. intro Heq.
      apply jeqb_eq in Heq. congruence.
  - reflexivity.
Qed.

Lemma slice_head s (n : nat) :
  (n <= List.length s)%nat -> slice s 0 (Z.of_nat n) = firstn n s.
Proof.
  intro H. unfold slice, clamp_index.
  destruct (0 <? 0)%Z eqn:E0; [discriminate|].
  destruct (Z.of_nat n <? 0)%Z eqn:E1; [apply Z.ltb_lt in E1; lia|].
  rewrite Z.min_l by lia. rewrite Z.min_l by lia.
  rewrite Z.sub_0_r, Nat2Z.id. reflexivity.
Qed.

Lemma slice_tail s (n : nat) :
  (0 < n <= List.length s)%nat ->
  slice_from s (- Z.of_nat n) = skipn (List.length s - n) s.
Proof.
  intro H. unfold slice_from, slice, clamp_index.
  destruct (- Z.of_nat n <? 0)%Z eqn:E1; [|apply Z.ltb_ge in E1; lia].
  destruct (Z.of_nat (List.length s) <? 0)%Z eqn:E2;
    [apply Z.ltb_lt in E2; lia|].
  rewrite Z.max_l by lia. rewrite Z.min_id.
  replace (Z.to_nat (Z.of_nat (List.length s) + - Z.of_nat n))
    with (List.length s - n)%nat by lia.
  apply firstn_all2. rewrite length_skipn. lia.
Qed.

(** X14. The masked key never shows more than twelve code units of the
    key: nothing of a key of up to twelve code units, which is shown as
    four asterisks, and the first eight and the last four of a longer one,
    around three dots; it is at most fifteen code units long. *)
Theorem masked_key_shape (st : Storage) :
  let key := getApifyApiKey st in
  let masked := getApifyApiKeyMasked st in
  (List.length masked <= 15)%nat
  /\ match key with
     | [] => masked = []
     | _ :: _ =>
         if (List.length key <=? 12)%nat then masked = str "****"
         else masked
              = firstn 8 key ++ str "..." ++ skipn (List.length key - 4) key
     end.
Proof.
  cbv zeta. unfold getApifyApiKeyMasked.
  destruct (getApifyApiKey st) as [|c key] eqn:E; cbn [truthy negb].
  - split; [simpl; lia | reflexivity].
  - destruct (List.length (c :: key) <=? 12)%nat eqn:El.
    + split; [simpl; lia | reflexivity].
    + apply Nat.leb_gt in El.
      change 8%Z with (Z.of_nat 8). change (-4)%Z with (- Z.of_nat 4)%Z.
      rewrite slice_head by lia. rewrite slice_tail by lia.
      split; [|reflexivity].
      rewrite !length_app, length_firstn, length_skipn.
      change (List.length (str "...")) with 3%nat. lia.
Qed.

End InstagramFacts.

Section InstagramUrls.
Import Instagram.

Lemma lit_inv p k s m r :
  lit p k s = Some (m, r) ->
  exists m', m = p ++ m' /\ s = p ++ skipn (List.length p) s
             /\ k (skipn (List.length p) s) = Some (m', r).
Proof.
  unfold lit. destruct (startsWith p s) eqn:E; [|discriminate].
  destruct (k (skipn (List.length p) s)) as [[m' r']|] eqn:Ek; [|discriminate].
  intro H. injection H as <- <-. exists m'. repeat split.
  destruct (startsWith_inv _ _ E) as [t ->].
  now rewrite skipn_app, skipn_all, Nat.sub_diag.
Qed.

Lemma span_id_spec s : forall i r,
  span_id s = (i, r) -> s = i ++ r /\ forallb is_id_char i = true.
Proof.
  induction s as [|c s IH]; intros i r H; simpl in H.
  - injection H as <- <-. now split.
  - destruct (is_id_char c) eqn:E.
    + destruct (span_id s) as [i' r'].
      injection H as <- <-. destruct (IH _ _ eq_refl) as [-> Hi].
      split; [reflexivity|]. simpl. now rewrite E, Hi.
    + injection H as <- <-. now split.
Qed.

Lemma id_run_inv s i r :
  id_run s = Some (i, r) ->
  i <> [] /\ forallb is_id_char i = true /\ s = i ++ r.
Proof.
  unfold id_run. destruct (span_id s) as [[|c i'] r'] eqn:E; [discriminate|].
  intro H. injection H as <- <-.
  destruct (span_id_spec _ E) as [-> Hi].
  repeat split; [discriminate | exact Hi].
Qed.

(** The kind and the code of a match of the path. *)
Lemma path_inv s m r :
  path s = Some (m, r) ->
  exists kind code,
    m = kind ++ str "/" ++ code
    /\ (kind = str "p" \/ kind = str "reel" \/ kind = str "reels")
    /\ code <> [] /\ forallb is_id_char code = true.
Proof.
  assert (Hk : forall kind m0 r0,
             lit kind (lit (str "/") id_run) s = Some (m0, r0) ->
             exists code, m0 = kind ++ str "/" ++ code
                          /\ code <> [] /\ forallb is_id_char code = true).
  { intros kind m0 r0 H.
    destruct (lit_inv _ _ _ H) as (m1 & -> & _ & H1).
    destruct (lit_inv _ _ _ H1) as (m2 & -> & _ & H2).
    destruct (id_run_inv _ H2) as (Hne & Hid & _).
    now exists m2. }
  unfold path, orelse. intro H.
  destruct (lit (str "p") (lit (str "/") id_run) s) as [[m1 r1]|] eqn:E1.
  { injection H as <- <-. destruct (Hk _ _ _ E1) as (code & -> & Hc).
    exists (str "p"), code. intuition. }
  destruct (lit (str "reel") (lit (str "/") id_run) s) as [[m2 r2]|] eqn:E2.
  { injection H as <- <-. destruct (Hk _ _ _ E2) as (code & -> & Hc).
    exists (str "reel"), code. intuition. }
  destruct (Hk _ _ _ H) as (code & -> & Hc).
  exists (str "reels"), code. intuition.
Qed.

Lemma host_inv s m r :
  lit (str "instagram.com/") path s = Some (m, r) ->
  exists kind code,
    m = str "instagram.com/" ++ kind ++ str "/" ++ code
    /\ (kind = str "p" \/ kind = str "reel" \/ kind = str "reels")
    /\ code <> [] /\ forallb is_id_char code = true.
Proof.
  intro H. destruct (lit_inv _ _ _ H) as (m1 & -> & _ & H1).
  destruct (path_inv _ H1) as (kind & code & -> & Hk).
  now exists kind, code.
Qed.

Lemma www_inv s m r :
  optional (lit (str "www.")) (lit (str "instagram.com/") path) s
  = Some (m, r) ->
  exists www kind code,
    m = www ++ str "instagram.com/" ++ kind ++ str "/" ++ code
    /\ (www = [] \/ www = str "www.")
    /\ (kind = str "p" \/ kind = str "reel" \/ kind = str "reels")
    /\ code <> [] /\ forallb is_id_char code = true.
Proof.
  unfold optional, orelse. intro H.
  destruct (lit (str "www.") (lit (str "instagram.com/") path) s)
    as [[m1 r1]|] eqn:E1.
  - injection H as <- <-. destruct (lit_inv _ _ _ E1) as (m2 & -> & _ & H2).
    destruct (host_inv _ H2) as (kind & code & -> & Hk & Hne & Hid).
    exists (str "www."), kind, code. intuition.
  - destruct (host_inv _ H) as (kind & code & -> & Hk & Hne & Hid).
    exists [], kind, code. intuition.
Qed.

(** What the expression matches has the shape of a post URL. *)
Lemma url_at_shape s m r : url_at s = Some (m, r) -> url_shape m.
Proof.
  unfold url_at, optional at 1, orelse. intro H.
  destruct
    (scheme (optional (lit (str "www.")) (lit (str "instagram.com/") path)) s)
    as [[m1 r1]|] eqn:E1.
  - injection H as <- <-. unfold scheme in E1.
    destruct (lit_inv _ _ _ E1) as (m2 & -> & _ & H2).
    unfold optional at 1, orelse in H2.
    match type of H2 with
    | match ?a with _ => _ end = _ => destruct a as [[m3 r3]|] eqn:E3
    end.
    + injection H2 as <- <-.
      destruct (lit_inv _ _ _ E3) as (m4 & -> & _ & H4).
      destruct (lit_inv _ _ _ H4) as (m5 & -> & _ & H5).
      destruct (www_inv _ H5) as (w0 & kind & code & -> & Hw & Hk & Hne & Hid).
      exists (str "https://"), w0, kind, code. intuition.
    + destruct (lit_inv _ _ _ H2) as (m5 & -> & _ & H5).
      destruct (www_inv _ H5) as (w0 & kind & code & -> & Hw & Hk & Hne & Hid).
      exists (str "http://"), w0, kind, code. intuition.
  - destruct (www_inv _ H) as (w0 & kind & code & -> & Hw & Hk & Hne & Hid).
    exists [], w0, kind, code. intuition.
Qed.

Lemma scan_shape s : forall skip, Forall url_shape (scan skip s).
Proof.
  induction s as [|c s IH]; intro skip; [constructor|].
  cbn [scan]. destruct skip as [|k]; [|apply IH].
  destruct (url_at (c :: s)) as [[m r]|] eqn:E; [|apply IH].
  constructor; [exact (url_at_shape _ E) | apply IH].
Qed.

Lemma scan_skip_all s : forall skip,
  (List.length s <= skip)%nat -> scan skip s = [].
Proof.
  induction s as [|c s IH]; intros skip H; [reflexivity|].
  cbn [List.length] in H. destruct skip as [|k]; [lia|].
  cbn [scan]. apply IH. lia.
Qed.

Lemma span_id_all code :
  forallb is_id_char code = true -> span_id code = (code, []).
Proof.
  induction code as [|c code IH]; [reflexivity|].
  cbn [forallb span_id]. intro H. apply andb_prop in H as [Hc Hr].
  rewrite Hc, (IH Hr). reflexivity.
Qed.

Lemma id_run_all code :
  code <> [] -> forallb is_id_char code = true ->
  id_run code = Some (code, []).
Proof.
  intros Hne Hid. unfold id_run. rewrite (span_id_all _ Hid).
  destruct code; [contradiction|reflexivity].
Qed.

Lemma url_at_complete u : url_shape u -> url_at u = Some (u, []).
Proof.
  intros (sch & www & kind & code & -> & Hs & Hw & Hk & Hne & Hid).
  pose proof (id_run_all Hne Hid) as Hrun.
  destruct Hs as [->|[->| ->]]; destruct Hw as [->| ->];
    destruct Hk as [->|[->| ->]];
    cbv -[id_run]; rewrite Hrun; reflexivity.
Qed.

(** X15. Every address [extractInstagramUrls] returns is a post address:
    an optional [http://] or [https://], an optional [www.], then
    [instagram.com/], one of [p], [reel], [reels], a slash and a non-empty
    run of letters, digits, [_] and [-]. *)
Theorem extracted_urls_well_formed text :
  Forall url_shape (extractInstagramUrls text).
Proof. apply scan_shape. Qed.

(** X16. A text that is a post address and nothing else is extracted as
    that one address, whole. *)
Theorem extracts_a_lone_url u :
  url_shape u -> extractInstagramUrls u = [u].
Proof.
  intro H. pose proof (url_at_complete H) as E.
  unfold extractInstagramUrls. destruct u as [|c u].
  - destruct H as (sch & www & kind & code & Hu & _).
    destruct sch, www; discriminate Hu.
  - cbn [scan]. rewrite E. f_equal. apply scan_skip_all.
    cbn [List.length]. lia.
Qed.

Lemma extracts_a_lone_url_witness :
  url_shape (str "https://www.instagram.com/reel/Cx_9-a")
  /\ extractInstagramUrls (str "https://www.instagram.com/reel/Cx_9-a")
     = [str "https://www.instagram.com/reel/Cx_9-a"].
Proof.
  assert (H : url_shape (str "https://www.instagram.com/reel/Cx_9-a")).
  { exists (str "https://"), (str "www."), (str "reel"), (str "Cx_9-a").
    split; [reflexivity|]. split; [now right; right|].
    split; [now right|]. split; [now right; left|].
    split; [discriminate | reflexivity]. }
  split; [exact H|].
  exact (extracts_a_lone_url H).
Defined.

End InstagramUrls.

Section InstagramScrape.
Import Instagram.

Lemma filter_idem {A} (f : A -> bool) l :
  filter f (filter f l) = filter f l.
Proof.
  induction l as [|x l IH]; [reflexivity|].
  cbn [filter]. destruct (f x) eqn:E; [|exact IH].
  cbn [filter]. now rewrite E, IH.
Qed.

(** X17. The slides without alt text have no effect on the text made for
    the prompt: dropping them from the post gives the same text. *)
Theorem format_ignores_slides_without_alt posts d :
  formatInstagramContentForAI (with_childPosts (Some posts) d)
  = formatInstagramContentForAI
      (with_childPosts
         (Some (filter (fun post => truthy (alt post)) posts)) d).
Proof.
  unfold formatInstagramContentForAI, with_childPosts.
  cbn [type ownerUsername ownerFullName caption childPosts].
  destruct posts as [|p ps]; [reflexivity|].
  destruct (filter (fun post => truthy (alt post)) (p :: ps))
    as [|x xs] eqn:E.
  - reflexivity.
  - rewrite <- E, filter_idem. reflexivity.
Qed.

Lemma or_str_truthy o d : truthy d = true -> truthy (or_str o d) = true.
Proof.
  intro H. destruct o as [s|]; [|exact H]. cbn [or_str].
  destruct (truthy s) eqn:E; assumption.
Qed.

Lemma attempt_postData net token url data :
  attempt net token url = inr data -> exists post, data = postData post.
Proof.
  unfold attempt, throwError.
  destruct (start_run net token (normalizeInstagramUrl url)) as [e|resp];
    [discriminate|].
  destruct (negb (ok resp)).
  { destruct (status resp =? 401)%nat; [discriminate|].
    destruct (status resp =? 429)%nat; discriminate. }
  destruct (run_json resp) as [e|rd]; [discriminate|].
  destruct (negb (truthy (or_str (opt_chain rd run_id) [])));
    [discriminate|].
  destruct (poll _ _ _ _ _ _) as [e|st]; [discriminate|].
  destruct (status_is (str "FAILED") st); [discriminate|].
  destruct (negb (status_is (str "SUCCEEDED") st)); [discriminate|].
  destruct (dataset_items _ _ _) as [e|[[|post items]|]]; try discriminate.
  intro H. injection H as <-. now exists post.
Qed.

(** X18. A post that [scrapeInstagramPost] returns never has an empty type
    or an empty owner name, whatever the network answered. *)
Theorem scraped_post_has_type_and_owner net st url apiToken data :
  scrapeInstagramPost net st url apiToken = inr data ->
  truthy (type data) = true /\ truthy (ownerUsername data) = true.
Proof.
  unfold scrapeInstagramPost, throwError.
  destruct (negb (truthy (or_str apiToken (getApifyApiKey st))));
    [discriminate|].
  destruct (attempt net _ url) as [e|d] eqn:E; [discriminate|].
  intro H. injection H as <-.
  destruct (attempt_postData _ _ _ E) as [post ->].
  split; apply or_str_truthy; reflexivity.
Qed.

Lemma scraped_post_has_type_and_owner_witness :
  scrapeInstagramPost succeedingAtOnce [] (str "instagram.com/p/abc")
    (Some (str "token")) = inr (postData emptyPost)
  /\ truthy (type (postData emptyPost)) = true
  /\ truthy (ownerUsername (postData emptyPost)) = true.
Proof.
  assert (H : scrapeInstagramPost succeedingAtOnce []
                (str "instagram.com/p/abc") (Some (str "token"))
              = inr (postData emptyPost)) by (vm_compute; reflexivity).
  split; [exact H|].
  exact (scraped_post_has_type_and_owner succeedingAtOnce []
           (str "instagram.com/p/abc") (Some (str "token")) H).
Defined.

Lemma includes_app p : forall a b, includes p (a ++ p ++ b) = true.
Proof.
  induction a as [|x a IH]; intro b.
  - cbn [app]. destruct (p ++ b) eqn:E; cbn [includes];
      rewrite <- E, startsWith_app; reflexivity.
  - cbn [app includes]. rewrite IH. apply orb_true_r.
Qed.

(** X19. Every failure of [scrapeInstagramPost] carries a message, and the
    message is the missing-key one, or mentions the invalid key or the
    rate limit, or starts with [Failed to scrape Instagram: ]. *)
Theorem scrape_failure_messages net st url apiToken message :
  scrapeInstagramPost net st url apiToken = inl (Thrown message) ->
  exists m, message = Some m
    /\ (m = str "Apify API key is required for Instagram scraping"
        \/ includes (str "Invalid Apify") m = true
        \/ includes (str "rate limit") m = true
        \/ startsWith (str "Failed to scrape Instagram: ") m = true).
Proof.
  unfold scrapeInstagramPost, throwError.
  destruct (negb (truthy (or_str apiToken (getApifyApiKey st)))).
  { intro H. injection H as <-. eexists. split; [reflexivity|]. now left. }
  destruct (attempt net _ url) as [[msg]|d]; [|discriminate].
  unfold rethrow.
  destruct msg as [m|].
  - destruct (includes (str "Invalid Apify") m) eqn:E1.
    { cbn [orb]. intro H. injection H as <-. exists m. auto. }
    destruct (includes (str "rate limit") m) eqn:E2.
    { cbn [orb]. intro H. injection H as <-. exists m. auto. }
    cbn [orb]. intro H. injection H as <-. eexists. split; [reflexivity|].
    do 3 right. exact (startsWith_app (str "Failed to scrape Instagram: ") _).
  - cbn [orb]. intro H. injection H as <-. eexists. split; [reflexivity|].
    do 3 right. exact (startsWith_app (str "Failed to scrape Instagram: ") _).
Qed.

Lemma scrape_failure_messages_witness :
  exists m,
    Some (str "Apify API key is required for Instagram scraping") = Some m
    /\ (m = str "Apify API key is required for Instagram scraping"
        \/ includes (str "Invalid Apify") m = true
        \/ includes (str "rate limit") m = true
        \/ startsWith (str "Failed to scrape Instagram: ") m = true).
Proof.
  apply (@scrape_failure_messages runningForever []
           (str "instagram.com/p/abc") None).
  reflexivity.
Defined.

Lemma poll_same a b token runId :
  (forall k, (k < maxAttempts)%nat ->
     run_state a token runId k = run_state b token runId k) ->
  forall fuel attempts st,
    (fuel + attempts <= maxAttempts)%nat ->
    poll a token runId fuel attempts st = poll b token runId fuel attempts st.
Proof.
  intros Hs. induction fuel as [|fuel IH]; intros attempts st Hle;
    [reflexivity|].
  cbn [poll].
  destruct (status_is (str "SUCCEEDED") st || status_is (str "FAILED") st);
    [reflexivity|].
  rewrite Hs by lia.
  destruct (run_state b token runId attempts) as [e|st']; [reflexivity|].
  apply IH. lia.
Qed.

(** X20. [scrapeInstagramPost] asks for the state of the run at most sixty
    times: two networks that only differ in what they would answer to a
    later request give the same result. *)
Theorem scrape_polls_at_most_sixty_times a b st url apiToken :
  same_answers a b ->
  scrapeInstagramPost a st url apiToken
  = scrapeInstagramPost b st url apiToken.
Proof.
  intros (Hstart & Hstate & Hitems).
  unfold scrapeInstagramPost.
  destruct (negb (truthy (or_str apiToken (getApifyApiKey st))));
    [reflexivity|].
  assert (E : forall token, attempt a token url = attempt b token url).
  { intro token. unfold attempt. rewrite Hstart.
    destruct (start_run b token (normalizeInstagramUrl url)) as [e|resp];
      [reflexivity|].
    destruct (negb (ok resp)); [reflexivity|].
    destruct (run_json resp) as [e|rd]; [reflexivity|].
    destruct (negb (truthy (or_str (opt_chain rd run_id) [])));
      [reflexivity|].
    rewrite (@poll_same a b token (or_str (opt_chain rd run_id) []))
      by (try (intros; apply Hstate; assumption); unfold maxAttempts; lia).
    rewrite Hitems. reflexivity. }
  rewrite E. reflexivity.
Qed.

Lemma scrape_polls_at_most_sixty_times_witness :
  same_answers runningForever succeedingLate
  /\ scrapeInstagramPost runningForever [] (str "instagram.com/p/abc")
       (Some (str "token"))
     = scrapeInstagramPost succeedingLate [] (str "instagram.com/p/abc")
         (Some (str "token")).
Proof.
  assert (H : same_answers runningForever succeedingLate).
  { split; [|split].
    - intros; reflexivity.
    - intros token runId k Hk. cbn [run_state runningForever succeedingLate].
      apply Nat.ltb_lt in Hk. rewrite Hk. reflexivity.
    - intros; reflexivity. }
  split; [exact H|].
  exact (scrape_polls_at_most_sixty_times [] (str "instagram.com/p/abc")
           (Some (str "token")) H).
Defined.

Lemma poll_running net token runId :
  (forall k, (k < maxAttempts)%nat ->
     exists s, run_state net token runId k = inr s /\ terminal s = false) ->
  forall fuel attempts st,
    (fuel + attempts <= maxAttempts)%nat -> terminal st = false ->
    exists st', poll net token runId fuel attempts st = inr st'
                /\ terminal st' = false.
Proof.
  intros Hs. induction fuel as [|fuel IH]; intros attempts st Hle Ht.
  - exists st. now split.
  - cbn [poll]. unfold terminal in Ht. rewrite Ht.
    destruct (Hs attempts) as (s & -> & Hns); [lia|].
    apply IH; [lia|exact Hns].
Qed.

(** X21. When the run starts and sixty requests for its state all find it
    neither succeeded nor failed, [scrapeInstagramPost] gives up with the
    timed-out message (wrapped by the [catch]), without asking for the
    items. *)
Theorem scrape_times_out net st url token resp rd :
  truthy token = true ->
  start_run net token (normalizeInstagramUrl url) = inr resp ->
  ok resp = true ->
  run_json resp = inr rd ->
  truthy (or_str (opt_chain rd run_id) []) = true ->
  terminal (opt_chain rd run_status) = false ->
  (forall k, (k < maxAttempts)%nat ->
     exists s, run_state net token (or_str (opt_chain rd run_id) []) k
               = inr s /\ terminal s = false) ->
  scrapeInstagramPost net st url (Some token)
  = throwError
      (str "Failed to scrape Instagram: Instagram scraping timed out. Please try again.").
Proof.
  intros Htok Hstart Hok Hjson Hid Hst Hpolls.
  unfold scrapeInstagramPost.
  assert (or_str (Some token) (getApifyApiKey st) = token) as ->
    by (cbn [or_str]; now rewrite Htok).
  rewrite Htok. cbn [negb]. unfold attempt. rewrite Hstart, Hok. cbn [negb]. rewrite Hjson, Hid.
  cbn [negb].
  destruct (@poll_running net token _ Hpolls maxAttempts 0%nat
              (opt_chain rd run_status)) as (st' & -> & Hns);
    [unfold maxAttempts; lia | exact Hst |].
  unfold terminal in Hns. apply orb_false_iff in Hns as [Hs Hf].
  rewrite Hf, Hs. reflexivity.
Qed.

Lemma scrape_times_out_witness :
  scrapeInstagramPost runningForever [] (str "instagram.com/p/abc")
    (Some (str "token"))
  = throwError
      (str "Failed to scrape Instagram: Instagram scraping timed out. Please try again.").
Proof.
  apply (@scrape_times_out runningForever [] (str "instagram.com/p/abc")
           (str "token")
           {| ok := true; status := 200;
              run_json := inr (Some {| run_id := Some (str "run1");
                                       run_status := Some (str "RUNNING");
                                       defaultDatasetId := Some (str "ds1") |}) |}
           (Some {| run_id := Some (str "run1");
                    run_status := Some (str "RUNNING");
                    defaultDatasetId := Some (str "ds1") |}));
    try reflexivity.
  intros k Hk. exists (Some (str "RUNNING")). split; reflexivity.
Defined.

End InstagramScrape.

(* ====================================================================== *)
(** ** The onboarding wizard *)
(* ====================================================================== *)

Section WizardFacts.
Import Instagram App.

(** A property every reaction keeps holds after any sequence of
    events. *)
Lemma run_invariant (P : State -> Prop) :
  (forall e s, P s -> P (react e s)) ->
  forall events s, P s -> P (run events s).
Proof.
  intros Hstep. unfold run.
  induction events as [|e events IH]; intros s Hs; [exact Hs|].
  cbn [fold_left]. apply IH, Hstep, Hs.
Qed.

Lemma run_app a b s : run (a ++ b) s = run b (run a s).
Proof. unfold run. apply fold_left_app. Qed.

Lemma react_generating e s :
  (isGenerating s = true -> step s = AI_INPUT) ->
  isGenerating (react e s) = true -> step (react e s) = AI_INPUT.
Proof.
  react_cases s e; intros H H'; try reflexivity; try discriminate H';
    try (exact (H H')); try (discriminate (H eq_refl));
    discriminate (H H').
Qed.

(** X22. While a generation is pending the wizard is on the AI screen,
    whatever the user did before and does meanwhile. *)
Theorem generating_stays_on_ai_screen events st :
  isGenerating (run events (mounted st)) = true ->
  step (run events (mounted st)) = AI_INPUT.
Proof.
  apply (@run_invariant
           (fun s => isGenerating s = true -> step s = AI_INPUT)).
  - intros e s. apply react_generating.
  - discriminate.
Qed.

Lemma generating_stays_on_ai_screen_witness :
  let events :=
    [ClickFormat TWITTER; ClickRatio R4_5; SubmitProfile; ClickAiMagic;
     TypeTopic (str "cats"); ClickGenerate; TypeTopic (str "dogs");
     ClickBack] in
  isGenerating (run events (mounted [])) = true
  /\ step (run events (mounted [])) = AI_INPUT.
Proof.
  cbv zeta.
  assert (H : isGenerating
                (run [ClickFormat TWITTER; ClickRatio R4_5; SubmitProfile;
                      ClickAiMagic; TypeTopic (str "cats"); ClickGenerate;
                      TypeTopic (str "dogs"); ClickBack] (mounted []))
              = true) by (vm_compute; reflexivity).
  split; [exact H|].
  exact (generating_stays_on_ai_screen _ [] H).
Defined.

Lemma react_style e s :
  e <> WorkspaceStyleChange APPLE_NOTES ->
  style s <> APPLE_NOTES -> style (react e s) <> APPLE_NOTES.
Proof.
  react_cases s e; intros He H; try exact H; try discriminate.
  now destruct selectedStyle.
Qed.

Lemma run_style events : forall s,
  Forall (fun e => e <> WorkspaceStyleChange APPLE_NOTES) events ->
  style s <> APPLE_NOTES -> style (run events s) <> APPLE_NOTES.
Proof.
  induction events as [|e events IH]; intros s HF Hs; [exact Hs|].
  inversion HF as [|? ? He HF']; subst.
  change (run (e :: events) s) with (run events (react e s)).
  apply IH; [exact HF' | now apply react_style].
Qed.

(** X23. The screens of the wizard never select the style that is not
    available yet: the style is one of the three templates after any
    sequence of events, unless the workspace itself calls [onStyleChange]
    with that style. *)
Theorem only_workspace_selects_apple_notes events st :
  Forall (fun e => e <> WorkspaceStyleChange APPLE_NOTES) events ->
  style (run events (mounted st)) <> APPLE_NOTES.
Proof.
  intro HF. apply run_style; [exact HF | discriminate].
Qed.

Lemma only_workspace_selects_apple_notes_witness :
  style
    (run [ClickFormat APPLE_NOTES; ClickFormat LESSON; ClickRatio R4_5;
          SubmitProfile; ClickManualCreation;
          WorkspaceStyleChange STORYTELLER] (mounted []))
  <> APPLE_NOTES.
Proof.
  apply (@only_workspace_selects_apple_notes
           [ClickFormat APPLE_NOTES; ClickFormat LESSON; ClickRatio R4_5;
            SubmitProfile; ClickManualCreation;
            WorkspaceStyleChange STORYTELLER] []).
  repeat constructor; discriminate.
Defined.

Lemma saved_key_in_sync s :
  apifyKeyConfigured s = hasApifyApiKey (storage s)
  /\ apifyKeyDisplay s = getApifyApiKeyMasked (storage s) ->
  apifyKeyConfigured (handleSaveApifyKey s)
  = hasApifyApiKey (storage (handleSaveApifyKey s))
  /\ apifyKeyDisplay (handleSaveApifyKey s)
     = getApifyApiKeyMasked (storage (handleSaveApifyKey s)).
Proof.
  intro H. unfold handleSaveApifyKey.
  destruct (truthy (trim (apifyKeyInput s))) eqn:E; [|exact H].
  cbn [apifyKeyConfigured apifyKeyDisplay storage]. split; [|reflexivity].
  unfold hasApifyApiKey. rewrite getApifyApiKey_set. now rewrite E.
Qed.

Lemma react_key_in_sync e s :
  apifyKeyConfigured s = hasApifyApiKey (storage s)
  /\ apifyKeyDisplay s = getApifyApiKeyMasked (storage s) ->
  apifyKeyConfigured (react e s) = hasApifyApiKey (storage (react e s))
  /\ apifyKeyDisplay (react e s) = getApifyApiKeyMasked (storage (react e s)).
Proof.
  intro H. destruct s as [stp sty ar topic doc gen kin kcf shw kds sto].
  destruct stp, e;
    try (unfold react; cbn [step showApifyKeyInput]; destruct shw;
         [apply saved_key_in_sync; exact H | exact H]);
    handlers; branches; exact H.
Qed.

(** X24. What the first screen shows of the Instagram key agrees with the
    storage after any sequence of events: the key is shown as configured
    exactly when one is stored, and the text shown is the stored key
    masked. *)
Theorem key_display_in_sync events st :
  let s := run events (mounted st) in
  apifyKeyConfigured s = hasApifyApiKey (storage s)
  /\ apifyKeyDisplay s = getApifyApiKeyMasked (storage s).
Proof.
  cbv zeta.
  apply (@run_invariant
           (fun s => apifyKeyConfigured s = hasApifyApiKey (storage s)
                     /\ apifyKeyDisplay s
                        = getApifyApiKeyMasked (storage s))).
  - apply react_key_in_sync.
  - split; reflexivity.
Qed.

Lemma react_rank e s :
  (isGenerating s = true -> step s = AI_INPUT) ->
  (rank (step (react e s)) <= S (rank (step s)))%nat.
Proof.
  react_cases s e; intro H; cbn [rank]; try lia; discriminate (H eq_refl).
Qed.

Lemma run_rank events : forall s,
  (isGenerating s = true -> step s = AI_INPUT) ->
  (rank (step (run events s)) <= rank (step s) + List.length events)%nat.
Proof.
  induction events as [|e events IH]; intros s Hs.
  - cbn. lia.
  - change (run (e :: events) s) with (run events (react e s)).
    specialize (IH (react e s) (react_generating e s Hs)).
    pose proof (@react_rank e s Hs). cbn [List.length]. lia.
Qed.

(** X25. No screen of the wizard can be skipped: the workspace, and the AI
    screen, are only reached after four events at least. *)
Theorem workspace_needs_four_steps events st :
  step (run events (mounted st)) = WORKSPACE
  \/ step (run events (mounted st)) = AI_INPUT ->
  (4 <= List.length events)%nat.
Proof.
  intro H.
  assert (Hr : (rank (step (run events (mounted st)))
                <= rank (step (mounted st)) + List.length events)%nat)
    by (apply run_rank; discriminate).
  change (rank (step (mounted st))) with 0%nat in Hr.
  destruct H as [H|H]; rewrite H in Hr; cbn in Hr; lia.
Qed.

Lemma workspace_needs_four_steps_witness :
  (4 <= List.length
          [ClickFormat LESSON; ClickRatio R1_1; SubmitProfile;
           ClickManualCreation])%nat.
Proof.
  apply (@workspace_needs_four_steps
           [ClickFormat LESSON; ClickRatio R1_1; SubmitProfile;
            ClickManualCreation] []).
  left. reflexivity.
Defined.

(** X26. Back returns to the screen one came from: when no generation is
    pending and an event moves the wizard one screen forward, the Back
    button of the new screen brings the first screen back, with nothing
    else of the state changed by it. *)
Theorem back_undoes_forward e s :
  isGenerating s = false ->
  rank (step (react e s)) = S (rank (step s)) ->
  react ClickBack (react e s) = setStep (step s) (react e s).
Proof.
  react_cases s e; intros Hg Hr; cbn in Hg, Hr; subst;
    try discriminate Hr; try discriminate Hg; try reflexivity.
Qed.

Lemma back_undoes_forward_witness :
  react ClickBack (react (ClickFormat STORYTELLER) (mounted []))
  = setStep FORMAT_SELECT (react (ClickFormat STORYTELLER) (mounted [])).
Proof.
  apply (@back_undoes_forward (ClickFormat STORYTELLER) (mounted []));
    reflexivity.
Defined.

End WizardFacts.
